(** * Delta debugging: the oracles, the gdb helpers and the ddmin engine

    A shallow embedding of the Python sources of the delta-debugging
    repository (the gdb wrapper, the gdb tracer and the example oracle
    scripts), together with a model of the minimisation engine of the
    base class [DD], followed by the properties established about them. *)

From Stdlib Require Import ZArith Lia Ascii String List.
From stdpp Require Import base decidable option list sorting strings gmap.

Local Open Scope string_scope.
Local Open Scope list_scope.
Local Open Scope Z_scope.

(** ** Python runtime: exceptions and the outcome of a call *)

(** The exceptions that the modelled code can see. *)
Inductive exn : Type :=
  | GdbException (response : string)
  | IndexError
  | ValueError
  | TypeError
  | NameError (name : string)
  | OSError
  | TimeoutExpired
  | AttributeError.

(** A call either returns a value, raises, or never comes back (a wait
    on a process that does not exit, a blocking read on a silent pipe). *)
Inductive outcome (A : Type) : Type :=
  | Returned (a : A)
  | Raised (e : exn)
  | Blocked.

Arguments Returned {A} a.
Arguments Raised {A} e.
Arguments Blocked {A}.

(** Sequencing of calls: the first exception or blocking call ends the
    sequence. *)
#[global] Instance outcome_ret : MRet outcome := fun A a => Returned a.

#[global] Instance outcome_bind : MBind outcome := fun A B k o =>
  match o with
  | Returned a => k a
  | Raised e => Raised e
  | Blocked => Blocked
  end.

(** [try: body except Exception: handler]: every exception raised by the
    body is handled; a body that blocks keeps blocking. *)
Definition try_except {A : Type} (body : outcome A) (handler : exn -> outcome A)
  : outcome A :=
  match body with
  | Raised e => handler e
  | o => o
  end.

(** Logging and printing ([debug], [info], [error], [print]) have no
    part in what a call returns and are left out of the embedding. *)

(** ** Python strings (ASCII text) *)

Module PyStr.

(** [str.isspace] on the ASCII range: tab, newline, vertical tab, form
    feed, carriage return, the four separators 0x1c-0x1f, and space. *)
Definition is_space (a : ascii) : bool :=
  let n := nat_of_ascii a in
  ((9 <=? n)%nat && (n <=? 13)%nat) || ((28 <=? n)%nat && (n <=? 32)%nat).

Fixpoint lstrip (s : string) : string :=
  match s with
  | EmptyString => EmptyString
  | String a r => if is_space a then lstrip r else s
  end.

Fixpoint rstrip (s : string) : string :=
  match s with
  | EmptyString => EmptyString
  | String a r =>
      match rstrip r with
      | EmptyString => if is_space a then EmptyString else String a EmptyString
      | r' => String a r'
      end
  end.

(** [s.strip()] *)
Definition strip (s : string) : string := rstrip (lstrip s).

(** [s.startswith(p)] *)
Fixpoint startswith (p s : string) : bool :=
  match p, s with
  | EmptyString, _ => true
  | String a p', String b s' => if Ascii.eqb a b then startswith p' s' else false
  | String _ _, EmptyString => false
  end.

(** [sub in s] *)
Fixpoint contains (sub s : string) : bool :=
  startswith sub s ||
  match s with
  | EmptyString => false
  | String _ r => contains sub r
  end.

Definition lower_ascii (a : ascii) : ascii :=
  let n := nat_of_ascii a in
  if (65 <=? n)%nat && (n <=? 90)%nat then ascii_of_nat (n + 32) else a.

(** [s.lower()] *)
Fixpoint lower (s : string) : string :=
  match s with
  | EmptyString => EmptyString
  | String a r => String (lower_ascii a) (lower r)
  end.

(** The fields of [s] between the characters that satisfy [p]: every
    such character ends a field, so two in a row give an empty field
    and the result always has at least one field. *)
Fixpoint fields (p : ascii -> bool) (s : string) : list string :=
  match s with
  | EmptyString => [EmptyString]
  | String a r =>
      if p a then EmptyString :: fields p r
      else match fields p r with
           | f :: fs => String a f :: fs
           | [] => [String a EmptyString]
           end
  end.

(** [s.split(sep)] for a one-character separator. *)
Definition split (sep : ascii) (s : string) : list string :=
  fields (fun a => Ascii.eqb a sep) s.

Definition nonempty (s : string) : bool :=
  match s with
  | EmptyString => false
  | String _ _ => true
  end.

(** [s.split()]: the tokens separated by runs of white space. *)
Definition words (s : string) : list string :=
  List.filter nonempty (fields is_space s).

Definition digit_value (a : ascii) : option Z :=
  let n := nat_of_ascii a in
  if (48 <=? n)%nat && (n <=? 57)%nat then Some (Z.of_nat (n - 48)) else None.

(** The digits of a decimal literal; single underscores are allowed
    between digits only. *)
Fixpoint int_digits (s : string) (acc : Z) (after_digit : bool) : option Z :=
  match s with
  | EmptyString => if after_digit then Some acc else None
  | String a r =>
      match digit_value a with
      | Some d => int_digits r (10 * acc + d) true
      | None =>
          if Ascii.eqb a "_" && after_digit then int_digits r acc false
          else None
      end
  end.

(** The white space that [int] skips around a literal: tab, newline,
    vertical tab, form feed, carriage return and space.  The separators
    0x1c-0x1f, which [strip] removes, are not among them. *)
Definition is_int_space (a : ascii) : bool :=
  let n := nat_of_ascii a in
  ((9 <=? n)%nat && (n <=? 13)%nat) || (n =? 32)%nat.

Fixpoint int_lstrip (s : string) : string :=
  match s with
  | EmptyString => EmptyString
  | String a r => if is_int_space a then int_lstrip r else s
  end.

Fixpoint int_rstrip (s : string) : string :=
  match s with
  | EmptyString => EmptyString
  | String a r =>
      match int_rstrip r with
      | EmptyString => if is_int_space a then EmptyString else String a EmptyString
      | r' => String a r'
      end
  end.

(** The literal that [int] reads, without the white space around it. *)
Definition int_strip (s : string) : string := int_rstrip (int_lstrip s).

(** The number of decimal digits in [s]. *)
Fixpoint digit_count (s : string) : N :=
  match s with
  | EmptyString => 0%N
  | String a r =>
      match digit_value a with
      | Some _ => N.succ (digit_count r)
      | None => digit_count r
      end
  end.

(** The interpreter's limit on the digits of a decimal literal
    ([sys.get_int_max_str_digits()], left at its default by the
    programs). *)
Definition int_max_str_digits : N := 4300%N.

(** [int(s)]: the white space around the literal is skipped, one sign is
    allowed, and a literal of more digits than the limit is refused.
    [None] stands for the ValueError raised on anything else. *)
Definition int (s : string) : option Z :=
  let t := int_strip s in
  let '(negative, r) := match t with
                        | String "+" r => (false, r)
                        | String "-" r => (true, r)
                        | _ => (false, t)
                        end in
  if (int_max_str_digits <? digit_count r)%N then None
  else if negative then Z.opp <$> int_digits r 0 false
  else int_digits r 0 false.

(** [l[i]] on a list: IndexError out of range. *)
Definition index {A : Type} (l : list A) (i : nat) : outcome A :=
  match l !! i with
  | Some x => Returned x
  | None => Raised IndexError
  end.

(** [s.endswith(suffix)]: some tail of [s] is [suffix]. *)
Fixpoint endswith (suffix s : string) : bool :=
  String.eqb suffix s ||
  match s with
  | EmptyString => false
  | String _ r => endswith suffix r
  end.

(** The newline character. *)
Definition newline : string := String "010" EmptyString.

(** The line boundaries of [str.splitlines] on the ASCII range: line
    feed, vertical tab, form feed, carriage return and the separators
    0x1c, 0x1d, 0x1e. *)
Definition is_linebreak (a : ascii) : bool :=
  let n := nat_of_ascii a in
  ((10 <=? n)%nat && (n <=? 13)%nat) || ((28 <=? n)%nat && (n <=? 30)%nat).

(** [s.splitlines()]: the lines without their boundaries; a boundary at
    the very end does not open a further line. *)
Fixpoint splitlines (s : string) : list string :=
  match s with
  | EmptyString => []
  | String a r =>
      if is_linebreak a then
        EmptyString ::
        (if Ascii.eqb a "013" then
           match r with
           | String "010" r' => splitlines r'
           | _ => splitlines r
           end
         else splitlines r)
      else
        match splitlines r with
        | l :: ls => String a l :: ls
        | [] => [String a EmptyString]
        end
  end.

Definition hex_value (a : ascii) : option Z :=
  let n := nat_of_ascii a in
  if (48 <=? n)%nat && (n <=? 57)%nat then Some (Z.of_nat (n - 48))
  else if (97 <=? n)%nat && (n <=? 102)%nat then Some (Z.of_nat (n - 87))
  else if (65 <=? n)%nat && (n <=? 70)%nat then Some (Z.of_nat (n - 55))
  else None.

(** The digits of a hexadecimal literal; single underscores are allowed
    between digits only. *)
Fixpoint hex_digits (s : string) (acc : Z) (after_digit : bool) : option Z :=
  match s with
  | EmptyString => if after_digit then Some acc else None
  | String a r =>
      match hex_value a with
      | Some d => hex_digits r (16 * acc + d) true
      | None =>
          if Ascii.eqb a "_" && after_digit then hex_digits r acc false
          else None
      end
  end.

(** The literal after its sign: a prefix [0x] or [0X] is skipped, with
    one underscore after it. *)
Definition skip_hex_prefix (t : string) : string :=
  match t with
  | String "0" (String x r) =>
      if Ascii.eqb x "x" || Ascii.eqb x "X" then
        match r with
        | String "_" r' => r'
        | _ => r
        end
      else t
  | _ => t
  end.

(** [int(s, 16)]: the white space around the literal is skipped as by
    [int], one sign and the prefix are allowed; the limit on the digits
    does not apply to base 16.  [None] stands for the ValueError raised
    on anything else. *)
Definition int16 (s : string) : option Z :=
  match int_strip s with
  | String "+" r => hex_digits (skip_hex_prefix r) 0 false
  | String "-" r => Z.opp <$> hex_digits (skip_hex_prefix r) 0 false
  | t => hex_digits (skip_hex_prefix t) 0 false
  end.

(** [s[n:]] for [n >= 0]. *)
Fixpoint slice_from (n : nat) (s : string) : string :=
  match n, s with
  | O, _ => s
  | S n', String _ r => slice_from n' r
  | S _, EmptyString => EmptyString
  end.

(** [s[:n]] for [n >= 0]. *)
Fixpoint slice_to (n : nat) (s : string) : string :=
  match n, s with
  | O, _ => EmptyString
  | S n', String a r => String a (slice_to n' r)
  | S _, EmptyString => EmptyString
  end.

(** The search of [s.find(sub)], counting from [pos]: the lowest index
    at which [sub] starts, or -1. *)
Fixpoint find_at (sub s : string) (pos : Z) : Z :=
  if startswith sub s then pos
  else match s with
       | EmptyString => -1
       | String _ r => find_at sub r (pos + 1)
       end.

(** [s.find(sub)] *)
Definition find (sub s : string) : Z := find_at sub s 0.

(** [s.find(sub, start)] for [start >= 0]. *)
Definition find_from (sub s : string) (start : Z) : Z :=
  if Z.of_nat (String.length s) <? start then -1
  else find_at sub (slice_from (Z.to_nat start) s) start.

(** [s[i:j]] for [i >= 0]: a negative [j] counts from the end. *)
Definition slice (s : string) (i j : Z) : string :=
  let len := Z.of_nat (String.length s) in
  let j := if j <? 0 then Z.max (j + len) 0 else Z.min j len in
  let i := Z.min i len in
  slice_to (Z.to_nat (j - i)) (slice_from (Z.to_nat i) s).

End PyStr.

(** ** delta_debugging/gdb-tracer.py *)

Module GdbTracer.

(** One entry of [self.target_ranges]: [(start, end)]. *)
Definition range : Type := Z * Z.

(** The loop state of [_consolidate_target_ranges]:
    [(copy, previous_start, previous_end)]. *)
Definition consolidate_state : Type := list range * Z * Z.

(** One iteration of the [for start, end in self.target_ranges] loop. *)
Definition consolidate_step (st : consolidate_state) (r : range)
  : consolidate_state :=
  let '(copy, previous_start, previous_end) := st in
  let '(start, end_) := r in
  if negb (start =? previous_end) then
    (* non-contiguous, output previous range *)
    let copy' :=
      if negb (previous_start =? previous_end)
      then copy ++ [(previous_start, previous_end)]
      else copy in
    (copy', start, end_)
  else
    (* contiguous: only the previous end moves *)
    (copy, previous_start, end_).

(** [GdbTracer._consolidate_target_ranges]: the new value of
    [self.target_ranges]. *)
Definition _consolidate_target_ranges (target_ranges : list range) : list range :=
  let '(copy, previous_start, previous_end) :=
    foldl consolidate_step ([], 0, 0) target_ranges in
  copy ++ [(previous_start, previous_end)].

(** [GdbTracer._we_are_not_in_kansas_anymore]: [True] if [pc] is in no
    range (both bounds inclusive). *)
Fixpoint _we_are_not_in_kansas_anymore (target_ranges : list range) (pc : Z) : bool :=
  match target_ranges with
  | [] => true
  | (start, end_) :: rest =>
      if (start <=? pc) && (pc <=? end_) then false
      else _we_are_not_in_kansas_anymore rest pc
  end.

(** In the words of the claim about consolidation: a range whose
    start equals the end of the range before it is merged into it, and
    nothing else is merged.  [merge_from s e rest] is the result for
    the pending range [(s, e)] followed by [rest]. *)
Fixpoint merge_from (s e : Z) (rest : list range) : list range :=
  match rest with
  | [] => [(s, e)]
  | (s', e') :: rest' =>
      if s' =? e then merge_from s e' rest'
      else (s, e) :: merge_from s' e' rest'
  end.

Definition merge_contiguous (ranges : list range) : list range :=
  match ranges with
  | [] => []
  | (s, e) :: rest => merge_from s e rest
  end.

End GdbTracer.

(** ** delta_debugging/gdb.py *)

Module Gdb.

(** What the pipe to gdb does with the data written to it: the text
    read back up to the prompt.  This is the only contact with the
    operating system in the methods below. *)
Definition gdb_io : Type := string -> outcome string.

(** [Gdb.send_input] with [read_to_prompt=True]. *)
Definition send_input (io : gdb_io) (data : string) : outcome string :=
  output ← io data;
  Returned (PyStr.strip output).

(** [Gdb._send_command] with [read_to_prompt=True]. *)
Definition _send_command (io : gdb_io) (cmd : string) : outcome string :=
  output ← send_input io (cmd +:+ String "010" EmptyString);
  Returned (PyStr.strip output).

(** The part of [Gdb.set_breakpoint] that follows the command. *)
Definition parse_breakpoint (response : string) : outcome (Z * string) :=
  if negb (PyStr.startswith "Breakpoint " response) then
    Raised (GdbException response)
  else
    let parts := PyStr.split " " (PyStr.strip response) in
    p1 ← PyStr.index parts 1;
    num ← match PyStr.int p1 with
          | Some z => Returned z
          | None => Raised ValueError
          end;
    addr ← PyStr.index parts 3;
    Returned (num, addr).

(** [Gdb.set_breakpoint]. *)
Definition set_breakpoint (io : gdb_io) (symbol : string) : outcome (Z * string) :=
  let cmd := "b " +:+ symbol in
  response ← _send_command io cmd;
  parse_breakpoint response.


(** A running gdb: what its pipes do.  [write] is
    [self.p.stdin.write(data)], [exchange] is a write followed by
    [read_to_prompt()], [eof] is [self.p.stdin.close()] followed by
    [read_to_prompt()]. *)
Record session : Type := {
  write : string -> outcome unit;
  exchange : gdb_io;
  eof : outcome string
}.

(** [Gdb.send_input] with [read_to_prompt=False]: the data is written
    and the empty output is returned. *)
Definition send_input_unread (g : session) (data : string) : outcome string :=
  write g data;;
  Returned (PyStr.strip "").

(** [Gdb._send_command] with [read_to_prompt=False]. *)
Definition _send_command_unread (g : session) (cmd : string) : outcome string :=
  output ← send_input_unread g (cmd +:+ String "010" EmptyString);
  Returned (PyStr.strip output).

(** [" ".join(args)] *)
Fixpoint join_spaces (args : list string) : string :=
  match args with
  | [] => ""
  | [a] => a
  | a :: rest => a +:+ " " +:+ join_spaces rest
  end.

(** [Gdb.run]. *)
Definition run (g : session) (args : list string) (read_to_prompt : bool)
  : outcome string :=
  let cmd := "r" in
  let cmd := match args with
             | [] => cmd
             | _ => cmd +:+ " " +:+ join_spaces args
             end in
  if read_to_prompt then _send_command (exchange g) cmd
  else _send_command_unread g cmd.

(** [Gdb.quit]: the command is sent and [self.p] is dropped. *)
Definition quit (g : session) : outcome unit :=
  _send_command_unread g "quit";;
  Returned tt.

(** [Gdb.send_EOF] with [read_to_prompt=True]. *)
Definition send_EOF (g : session) : outcome string :=
  output ← eof g;
  Returned (PyStr.strip output).

(** What [self.p.stdout.read(1)] gives, one item per call: a character,
    or the UnicodeDecodeError of bytes that do not decode.  When the
    items are used up the pipe is at its end, where [read(1)] gives the
    empty string on every further call. *)
Inductive read1 : Type :=
  | Char (a : ascii)
  | Undecodable.

(** The decodable text of what a pipe holds. *)
Fixpoint text_of (stdout : list read1) : string :=
  match stdout with
  | [] => EmptyString
  | Char a :: rest => String a (text_of rest)
  | Undecodable :: rest => text_of rest
  end.

(** The [while line != self.prompt] loop of [Gdb.read_to_prompt], from
    the values of [data] and [line] at the head of the loop: the result
    is [data] and what is left unread.  At the end of the pipe [line]
    does not change any more, and the loop goes on for ever. *)
Fixpoint read_loop (prompt data line : string) (stdout : list read1)
  : outcome (string * list read1) :=
  if negb (String.eqb line prompt) then
    match stdout with
    | [] => Blocked
    | Undecodable :: rest => read_loop prompt data line rest
    | Char a :: rest =>
        let line := line +:+ String a EmptyString in
        if PyStr.endswith PyStr.newline line
        then read_loop prompt (data +:+ line) EmptyString rest
        else read_loop prompt data line rest
    end
  else Returned (data, stdout).

(** [Gdb.read_to_prompt] *)
Definition read_to_prompt (prompt : string) (stdout : list read1)
  : outcome (string * list read1) :=
  read_loop prompt EmptyString EmptyString stdout.

(** The characters of a text as the pipe delivers them. *)
Fixpoint chars (s : string) : list read1 :=
  match s with
  | EmptyString => []
  | String a r => Char a :: chars r
  end.

(** The text of complete lines: each line followed by a newline. *)
Fixpoint unlines (lines : list string) : string :=
  match lines with
  | [] => EmptyString
  | l :: rest => l +:+ PyStr.newline +:+ unlines rest
  end.

End Gdb.

(** ** The verdicts *)

(** Modelled from the spec: the base class [DD] (delta_debugging/DD.py)
    is not among the sources.  Its class constants [PASS], [FAIL] and
    [UNRESOLVED], which every oracle script returns as [self.PASS],
    [self.FAIL] and [self.UNRESOLVED], are the three verdicts of the
    data model. *)
Inductive verdict : Type := PASS | FAIL | UNRESOLVED.

#[global] Instance verdict_eq_dec : EqDecision verdict.
Proof. solve_decision. Defined.

(** What a Python method can hand back to its caller, as far as the
    oracle scripts are concerned: one of the sentinels, [None] (a method
    that runs off its end), or a boolean (as [target_crashed] does). *)
Inductive value : Type :=
  | Verdict (v : verdict)
  | PyNone
  | PyBool (b : bool).

Definition is_verdict (v : value) : Prop :=
  v = Verdict PASS \/ v = Verdict FAIL \/ v = Verdict UNRESOLVED.

(** ** Operating-system calls shared by the process-based oracles *)

(** A spawned child: what writing to its standard input does, and what
    [p.wait()] (no timeout) gives: the return code, or no return at all
    when the child never exits. *)
Record process : Type := {
  stdin_write : outcome unit;
  stdin_close : outcome unit;
  wait : outcome Z
}.

(** [bytes([byte])]: ValueError unless [0 <= byte < 256]. *)
Definition bytes_of (byte : Z) : outcome Z :=
  if (0 <=? byte) && (byte <? 256) then Returned byte else Raised ValueError.

(** [chr(byte)]: ValueError outside the range of code points. *)
Definition chr (byte : Z) : outcome Z :=
  if (0 <=? byte) && (byte <? 1114112) then Returned byte else Raised ValueError.

(** [for (index, byte) in deltas: f.write(bytes([byte]))] on an open
    file: the bytes written, unless a conversion or a write fails. *)
Fixpoint write_deltas (file_write : outcome unit) (deltas : list (Z * Z))
  : outcome (list Z) :=
  match deltas with
  | [] => Returned []
  | (index, byte) :: rest =>
      b ← bytes_of byte;
      file_write;;
      bs ← write_deltas file_write rest;
      Returned (b :: bs)
  end.

(** ** scripts/dd-algorithm-example.py *)

Module AlgorithmExample.

Definition delta : Type := Z * string.

(** [found.count(x)] *)
Fixpoint count (x : string) (found : list string) : Z :=
  match found with
  | [] => 0
  | y :: rest => (if String.eqb y x then 1 else 0) + count x rest
  end.

(** The body of the loop over [deltas]. *)
Definition collect (found : list string) (d : delta) : list string :=
  let '(index, byte) := d in
  if String.eqb byte "1" || String.eqb byte "7" || String.eqb byte "8"
  then found ++ [byte]
  else found.

(** [TestDD._test] *)
Definition _test (deltas : list delta) : outcome value :=
  let found := foldl collect [] deltas in
  let ret := PASS in
  let ret :=
    if (count "1" found =? 1) && (count "7" found =? 1) && (count "8" found =? 1)
    then FAIL else ret in
  Returned (Verdict ret).

(** [test_input[x]] for [x] in range. *)
Definition item (test_input : string) (x : nat) : string :=
  match String.get x test_input with
  | Some a => String a EmptyString
  | None => EmptyString
  end.

(** The conversion of the input string into the delta format:
    [list(map(lambda x: (x, test_input[x]), range(len(test_input))))]. *)
Definition deltas_of (test_input : string) : list delta :=
  map (fun x => (Z.of_nat x, item test_input x)) (seq 0 (String.length test_input)).

Definition test_input : string := "12345678".

(** The minimal test case as the main program prints it:
    ["".join([x[1] for x in c])]. *)
Definition minimal (c : list delta) : string :=
  String.concat "" (map snd c).

End AlgorithmExample.

(** ** scripts/dd-return-code.py *)

Module ReturnCode.

Definition delta : Type := Z * Z.

(** The fields of [MyDD] the oracle reads. *)
Record self_ : Type := {
  executable : string;
  target_args : list string;
  streaming : bool
}.

(** The operating system as one call of [_test] meets it. *)
Record os : Type := {
  mkstemp : outcome string;
  fd_close : outcome unit;
  file_open : outcome unit;
  file_write : outcome unit;
  popen : list string -> outcome process;
  file_read : outcome unit;
  unlink : outcome unit
}.

(** The command line: the executable, then the target arguments with
    every ["@@"] replaced by the name of the input file. *)
Definition build_args (self : self_) (input_filename : string) : list string :=
  let _args := [executable self] in
  match target_args self with
  | [] => _args
  | targs =>
      _args ++ map (fun x => if negb (String.eqb x "@@") then x else input_filename) targs
  end.

(** [MyDD._test] *)
Definition _test (self : self_) (w : os) (deltas : list delta) : outcome value :=
  input_filename ← mkstemp w;
  fd_close w;;
  let _args := build_args self input_filename in
  file_open w;;
  write_deltas (file_write w) deltas;;
  p ← popen w _args;
  (if streaming self then
     file_read w;;
     stdin_write p;;
     stdin_close p
   else Returned tt);;
  returncode ← wait p;
  unlink w;;
  if returncode =? 0 then Returned (Verdict PASS)
  else Returned (Verdict FAIL).

(** The loading of the deltas in the main program: indices start at 1. *)
Definition load_step {A : Type} (st : list (Z * A) * Z) (character : A)
  : list (Z * A) * Z :=
  let '(deltas, index) := st in
  (deltas ++ [(index, character)], index + 1).

Definition load_deltas {A : Type} (data : list A) : list (Z * A) :=
  fst (foldl load_step ([], 1) data).

End ReturnCode.

(** ** scripts/dd-sqlite2.py *)

Module Sqlite2.

Definition delta : Type := Z * Z.

(** [for (index, byte) in deltas: p.stdin.write(chr(byte)); s += chr(byte)] *)
Fixpoint feed (p : process) (deltas : list delta) : outcome unit :=
  match deltas with
  | [] => Returned tt
  | (index, byte) :: rest =>
      chr byte;;
      stdin_write p;;
      chr byte;;
      feed p rest
  end.

(** [MyDD._test] *)
Definition _test (popen : outcome process) (deltas : list delta) : outcome value :=
  p ← popen;
  feed p deltas;;
  stdin_close p;;
  returncode ← wait p;
  if returncode =? 0 then Returned (Verdict PASS)
  else if returncode =? 1 then Returned (Verdict PASS)
  else Returned (Verdict FAIL).

End Sqlite2.

(** ** scripts/dd-socket-example.py *)

Module SocketExample.

Definition delta : Type := Z * string.

(** The network as one call of [_test] meets it, one field per call
    site: the socket, connect and sendall of [_test], then the socket,
    connect and close of [target_crashed]. *)
Record net : Type := {
  socket_ : outcome unit;
  connect : outcome unit;
  sendall : string -> outcome unit;
  probe_socket : outcome unit;
  probe_connect : outcome unit;
  probe_close : outcome unit
}.

(** [MyDD.coerce], which is also the first loop of [_test]. *)
Definition coerce (deltas : list delta) : list string :=
  foldl (fun data '(index, byte) => data ++ [byte]) [] deltas.

(** [MyDD.target_crashed]: the socket is created outside the [try]. *)
Definition target_crashed (w : net) : outcome bool :=
  probe_socket w;;
  try_except
    (probe_connect w;;
     probe_close w;;
     Returned false)
    (fun e => Returned true).

(** [MyDD._test].  The [try] block either returns a verdict from
    inside ([Some]) or is left through the handler ([None]), after
    which the last line returns UNRESOLVED. *)
Definition try_block (w : net) (data : list string) : outcome (option value) :=
  connect w;;
  match data with
  | [] => Returned tt
  | _ => sendall w (String.concat "" data)
  end;;
  crashed ← target_crashed w;
  if crashed : bool then Returned (Some (Verdict FAIL))
  else Returned (Some (Verdict PASS)).

Definition _test (w : net) (deltas : list delta) : outcome value :=
  let data := coerce deltas in
  socket_ w;;
  inside ← try_except (try_block w data) (fun e => Returned None);
  match inside with
  | Some v => Returned v
  | None => Returned (Verdict UNRESOLVED)
  end.

(** The transport errors that can strike inside the [try] block: at
    connect, at sendall (when there is data to send), or when
    [target_crashed] creates its socket. *)
Inductive transport_error (w : net) (deltas : list delta) (e : exn) : Prop :=
  | connect_error :
      connect w = Raised e -> transport_error w deltas e
  | sendall_error :
      connect w = Returned tt ->
      coerce deltas <> [] ->
      sendall w (String.concat "" (coerce deltas)) = Raised e ->
      transport_error w deltas e
  | probe_error :
      connect w = Returned tt ->
      (coerce deltas = []
       \/ sendall w (String.concat "" (coerce deltas)) = Returned tt) ->
      probe_socket w = Raised e ->
      transport_error w deltas e.

End SocketExample.

(** ** scripts/dd-gdb-example.py *)

Module GdbExample.

Definition delta : Type := Z * string.

Record self_ : Type := {
  executable : string;
  breakpoint : string
}.

(** [GdbDD.stringify] *)
Definition stringify (deltas : list delta) : string :=
  String.concat "" (foldl (fun data '(index, byte) => data ++ [byte]) [] deltas).

(** [GdbDD._test], with the meaning of the global name [Gdb] as a
    parameter: calling it starts gdb on the executable. *)
Definition _test_with (Gdb_ : string -> outcome Gdb.session)
    (self : self_) (deltas : list delta) : outcome value :=
  let data := foldl (fun data '(index, byte) => data ++ [(index, byte)]) [] deltas in
  g ← Gdb_ (executable self);
  '(breakpoint_number, addr) ← Gdb.set_breakpoint (Gdb.exchange g) (breakpoint self);
  Gdb.run g [] false;;
  Gdb.send_input_unread g (stringify data);;
  response ← Gdb.send_EOF g;
  if PyStr.contains "breakpoint" (PyStr.lower response) then
    Returned (Verdict FAIL)
  else if PyStr.contains "exited" (PyStr.lower response) then
    Returned (Verdict PASS)
  else Returned (Verdict UNRESOLVED).

(** The script imports only [DD]: the name [Gdb] is unbound in it. *)
Definition unbound_Gdb : string -> outcome Gdb.session :=
  fun _ => Raised (NameError "Gdb").

(** [GdbDD._test] as the script stands. *)
Definition _test : self_ -> list delta -> outcome value :=
  _test_with unbound_Gdb.

End GdbExample.

(** ** scripts/dd-ccd2cue.py *)

Module Ccd2cue.

Definition delta : Type := Z * Z.

Record self_ : Type := {
  executable : string;
  target_args : list string
}.

(** The operating system as one call of [_test] meets it. *)
Record os : Type := {
  mkstemp : outcome string;
  file_open : outcome unit;
  file_write : outcome unit;
  gdb : string -> outcome Gdb.session;
  thread_start : outcome unit;
  unlink : outcome unit;
  thread_join : outcome unit
}.

(** [GdbDD._test] *)
Definition _test (self : self_) (w : os) (deltas : list delta) : outcome value :=
  input_filename ← mkstemp w;
  file_open w;;
  write_deltas (file_write w) deltas;;
  g ← gdb w (executable self);
  let args := target_args self ++ [input_filename] in
  thread_start w;;
  response ← Gdb.run g args true;
  unlink w;;
  if PyStr.contains "exited normally" response
     || PyStr.contains "exited with code" response then
    Gdb.quit g;;
    thread_join w;;
    Returned (Verdict PASS)
  else if PyStr.contains "SIGABRT" response then
    Gdb.quit g;;
    thread_join w;;
    Returned (Verdict FAIL)
  else
    Gdb.quit g;;
    thread_join w;;
    Returned (Verdict UNRESOLVED).

(** What the watchdog thread sees of gdb.  The thread runs beside the
    main thread, whose [Gdb.quit] sets [gdb.p] to [None]; so every read
    of [gdb.p] is an observation of its own: [true] is the process,
    [false] is [None].  [ends_within_timeout] tells whether gdb ends
    within the five seconds of [gdb.p.wait(timeout=5)], and with which
    return code. *)
Record watched : Type := {
  p_at_test : bool;
  p_at_wait : bool;
  ends_within_timeout : option Z;
  p_at_check : bool;
  p_at_returncode : bool;
  p_at_kill : bool
}.

Inductive watchdog : Type := Killed | LeftAlone.

(** [gdb.p.wait(timeout=5)] on a process: the return code, now also
    stored in its [returncode], or TimeoutExpired. *)
Definition wait_timeout (h : watched) : outcome (option Z) :=
  match ends_within_timeout h with
  | Some rc => Returned (Some rc)
  | None => Raised TimeoutExpired
  end.

(** An attribute of [gdb.p]: AttributeError when [gdb.p] is [None]. *)
Definition attribute {A : Type} (p : bool) (o : outcome A) : outcome A :=
  if p then o else Raised AttributeError.

(** [GdbDD.wait_for_gdb] *)
Definition wait_for_gdb (h : watched) : outcome watchdog :=
  try_except
    (if p_at_test h then
       returncode ← attribute (p_at_wait h) (wait_timeout h);
       if p_at_check h then
         returncode ← attribute (p_at_returncode h) (Returned returncode);
         if bool_decide (returncode = None)
         then attribute (p_at_kill h) (Returned Killed)
         else Returned LeftAlone
       else Returned LeftAlone
     else Returned LeftAlone)
    (fun e => match e with
              | TimeoutExpired => Returned LeftAlone
              | _ => Raised e
              end).

End Ccd2cue.

(** ** scripts/dd-sqlite.py *)

Module Sqlite.

Definition delta : Type := Z * Z.

Record self_ : Type := {
  executable : string;
  target_args : list string
}.

(** The operating system as one call of [_test] meets it.  The two
    register queries of the [try] block are taken as they come out of
    [Gdb._determine_pc] and [Gdb.info_registers]. *)
Record os : Type := {
  mkstemp_input : outcome string;
  mkstemp_db : outcome string;
  file_open : outcome unit;
  file_write : outcome unit;
  thread_start : outcome unit;
  unlink_input : outcome unit;
  unlink_db : outcome unit;
  determine_pc : outcome unit;
  faulting_addr : outcome Z;
  thread_join : outcome unit
}.

(** [GdbDD._test], with the meaning of the global name [Gdb] as a
    parameter (this script, too, imports only [DD]). *)
Definition _test_with (Gdb_ : string -> outcome Gdb.session)
    (self : self_) (w : os) (deltas : list delta) : outcome value :=
  input_filename ← mkstemp_input w;
  db_filename ← mkstemp_db w;
  file_open w;;
  write_deltas (file_write w) deltas;;
  g ← Gdb_ (executable self);
  Gdb._send_command (Gdb.exchange g) "set disassembly-flavor intel";;
  let args := target_args self ++ [db_filename; "<"; input_filename] in
  thread_start w;;
  response ← Gdb.run g args true;
  unlink_input w;;
  unlink_db w;;
  if PyStr.contains "exited normally" response then
    Gdb.quit g;;
    thread_join w;;
    Returned (Verdict PASS)
  else if PyStr.contains "exited with code" response then
    Gdb.quit g;;
    thread_join w;;
    Returned (Verdict PASS)
  else
    try_except
      (determine_pc w;;
       faulting_addr w;;
       Returned tt)
      (fun e => match e with
                | ValueError => Returned tt
                | _ => Raised e
                end);;
    if PyStr.contains "SIGABRT" response then
      Gdb.quit g;;
      thread_join w;;
      Returned (Verdict PASS)
    else if PyStr.contains "SIGSEGV" response && PyStr.contains "a99410" response then
      Gdb.quit g;;
      thread_join w;;
      Returned (Verdict FAIL)
    else
      Gdb.quit g;;
      thread_join w;;
      Returned (Verdict UNRESOLVED).

Definition _test : self_ -> os -> list delta -> outcome value :=
  _test_with (fun _ => Raised (NameError "Gdb")).

End Sqlite.

(** ** The minimisation engine of the base class [DD] *)

Module DD.

(** Modelled from the spec: what a call of an oracle script is worth to
    the engine.  delta_debugging/DD.py is not among the sources; by the
    error handling design a failed invocation, and anything returned
    that is not a verdict, counts as UNRESOLVED. *)
Definition as_verdict (o : outcome value) : verdict :=
  match o with
  | Returned (Verdict v) => v
  | _ => UNRESOLVED
  end.

Definition is_FAIL (v : verdict) : bool :=
  match v with
  | FAIL => true
  | _ => false
  end.

Definition is_PASS (v : verdict) : bool :=
  match v with
  | PASS => true
  | _ => false
  end.

Inductive dd_result (C : Type) : Type :=
  | Minimal (M : C)
  | PreconditionError
  | FuelExhausted.

Arguments Minimal {C} M.
Arguments PreconditionError {C}.
Arguments FuelExhausted {C}.

Section Engine.

(** The payload of a delta is opaque to the engine. *)
Context {P : Type}.

(** Modelled from the spec: the data model of delta_debugging/DD.py
    (not among the sources).  A delta is an index with its payload; a
    configuration is a sequence of deltas. *)
Definition delta : Type := Z * P.
Definition config : Type := list delta.

(** Modelled from the spec: the invariant of a configuration, indices
    in strictly ascending order (hence without duplicates). *)
Definition ascending (c : config) : Prop := StronglySorted Z.lt (c.*1).

(** Modelled from the spec: the identity of a configuration for the
    outcome cache is its set of indices. *)
Definition identity (c : config) : gset Z := list_to_set (c.*1).

(** Modelled from the spec: step 1 of the ddmin algorithm, the
    partition of [c] into [n] contiguous, non-overlapping
    subsequences of near-equal size, in the original order (the
    [split] of DD.py, not among the sources).  Each part takes its
    share of what is left: sizes differ by at most one. *)
Fixpoint split (c : config) (n : nat) : list config :=
  match n with
  | O => []
  | S n' =>
      let k := (length c / n)%nat in
      take k c :: split (drop k c) n'
  end.

(** Modelled from the spec: the complements [c - Δi] of the parts, in
    the order of the parts; each keeps the remaining deltas in their
    original order. *)
Definition complements (cs : list config) : list config :=
  imap (fun i _ => concat (delete i cs)) cs.

(** *** The search over a pure oracle *)

Variable oracle : config -> verdict.

(** The first candidate, from the left, on which the oracle says
    FAIL. *)
Fixpoint first_FAIL (candidates : list config) : option config :=
  match candidates with
  | [] => None
  | d :: rest => if is_FAIL (oracle d) then Some d else first_FAIL rest
  end.

(** Modelled from the spec: the state machine of the ddmin algorithm
    over the configuration [c] and the granularity [n] (the [_dd]
    loop of DD.py, not among the sources), one round per unit of
    fuel.  A granularity above [|c|] leaves nothing to partition and
    ends the search (a universe of one delta is returned without a
    further call); failing subsets are looked for before failing
    complements, both from the left; a failing subset restarts at
    granularity 2, a failing complement continues at [max (n-1) 2];
    otherwise the granularity doubles up to [|c|], and the search
    ends when it cannot grow. *)
Fixpoint search (fuel : nat) (c : config) (n : nat) : option config :=
  match fuel with
  | O => None
  | S fuel' =>
      if (length c <? n)%nat then Some c
      else
        let cs := split c n in
        match first_FAIL cs with
        | Some d => search fuel' d 2
        | None =>
            match first_FAIL (complements cs) with
            | Some cbar => search fuel' cbar (Nat.max (n - 1) 2)
            | None =>
                if (n <? length c)%nat
                then search fuel' c (Nat.min (2 * n) (length c))
                else Some c
            end
        end
  end.

(** Rounds that are enough from a state of the search: a round
    either shrinks the configuration or raises the granularity. *)
Definition rounds_from (c : config) (n : nat) : nat :=
  (length c * length c + (length c - n) + 1)%nat.

(** Rounds that are always enough for a configuration of this size. *)
Definition rounds (c : config) : nat := (length c * length c + length c + 1)%nat.

(** What [ddmin] is to return, in terms of the search alone: the
    contract of the oracle is checked first (FAIL on the universe, PASS
    on the empty configuration), and the universe stands as the
    starting point at granularity 2. *)
Definition ddmin_outcome (universe : config) : dd_result config :=
  if is_FAIL (oracle universe) then
    if is_PASS (oracle []) then
      match search (rounds universe) universe 2 with
      | Some M => Minimal M
      | None => FuelExhausted
      end
    else PreconditionError
  else PreconditionError.

(** *** The engine with its outcome cache *)

(** Modelled from the spec: the state of one minimisation run, the
    outcome cache and, in order, the configurations on which the
    oracle was invoked. *)
Record run : Type := {
  cache : gmap (gset Z) verdict;
  invocations : list config
}.

Definition start : run := {| cache := ∅; invocations := [] |}.

(** The configuration option [cache_outcomes]. *)
Variable cache_outcomes : bool.

(** Modelled from the spec: [lookup] of the outcome cache; it always
    misses when caching is disabled. *)
Definition lookup (st : run) (c : config) : option verdict :=
  if cache_outcomes then cache st !! identity c else None.

(** Modelled from the spec: [record] of the outcome cache; it does
    nothing when caching is disabled. *)
Definition record (c : config) (v : verdict) (st : run) : run :=
  if cache_outcomes
  then {| cache := <[identity c := v]> (cache st); invocations := invocations st |}
  else st.

(** Modelled from the spec: the test of one candidate; a hit avoids
    the oracle, a miss invokes it once and records the verdict. *)
Definition test (c : config) (st : run) : verdict * run :=
  match lookup st c with
  | Some v => (v, st)
  | None =>
      let v := oracle c in
      (v, record c v {| cache := cache st; invocations := invocations st ++ [c] |})
  end.

(** The left-to-right scan of the candidates of a round; it stops at
    the first FAIL. *)
Fixpoint scan (candidates : list config) (st : run) : option config * run :=
  match candidates with
  | [] => (None, st)
  | d :: rest =>
      let '(v, st') := test d st in
      if is_FAIL v then (Some d, st') else scan rest st'
  end.

(** The cache is sound for a universe when every verdict stored
    under the identity of a subsequence of the universe is the
    oracle's verdict on that subsequence. *)
Definition cache_sound (universe : config) (st : run) : Prop :=
  forall c v,
    c `sublist_of` universe -> cache st !! identity c = Some v -> oracle c = v.

(** A run with the cache ([on]) and a run without ([off]) that are
    given the same candidates move in lockstep from one pair of
    states to the next: the cache stays sound, the oracle is invoked
    without the cache on subsequences of the universe only, and
    with the cache on some of these. *)
Definition lockstep (universe : config) (on off on' off' : run) : Prop :=
  cache_sound universe on'
  /\ exists l_on l_off,
      invocations on' = invocations on ++ l_on
      /\ invocations off' = invocations off ++ l_off
      /\ l_on `sublist_of` l_off
      /\ Forall (fun c => c `sublist_of` universe) l_off.

(** Modelled from the spec: the ddmin state machine as the engine
    runs it, every candidate going through the outcome cache. *)
Fixpoint dd (fuel : nat) (c : config) (n : nat) (st : run) : option config * run :=
  match fuel with
  | O => (None, st)
  | S fuel' =>
      if (length c <? n)%nat then (Some c, st)
      else
        let cs := split c n in
        match scan cs st with
        | (Some d, st1) => dd fuel' d 2 st1
        | (None, st1) =>
            match scan (complements cs) st1 with
            | (Some cbar, st2) => dd fuel' cbar (Nat.max (n - 1) 2) st2
            | (None, st2) =>
                if (n <? length c)%nat
                then dd fuel' c (Nat.min (2 * n) (length c)) st2
                else (Some c, st2)
            end
        end
  end.

(** Modelled from the spec: the entry point [ddmin].  The contract of
    the oracle is checked first: the universe must evaluate to FAIL
    and the empty configuration to PASS, else the engine fails fast
    with a precondition error; the search then starts at
    granularity 2. *)
Definition ddmin (universe : config) : dd_result config * run :=
  let '(v, st) := test universe start in
  if is_FAIL v then
    let '(v0, st0) := test [] st in
    if is_PASS v0 then
      match dd (rounds universe) universe 2 st0 with
      | (Some M, st') => (Minimal M, st')
      | (None, st') => (FuelExhausted, st')
      end
    else (PreconditionError, st0)
  else (PreconditionError, st).

End Engine.

End DD.

(** ** The oracle implementations of the repository *)

(** One constructor per [_test] method, with everything the call
    depends on. *)
Inductive oracle_call : Type :=
  | AlgorithmExampleTest (deltas : list AlgorithmExample.delta)
  | ReturnCodeTest (self : ReturnCode.self_) (w : ReturnCode.os)
      (deltas : list ReturnCode.delta)
  | Sqlite2Test (popen : outcome process) (deltas : list Sqlite2.delta)
  | SocketExampleTest (w : SocketExample.net) (deltas : list SocketExample.delta)
  | GdbExampleTest (Gdb_ : string -> outcome Gdb.session) (self : GdbExample.self_)
      (deltas : list GdbExample.delta)
  | Ccd2cueTest (self : Ccd2cue.self_) (w : Ccd2cue.os) (deltas : list Ccd2cue.delta)
  | SqliteTest (Gdb_ : string -> outcome Gdb.session) (self : Sqlite.self_)
      (w : Sqlite.os) (deltas : list Sqlite.delta).

Definition call_test (c : oracle_call) : outcome value :=
  match c with
  | AlgorithmExampleTest deltas => AlgorithmExample._test deltas
  | ReturnCodeTest self w deltas => ReturnCode._test self w deltas
  | Sqlite2Test popen deltas => Sqlite2._test popen deltas
  | SocketExampleTest w deltas => SocketExample._test w deltas
  | GdbExampleTest Gdb_ self deltas => GdbExample._test_with Gdb_ self deltas
  | Ccd2cueTest self w deltas => Ccd2cue._test self w deltas
  | SqliteTest Gdb_ self w deltas => Sqlite._test_with Gdb_ self w deltas
  end.

(** ** The universes the scripts build *)

(** The universe of a minimisation run is built either by the loading
    loop of the main programs (dd-return-code.py and the scripts that
    share its loop), or by the conversion of dd-algorithm-example.py. *)
Inductive ingested : forall {P : Type}, list (Z * P) -> Prop :=
  | ingested_loaded {A : Type} (data : list A) :
      ingested (ReturnCode.load_deltas data)
  | ingested_converted (test_input : string) :
      ingested (AlgorithmExample.deltas_of test_input).

(** The oracle of dd-algorithm-example.py as the engine sees it. *)
Definition algorithm_example_oracle (c : list AlgorithmExample.delta) : verdict :=
  DD.as_verdict (AlgorithmExample._test c).

(** ** Sample environments *)

Definition sample_process (rc : outcome Z) : process :=
  {| stdin_write := Returned tt; stdin_close := Returned tt; wait := rc |}.

Definition sample_os (spawn : outcome process) : ReturnCode.os :=
  {| ReturnCode.mkstemp := Returned "/tmp/crash-x";
     ReturnCode.fd_close := Returned tt;
     ReturnCode.file_open := Returned tt;
     ReturnCode.file_write := Returned tt;
     ReturnCode.popen := fun _ => spawn;
     ReturnCode.file_read := Returned tt;
     ReturnCode.unlink := Returned tt |}.

Definition sample_self : ReturnCode.self_ :=
  {| ReturnCode.executable := "./target";
     ReturnCode.target_args := ["@@"];
     ReturnCode.streaming := false |}.

(** A network on which the first connect is refused. *)
Definition sample_net : SocketExample.net :=
  {| SocketExample.socket_ := Returned tt;
     SocketExample.connect := Raised OSError;
     SocketExample.sendall := fun _ => Returned tt;
     SocketExample.probe_socket := Returned tt;
     SocketExample.probe_connect := Returned tt;
     SocketExample.probe_close := Returned tt |}.

(** A response of gdb in which a tab separates two tokens. *)
Definition tabbed_response : string :=
  "Breakpoint 2 at" +:+ String "009" "0x40 in main".

(** ** delta_debugging/gdb-tracer.py: the target of the trace *)

Module GdbTracerTarget.

(** The loop over the lines of [GdbTracer._determine_entry_point]:
    [None] is the value of a method that runs off its end. *)
Fixpoint entry_point_loop (lines : list string) : outcome (option Z) :=
  match lines with
  | [] => Returned None
  | line :: rest =>
      let line := PyStr.strip line in
      if PyStr.startswith "Entry point: " line then
        match PyStr.int16 (PyStr.slice_from 13 line) with
        | Some z => Returned (Some z)
        | None => Raised ValueError
        end
      else entry_point_loop rest
  end.

(** [GdbTracer._determine_entry_point] *)
Definition _determine_entry_point (io : Gdb.gdb_io) : outcome (option Z) :=
  response ← Gdb._send_command io "info target";
  entry_point_loop (PyStr.splitlines response).

(** The range of an address line:
    [(int(parts[0], 16), int(parts[2], 16))] with the fields cut at every
    single space. *)
Definition range_of_line (line : string) : outcome GdbTracer.range :=
  let parts := PyStr.split " " line in
  p0 ← PyStr.index parts 0;
  start ← match PyStr.int16 p0 with
          | Some z => Returned z
          | None => Raised ValueError
          end;
  p2 ← PyStr.index parts 2;
  end_ ← match PyStr.int16 p2 with
         | Some z => Returned z
         | None => Raised ValueError
         end;
  Returned (start, end_).

(** A line of the executable itself: an address line that is not one
    of a library. *)
Definition of_executable (line : string) : bool :=
  PyStr.startswith "0x" line && negb (PyStr.contains " in " line).

(** The loop over the lines of [GdbTracer._determine_executable_range],
    from the value of [self.target_ranges]. *)
Fixpoint range_loop (target_ranges : list GdbTracer.range) (lines : list string)
  : outcome (list GdbTracer.range) :=
  match lines with
  | [] => Returned target_ranges
  | line :: rest =>
      let line := PyStr.strip line in
      if negb (PyStr.startswith "0x" line) then range_loop target_ranges rest
      else if PyStr.contains " in " line then range_loop target_ranges rest
      else
        r ← range_of_line line;
        range_loop (target_ranges ++ [r]) rest
  end.

(** [GdbTracer._determine_executable_range]: the value it leaves in
    [self.target_ranges]. *)
Definition _determine_executable_range (io : Gdb.gdb_io)
  : outcome (list GdbTracer.range) :=
  response ← Gdb._send_command io "info target";
  target_ranges ← range_loop [] (PyStr.splitlines response);
  Returned (GdbTracer._consolidate_target_ranges target_ranges).

(** [GdbTracer.get_target_info]: the ranges it leaves in
    [self.target_ranges] and the entry point it returns. *)
Definition get_target_info (io : Gdb.gdb_io)
  : outcome (list GdbTracer.range * option Z) :=
  target_ranges ← _determine_executable_range io;
  entry_point ← _determine_entry_point io;
  Returned (target_ranges, entry_point).

(** [GdbTracer._start_program]: the response it returns and the name it
    leaves in [self.program_name].  The method calls [run] on the module
    global [g], which the script binds to the tracer itself before it
    calls [trace]; [None] is the global left unbound. *)
Definition _start_program (g : option Gdb.session) (args : list string)
  : outcome (string * string) :=
  match g with
  | None => Raised (NameError "g")
  | Some g =>
      response ← match args with
                 | [] => Gdb.run g [] true
                 | _ => Gdb.run g args true
                 end;
      let i := PyStr.find "Starting program: " response in
      if i <? 0 then
        Raised (GdbException ("Unable to start program: " +:+ response))
      else
        let i := i + 19 in
        let program_name :=
          PyStr.slice response i (PyStr.find_from PyStr.newline response i) in
        Returned (response, program_name)
  end.

End GdbTracerTarget.

(** What gdb answers to [info target] for a small program. *)
Definition sample_info_target : string :=
  Gdb.unlines
    ["Symbols from /tmp/t."; "Local exec file:";
     "        `/tmp/t', file type elf64-x86-64.";
     "        Entry point: 0x401040";
     "        0x0000000000401000 - 0x0000000000401020 is .init";
     "        0x0000000000401020 - 0x0000000000401185 is .text";
     "        0x00007ffff7fc5238 - 0x00007ffff7fc525c is .note in /lib64/ld.so"].

(** What gdb answers when the program is run up to a breakpoint. *)
Definition sample_start : string :=
  Gdb.unlines
    ["Starting program: /usr/bin/true ";
     "";
     "Breakpoint 1, 0x0000000000401040 in _start ()"].

(** ** delta_debugging/gdb.py: the registers *)

Module GdbRegisters.

(** The loop over the lines of [Gdb.info_registers], from the value of
    [retval]: [retval[parts[0]] = int(parts[1], 16)], the right-hand
    side first. *)
Fixpoint register_loop (retval : gmap string Z) (lines : list string)
  : outcome (gmap string Z) :=
  match lines with
  | [] => Returned retval
  | line :: rest =>
      let parts := PyStr.words line in
      p1 ← PyStr.index parts 1;
      v ← match PyStr.int16 p1 with
          | Some z => Returned z
          | None => Raised ValueError
          end;
      p0 ← PyStr.index parts 0;
      register_loop (<[p0 := v]> retval) rest
  end.

(** [Gdb._info] *)
Definition _info (io : Gdb.gdb_io) (args : list string) : outcome string :=
  Gdb._send_command io ("info " +:+ Gdb.join_spaces args).

(** [Gdb.info_registers]; no registers stands for [None]. *)
Definition info_registers (io : Gdb.gdb_io) (registers : list string)
  : outcome (gmap string Z) :=
  let args := ["registers"] in
  let args := match registers with
              | [] => args
              | _ => args ++ registers
              end in
  response ← _info io args;
  register_loop ∅ (PyStr.splitlines response).

(** [Gdb._determine_pc]: the name it stores in [self.pc], with the
    registers it returns. *)
Definition _determine_pc (io : Gdb.gdb_io) : outcome (string * gmap string Z) :=
  response ← info_registers io [];
  if bool_decide (is_Some (response !! "rip")) then Returned ("rip", response)
  else if bool_decide (is_Some (response !! "eip")) then Returned ("eip", response)
  else if bool_decide (is_Some (response !! "pc")) then Returned ("pc", response)
  else Raised (GdbException "Unable to determine name of program counter register").

End GdbRegisters.

(** What gdb answers to [info registers] on a 64-bit program. *)
Definition sample_registers : string :=
  Gdb.unlines
    ["rax            0x1c                28";
     "rip            0x401136            0x401136 <main+4>";
     "eflags         0x246               [ PF ZF IF ]"].

(** A network on which the service has gone away when the liveness
    probe connects. *)
Definition crashed_net : SocketExample.net :=
  {| SocketExample.socket_ := Returned tt;
     SocketExample.connect := Returned tt;
     SocketExample.sendall := fun _ => Returned tt;
     SocketExample.probe_socket := Returned tt;
     SocketExample.probe_connect := Raised OSError;
     SocketExample.probe_close := Returned tt |}.

(** The operating system of a call of [Sqlite._test] with other answers
    to the two register queries of its [try] block. *)
Definition with_register_queries (w : Sqlite.os)
    (pc : outcome unit) (addr : outcome Z) : Sqlite.os :=
  {| Sqlite.mkstemp_input := Sqlite.mkstemp_input w;
     Sqlite.mkstemp_db := Sqlite.mkstemp_db w;
     Sqlite.file_open := Sqlite.file_open w;
     Sqlite.file_write := Sqlite.file_write w;
     Sqlite.thread_start := Sqlite.thread_start w;
     Sqlite.unlink_input := Sqlite.unlink_input w;
     Sqlite.unlink_db := Sqlite.unlink_db w;
     Sqlite.determine_pc := pc;
     Sqlite.faulting_addr := addr;
     Sqlite.thread_join := Sqlite.thread_join w |}.

(** A gdb that takes every write and answers every command and the end
    of input with the same text. *)
Definition answering_gdb (response : string) : Gdb.session :=
  {| Gdb.write := fun _ => Returned tt;
     Gdb.exchange := fun _ => Returned response;
     Gdb.eof := Returned response |}.

Definition sample_ccd2cue_os (response : string) : Ccd2cue.os :=
  {| Ccd2cue.mkstemp := Returned "/tmp/ccd2cue-crash-x.ccd";
     Ccd2cue.file_open := Returned tt;
     Ccd2cue.file_write := Returned tt;
     Ccd2cue.gdb := fun _ => Returned (answering_gdb response);
     Ccd2cue.thread_start := Returned tt;
     Ccd2cue.unlink := Returned tt;
     Ccd2cue.thread_join := Returned tt |}.

Definition sample_ccd2cue_self : Ccd2cue.self_ :=
  {| Ccd2cue.executable := "ccd2cue"; Ccd2cue.target_args := [] |}.

Definition sample_sqlite_os (pc : outcome unit) : Sqlite.os :=
  {| Sqlite.mkstemp_input := Returned "/tmp/sqlite3-crash-x.sql";
     Sqlite.mkstemp_db := Returned "/tmp/sqlite3-x.db";
     Sqlite.file_open := Returned tt;
     Sqlite.file_write := Returned tt;
     Sqlite.thread_start := Returned tt;
     Sqlite.unlink_input := Returned tt;
     Sqlite.unlink_db := Returned tt;
     Sqlite.determine_pc := pc;
     Sqlite.faulting_addr := Returned 0;
     Sqlite.thread_join := Returned tt |}.

Definition sample_sqlite_self : Sqlite.self_ :=
  {| Sqlite.executable := "sqlite3"; Sqlite.target_args := [] |}.

Definition sample_gdb_example_self : GdbExample.self_ :=
  {| GdbExample.executable := "./target"; GdbExample.breakpoint := "main" |}.

(** What gdb prints when it starts, up to and beyond its first prompt. *)
Definition sample_banner : list string := ["Reading symbols from ./target..."].

Definition sample_stdout : list Gdb.read1 :=
  Gdb.chars (Gdb.unlines sample_banner +:+ "(gdb) ") ++ Gdb.chars "r".

(** A watchdog thread that sees the process at its first test and finds
    [gdb.p] dropped by [Gdb.quit] when it comes to wait. *)
Definition quit_before_wait : Ccd2cue.watched :=
  {| Ccd2cue.p_at_test := true;
     Ccd2cue.p_at_wait := false;
     Ccd2cue.ends_within_timeout := Some 0;
     Ccd2cue.p_at_check := false;
     Ccd2cue.p_at_returncode := false;
     Ccd2cue.p_at_kill := false |}.

(** * Properties *)

(** ** The ranges of the tracer *)

Section TracerRanges.

Import GdbTracer.

Lemma kansas_app (l1 l2 : list range) (pc : Z) :
  _we_are_not_in_kansas_anymore (l1 ++ l2) pc
  = _we_are_not_in_kansas_anymore l1 pc && _we_are_not_in_kansas_anymore l2 pc.
Proof.
  induction l1 as [|[s e] l1 IH]; simpl; [reflexivity|].
  destruct ((s <=? pc) && (pc <=? e)); simpl; auto.
Qed.

Lemma kansas_merge (ps pe e pc : Z) :
  ps < pe -> pe < e ->
  _we_are_not_in_kansas_anymore [(ps, e)] pc
  = _we_are_not_in_kansas_anymore [(ps, pe)] pc
    && _we_are_not_in_kansas_anymore [(pe, e)] pc.
Proof.
  intros H1 H2. simpl.
  destruct (ps <=? pc) eqn:A, (pc <=? e) eqn:B, (pc <=? pe) eqn:C,
    (pe <=? pc) eqn:D; simpl; try reflexivity; lia.
Qed.

(** Once the pending range [(previous_start, previous_end)] is a
    proper one, the loop keeps every address of the ranges it reads. *)
Lemma consolidate_loop (ranges : list range) :
  forall copy ps pe,
    ps < pe ->
    Forall (fun r => fst r < snd r) ranges ->
    exists copy' ps' pe',
      foldl consolidate_step (copy, ps, pe) ranges = (copy', ps', pe')
      /\ ps' < pe'
      /\ forall pc,
          _we_are_not_in_kansas_anymore (copy' ++ [(ps', pe')]) pc
          = _we_are_not_in_kansas_anymore (copy ++ [(ps, pe)]) pc
            && _we_are_not_in_kansas_anymore ranges pc.
Proof.
  induction ranges as [|[s e] ranges IH]; intros copy ps pe Hlt Hall.
  - exists copy, ps, pe. split; [reflexivity|]. split; [assumption|].
    intros pc. simpl. now rewrite andb_true_r.
  - apply Forall_cons in Hall as [Hse Hall]. simpl in Hse.
    cbn [foldl]. unfold consolidate_step at 2.
    destruct (s =? pe) eqn:Hs; cbn [negb].
    + apply Z.eqb_eq in Hs. subst s.
      destruct (IH copy ps e ltac:(lia) Hall) as (c' & ps' & pe' & Hf & Hlt' & Hk).
      exists c', ps', pe'. split; [assumption|]. split; [assumption|].
      intros pc. rewrite Hk, !kansas_app, (kansas_merge ps pe e pc) by lia.
      change ((pe, e) :: ranges) with ([(pe, e)] ++ ranges).
      rewrite kansas_app. now rewrite !andb_assoc.
    + assert ((ps =? pe) = false) as -> by lia. cbn [negb].
      destruct (IH (copy ++ [(ps, pe)]) s e Hse Hall)
        as (c' & ps' & pe' & Hf & Hlt' & Hk).
      exists c', ps', pe'. split; [assumption|]. split; [assumption|].
      intros pc. rewrite Hk, !kansas_app.
      change ((s, e) :: ranges) with ([(s, e)] ++ ranges).
      rewrite kansas_app. now rewrite !andb_assoc.
Qed.

(** With a proper pending range, the loop merges exactly the ranges
    that continue the one before them. *)
Lemma consolidate_loop_merges (ranges : list range) :
  forall copy ps pe,
    ps < pe ->
    Forall (fun r => fst r < snd r) ranges ->
    exists copy' ps' pe',
      foldl consolidate_step (copy, ps, pe) ranges = (copy', ps', pe')
      /\ copy' ++ [(ps', pe')] = copy ++ merge_from ps pe ranges.
Proof.
  induction ranges as [|[s e] ranges IH]; intros copy ps pe Hlt Hall.
  - exists copy, ps, pe. split; reflexivity.
  - apply Forall_cons in Hall as [Hse Hall]. simpl in Hse.
    cbn [foldl merge_from]. unfold consolidate_step at 2.
    destruct (s =? pe) eqn:Hs; cbn [negb].
    + apply Z.eqb_eq in Hs. subst s.
      apply (IH copy ps e); [lia | assumption].
    + assert ((ps =? pe) = false) as -> by lia. cbn [negb].
      destruct (IH (copy ++ [(ps, pe)]) s e Hse Hall)
        as (c' & ps' & pe' & Hf & Hm).
      exists c', ps', pe'. split; [assumption|].
      rewrite Hm, <- app_assoc. reflexivity.
Qed.

Lemma consolidate_first_step (s e : Z) :
  consolidate_step ([], 0, 0) (s, e) = ([], s, e).
Proof.
  unfold consolidate_step. destruct (s =? 0) eqn:Hs; simpl.
  - apply Z.eqb_eq in Hs. now subst.
  - reflexivity.
Qed.

End TracerRanges.

(** C9 (as amended).  For every list of address ranges whose entries all
    have [start < end]: [_consolidate_target_ranges] merges a range into
    the one before it exactly when its start equals the end of that one
    (on a non-empty list), and for every program counter the
    classification by [_we_are_not_in_kansas_anymore] is the same after
    the consolidation as before, except that the empty list becomes the
    single range (0, 0), so that address 0 alone changes from outside to
    inside. *)
Theorem consolidate_keeps_classification (ranges : list GdbTracer.range) (pc : Z) :
  Forall (fun r => fst r < snd r) ranges ->
  (ranges <> [] ->
   GdbTracer._consolidate_target_ranges ranges = GdbTracer.merge_contiguous ranges)
  /\ GdbTracer._consolidate_target_ranges [] = [(0, 0)]
  /\ GdbTracer._we_are_not_in_kansas_anymore
       (GdbTracer._consolidate_target_ranges ranges) pc
     = GdbTracer._we_are_not_in_kansas_anymore ranges pc
       && negb (bool_decide (ranges = []) && (pc =? 0)).
Proof.
  intros Hall. destruct ranges as [|[s e] ranges].
  - split; [congruence|]. split; [reflexivity|].
    simpl. unfold GdbTracer._consolidate_target_ranges. simpl.
    destruct (0 <=? pc) eqn:A, (pc <=? 0) eqn:B, (pc =? 0) eqn:C;
      simpl; try reflexivity; lia.
  - apply Forall_cons in Hall as [Hse Hall]. simpl in Hse.
    split; [|split; [reflexivity|]].
    + intros _. unfold GdbTracer._consolidate_target_ranges. cbn [foldl].
      rewrite consolidate_first_step.
      destruct (consolidate_loop_merges ranges [] s e Hse Hall)
        as (c' & ps' & pe' & Hf & Hm).
      rewrite Hf, Hm. reflexivity.
    + rewrite bool_decide_eq_false_2 by discriminate.
      simpl andb at 2. rewrite andb_true_r.
      unfold GdbTracer._consolidate_target_ranges. cbn [foldl].
      rewrite consolidate_first_step.
      destruct (consolidate_loop ranges [] s e Hse Hall)
        as (c' & ps' & pe' & Hf & _ & Hk).
      rewrite Hf, Hk. simpl.
      destruct ((s <=? pc) && (pc <=? e)); reflexivity.
Qed.

Lemma consolidate_keeps_classification_witness :
  GdbTracer._consolidate_target_ranges [(1, 5); (5, 9); (20, 30)]
  = [(1, 9); (20, 30)]
  /\ GdbTracer._we_are_not_in_kansas_anymore
       (GdbTracer._consolidate_target_ranges [(1, 5); (5, 9); (20, 30)]) 7
     = false.
Proof.
  destruct (consolidate_keeps_classification [(1, 5); (5, 9); (20, 30)] 7)
    as (Hm & _ & Hk).
  - repeat constructor.
  - split.
    + rewrite Hm by discriminate. reflexivity.
    + rewrite Hk. reflexivity.
Defined.

(** C9 (as stated) fails: a range with [start = end] that is followed by
    a range which does not continue it is dropped, and its address, which
    was inside, is classified as outside afterwards. *)
Lemma consolidate_drops_single_address_range :
  GdbTracer._we_are_not_in_kansas_anymore [(5, 5); (10, 20)] 5 = false
  /\ GdbTracer._consolidate_target_ranges [(5, 5); (10, 20)] = [(10, 20)]
  /\ GdbTracer._we_are_not_in_kansas_anymore
       (GdbTracer._consolidate_target_ranges [(5, 5); (10, 20)]) 5 = true.
Proof. repeat split. Qed.

(** ** Setting a breakpoint *)

Section Breakpoints.

Import Gdb.

Lemma parse_breakpoint_GdbException (response : string) :
  (exists msg, parse_breakpoint response = Raised (GdbException msg))
  <-> PyStr.startswith "Breakpoint " response = false.
Proof.
  unfold parse_breakpoint.
  destruct (PyStr.startswith "Breakpoint " response); simpl.
  - split; [|discriminate]. intros [msg H]. exfalso.
    unfold PyStr.index in H.
    destruct (PyStr.split " " (PyStr.strip response) !! 1%nat); simpl in H;
      [|discriminate].
    destruct (PyStr.int s); simpl in H; [|discriminate].
    destruct (PyStr.split " " (PyStr.strip response) !! 3%nat); simpl in H;
      discriminate.
  - split; eauto.
Qed.

Lemma parse_breakpoint_Returned (response : string) (n : Z) (addr : string) :
  PyStr.startswith "Breakpoint " response = true ->
  parse_breakpoint response = Returned (n, addr)
  <-> (exists p1, PyStr.split " " (PyStr.strip response) !! 1%nat = Some p1
                  /\ PyStr.int p1 = Some n)
      /\ PyStr.split " " (PyStr.strip response) !! 3%nat = Some addr.
Proof.
  intros Hs. unfold parse_breakpoint, PyStr.index. rewrite Hs. simpl.
  destruct (PyStr.split " " (PyStr.strip response) !! 1%nat) as [p1|]; simpl.
  - destruct (PyStr.int p1) as [z|] eqn:Hint; simpl.
    + destruct (PyStr.split " " (PyStr.strip response) !! 3%nat) as [a|]; simpl.
      * split.
        -- intros [= <- <-]. split; eauto.
        -- intros [(p & [= <-] & Hp) [= <-]]. congruence.
      * split; [discriminate|]. intros [_ H]. discriminate.
    + split; [discriminate|]. intros [(p & [= <-] & H) _]. congruence.
  - split; [discriminate|]. intros [(p & H & _) _]. discriminate.
Qed.

Lemma parse_breakpoint_ValueError (response : string) :
  PyStr.startswith "Breakpoint " response = true ->
  parse_breakpoint response = Raised ValueError
  <-> exists p1, PyStr.split " " (PyStr.strip response) !! 1%nat = Some p1
                 /\ PyStr.int p1 = None.
Proof.
  intros Hs. unfold parse_breakpoint, PyStr.index. rewrite Hs. simpl.
  destruct (PyStr.split " " (PyStr.strip response) !! 1%nat) as [p1|]; simpl.
  - destruct (PyStr.int p1) as [z|] eqn:Hint; simpl.
    + destruct (PyStr.split " " (PyStr.strip response) !! 3%nat) as [a|]; simpl;
        (split; [discriminate|]); intros (p & [= <-] & H); congruence.
    + split; eauto.
  - split; [discriminate|]. intros (p & H & _). discriminate.
Qed.

Lemma parse_breakpoint_IndexError (response : string) :
  PyStr.startswith "Breakpoint " response = true ->
  parse_breakpoint response = Raised IndexError
  <-> PyStr.split " " (PyStr.strip response) !! 1%nat = None
      \/ ((exists p1 n, PyStr.split " " (PyStr.strip response) !! 1%nat = Some p1
                        /\ PyStr.int p1 = Some n)
          /\ PyStr.split " " (PyStr.strip response) !! 3%nat = None).
Proof.
  intros Hs. unfold parse_breakpoint, PyStr.index. rewrite Hs. simpl.
  destruct (PyStr.split " " (PyStr.strip response) !! 1%nat) as [p1|]; simpl.
  - destruct (PyStr.int p1) as [z|] eqn:Hint; simpl.
    + destruct (PyStr.split " " (PyStr.strip response) !! 3%nat) as [a|]; simpl.
      * split; [discriminate|]. intros [H | [_ H]]; discriminate.
      * split; [|reflexivity]. intros _. right. split; eauto.
    + split; [discriminate|].
      intros [H | [(p & n & [= <-] & H) _]]; [discriminate | congruence].
  - split; auto.
Qed.

Lemma parse_breakpoint_cases (response : string) :
  PyStr.startswith "Breakpoint " response = true ->
  (exists n addr, parse_breakpoint response = Returned (n, addr))
  \/ parse_breakpoint response = Raised IndexError
  \/ parse_breakpoint response = Raised ValueError.
Proof.
  intros Hs. unfold parse_breakpoint, PyStr.index. rewrite Hs. simpl.
  destruct (PyStr.split " " (PyStr.strip response) !! 1%nat) as [p1|]; simpl;
    [|auto].
  destruct (PyStr.int p1) as [z|]; simpl; [|auto].
  destruct (PyStr.split " " (PyStr.strip response) !! 3%nat) as [a|]; simpl;
    eauto.
Qed.

End Breakpoints.

(** C10 (as amended).  When gdb answers the command with [response],
    [Gdb.set_breakpoint] raises GdbException exactly when the response
    does not start with "Breakpoint "; when it does, the call returns
    [(n, addr)] exactly when the stripped response, cut at every single
    space, has a second field that [int] reads as [n] and a fourth field
    [addr]; otherwise it raises ValueError (the second field is there
    and [int] cannot read it) or IndexError (the second field is not
    there, or it is read and the fourth is not there), and nothing
    else happens. *)
Theorem set_breakpoint_outcome (io : Gdb.gdb_io) (symbol response : string) :
  Gdb._send_command io ("b " +:+ symbol) = Returned response ->
  ((exists msg, Gdb.set_breakpoint io symbol = Raised (GdbException msg))
   <-> PyStr.startswith "Breakpoint " response = false)
  /\ (PyStr.startswith "Breakpoint " response = true ->
      forall n addr,
        Gdb.set_breakpoint io symbol = Returned (n, addr)
        <-> (exists p1, PyStr.split " " (PyStr.strip response) !! 1%nat = Some p1
                        /\ PyStr.int p1 = Some n)
            /\ PyStr.split " " (PyStr.strip response) !! 3%nat = Some addr)
  /\ (PyStr.startswith "Breakpoint " response = true ->
      (Gdb.set_breakpoint io symbol = Raised ValueError
       <-> exists p1, PyStr.split " " (PyStr.strip response) !! 1%nat = Some p1
                      /\ PyStr.int p1 = None)
      /\ (Gdb.set_breakpoint io symbol = Raised IndexError
          <-> PyStr.split " " (PyStr.strip response) !! 1%nat = None
              \/ ((exists p1 n,
                      PyStr.split " " (PyStr.strip response) !! 1%nat = Some p1
                      /\ PyStr.int p1 = Some n)
                  /\ PyStr.split " " (PyStr.strip response) !! 3%nat = None))
      /\ ((exists n addr, Gdb.set_breakpoint io symbol = Returned (n, addr))
          \/ Gdb.set_breakpoint io symbol = Raised IndexError
          \/ Gdb.set_breakpoint io symbol = Raised ValueError)).
Proof.
  intros Hresp. unfold Gdb.set_breakpoint. rewrite Hresp. simpl.
  split; [apply parse_breakpoint_GdbException|]. split.
  - intros Hs n addr. now apply parse_breakpoint_Returned.
  - intros Hs. split; [now apply parse_breakpoint_ValueError|].
    split; [now apply parse_breakpoint_IndexError|].
    now apply parse_breakpoint_cases.
Qed.

Lemma set_breakpoint_outcome_witness :
  Gdb.set_breakpoint
    (fun _ => Returned "Breakpoint 1 at 0x401136: file t.c, line 5.") "main"
  = Returned (1, "0x401136:").
Proof.
  pose proof (set_breakpoint_outcome
    (fun _ => Returned "Breakpoint 1 at 0x401136: file t.c, line 5.") "main"
    "Breakpoint 1 at 0x401136: file t.c, line 5." eq_refl) as (_ & H & _).
  apply (H eq_refl 1 "0x401136:"). split.
  - exists "1". split; reflexivity.
  - reflexivity.
Defined.

(** C10 (as stated) fails: a response that starts with "Breakpoint " but
    has fewer than four fields makes [set_breakpoint] raise IndexError
    instead of returning a pair; and where a tab separates two tokens,
    the address returned is not the fourth token of the response. *)
Lemma set_breakpoint_short_response :
  (Gdb._send_command (fun _ => Returned "Breakpoint 1") "b main"
     = Returned "Breakpoint 1"
   /\ PyStr.startswith "Breakpoint " "Breakpoint 1" = true
   /\ Gdb.set_breakpoint (fun _ => Returned "Breakpoint 1") "main"
      = Raised IndexError)
  /\ (PyStr.words tabbed_response
      = ["Breakpoint"; "2"; "at"; "0x40"; "in"; "main"]
     /\ Gdb.set_breakpoint (fun _ => Returned tabbed_response) "main"
        = Returned (2, "in")).
Proof. repeat split. Qed.

(** ** The oracles *)

(** Case analysis along the calls and tests of an oracle, down to its
    [return] statements. *)
Ltac oracle_paths H :=
  repeat match type of H with
    | context [mbind _ ?o] => destruct o eqn:?; simpl in H; try discriminate H
    | context [try_except ?b _] => destruct b eqn:?; simpl in H; try discriminate H
    | context [match ?e with TimeoutExpired => _ | _ => _ end] =>
        destruct e; simpl in H; try discriminate H
    | context [if ?b then _ else _] => destruct b eqn:?; simpl in H; try discriminate H
    | context [match ?x with Some _ => _ | None => _ end] =>
        destruct x eqn:?; simpl in H; try discriminate H
    | context [let '(_, _) := ?p in _] => destruct p; simpl in H
    end;
  try discriminate H.

Lemma is_verdict_Verdict (v : verdict) : is_verdict (Verdict v).
Proof. unfold is_verdict. destruct v; auto. Qed.

#[local] Hint Resolve is_verdict_Verdict : core.

(** C3.  Whatever an oracle meets, each [_test] method of the
    repository that returns, returns PASS, FAIL or UNRESOLVED. *)
Theorem oracles_return_verdicts (c : oracle_call) (v : value) :
  call_test c = Returned v -> is_verdict v.
Proof.
  intros H. destruct c; simpl in H.
  - unfold AlgorithmExample._test in H. injection H as <-. auto.
  - unfold ReturnCode._test in H. oracle_paths H; injection H as <-; auto.
  - unfold Sqlite2._test in H. oracle_paths H; injection H as <-; auto.
  - unfold SocketExample._test in H. oracle_paths H; try (injection H as <-; auto).
    match goal with
    | E : try_except _ _ = Returned (Some _) |- _ =>
        unfold try_except, SocketExample.try_block in E;
        oracle_paths E; injection E as <-; auto
    end.
  - unfold GdbExample._test_with in H. oracle_paths H; injection H as <-; auto.
  - unfold Ccd2cue._test in H. oracle_paths H; injection H as <-; auto.
  - unfold Sqlite._test_with in H. oracle_paths H; injection H as <-; auto.
Qed.

Lemma oracles_return_verdicts_witness :
  is_verdict (Verdict UNRESOLVED).
Proof.
  apply (oracles_return_verdicts
           (SocketExampleTest sample_net [(1, "a")])).
  reflexivity.
Defined.

(** As the script stands, [GdbDD._test] of dd-gdb-example.py stops at the
    unbound name [Gdb] on every call. *)
Lemma gdb_example_unbound_name (self : GdbExample.self_)
    (deltas : list GdbExample.delta) :
  GdbExample._test self deltas = Raised (NameError "Gdb").
Proof. reflexivity. Qed.

(** *** dd-return-code.py *)

(** C8.  [MyDD._test] of dd-return-code.py maps the return code [r] of
    the spawned target to the verdict: when the calls around the target
    succeed and the target exits with [r], the call returns PASS if
    [r = 0] and FAIL otherwise; and whenever the call returns, the target
    was spawned and waited for, and its return code [r] decided the
    verdict: PASS exactly when [r = 0], FAIL for every other [r], never
    UNRESOLVED. *)
Theorem return_code_verdict (self : ReturnCode.self_) (w : ReturnCode.os)
    (deltas : list ReturnCode.delta) :
  (forall (input_filename : string) (bs : list Z) (p : process) (r : Z),
      ReturnCode.mkstemp w = Returned input_filename ->
      ReturnCode.fd_close w = Returned tt ->
      ReturnCode.file_open w = Returned tt ->
      write_deltas (ReturnCode.file_write w) deltas = Returned bs ->
      ReturnCode.popen w (ReturnCode.build_args self input_filename) = Returned p ->
      (ReturnCode.streaming self = true ->
       ReturnCode.file_read w = Returned tt
       /\ stdin_write p = Returned tt /\ stdin_close p = Returned tt) ->
      wait p = Returned r ->
      ReturnCode.unlink w = Returned tt ->
      ReturnCode._test self w deltas
      = Returned (Verdict (if r =? 0 then PASS else FAIL)))
  /\ (forall v : value,
        ReturnCode._test self w deltas = Returned v ->
        exists input_filename p r,
          ReturnCode.mkstemp w = Returned input_filename
          /\ ReturnCode.popen w (ReturnCode.build_args self input_filename)
             = Returned p
          /\ wait p = Returned r
          /\ (v = Verdict PASS <-> r = 0)
          /\ (r <> 0 -> v = Verdict FAIL)
          /\ v <> Verdict UNRESOLVED).
Proof.
  split.
  - intros fn bs p r Hm Hcl Ho Hw Hp Hstream Hwait Hu. unfold ReturnCode._test.
    rewrite Hm. simpl. rewrite Hcl. simpl. rewrite Ho. simpl. rewrite Hw. simpl. rewrite Hp. simpl.
    assert ((if ReturnCode.streaming self
             then ReturnCode.file_read w;; stdin_write p;; stdin_close p
             else Returned tt) = Returned tt) as ->.
    { destruct (ReturnCode.streaming self); [|reflexivity].
      destruct (Hstream eq_refl) as (-> & -> & ->). reflexivity. }
    simpl. rewrite Hwait. simpl. rewrite Hu. simpl.
    destruct (r =? 0); reflexivity.
  - intros v H. unfold ReturnCode._test in H.
    destruct (ReturnCode.mkstemp w) as [fn| |] eqn:Hfn; simpl in H;
      try discriminate.
    destruct (ReturnCode.fd_close w); simpl in H; try discriminate.
    destruct (ReturnCode.file_open w); simpl in H; try discriminate.
    destruct (write_deltas _ deltas); simpl in H; try discriminate.
    destruct (ReturnCode.popen w _) as [p| |] eqn:Hp; simpl in H;
      try discriminate.
    match type of H with
    | context [mbind _ ?o] => destruct o; simpl in H; try discriminate
    end.
    destruct (wait p) as [r| |] eqn:Hr; simpl in H; try discriminate.
    destruct (ReturnCode.unlink w); simpl in H; try discriminate.
    exists fn, p, r. repeat split; try assumption.
    + intros ->. destruct (r =? 0) eqn:E; [lia | discriminate].
    + intros ->. rewrite Z.eqb_refl in H. congruence.
    + intros Hne. destruct (r =? 0) eqn:E; [lia | congruence].
    + destruct (r =? 0); congruence.
Qed.

Lemma return_code_verdict_witness :
  ReturnCode._test sample_self
    (sample_os (Returned (sample_process (Returned 139)))) [(1, 65)]
  = Returned (Verdict FAIL).
Proof.
  apply (proj1 (return_code_verdict sample_self
                  (sample_os (Returned (sample_process (Returned 139))))
                  [(1, 65)])
           "/tmp/crash-x" [65] (sample_process (Returned 139)) 139);
    try reflexivity.
  discriminate.
Defined.

(** *** Failures at the operating-system boundary *)

Lemma socket_try_block_raises (w : SocketExample.net)
    (deltas : list SocketExample.delta) (e : exn) :
  SocketExample.transport_error w deltas e ->
  SocketExample.try_block w (SocketExample.coerce deltas) = Raised e.
Proof.
  intros [Hc | Hc Hd Hs | Hc Hd Hp]; unfold SocketExample.try_block.
  - rewrite Hc. reflexivity.
  - rewrite Hc. simpl. destruct (SocketExample.coerce deltas); [congruence|].
    rewrite Hs. reflexivity.
  - rewrite Hc. simpl.
    assert (match SocketExample.coerce deltas with
            | [] => Returned tt
            | _ :: _ =>
                SocketExample.sendall w
                  (String.concat "" (SocketExample.coerce deltas))
            end = Returned tt) as ->.
    { destruct Hd as [-> | Hd]; [reflexivity|].
      destruct (SocketExample.coerce deltas); [reflexivity | exact Hd]. }
    simpl. unfold SocketExample.target_crashed. rewrite Hp. reflexivity.
Qed.

(** C4 (as amended).  In dd-socket-example.py, an exception raised by
    connect, by sendall or by the socket creation of the liveness probe,
    inside the [try] block of [MyDD._test], makes the call return
    UNRESOLVED.  In dd-return-code.py [MyDD._test] has no handler: an
    exception raised when the target is spawned leaves [_test] as that
    exception. *)
Theorem oracle_failure_handling (e : exn) :
  (forall (w : SocketExample.net) (deltas : list SocketExample.delta),
      SocketExample.socket_ w = Returned tt ->
      SocketExample.transport_error w deltas e ->
      SocketExample._test w deltas = Returned (Verdict UNRESOLVED))
  /\ (forall (self : ReturnCode.self_) (w : ReturnCode.os)
        (deltas : list ReturnCode.delta) (input_filename : string) (bs : list Z),
      ReturnCode.mkstemp w = Returned input_filename ->
      ReturnCode.fd_close w = Returned tt ->
      ReturnCode.file_open w = Returned tt ->
      write_deltas (ReturnCode.file_write w) deltas = Returned bs ->
      ReturnCode.popen w (ReturnCode.build_args self input_filename) = Raised e ->
      ReturnCode._test self w deltas = Raised e).
Proof.
  split.
  - intros w deltas Hs He. unfold SocketExample._test.
    rewrite Hs. simpl. rewrite (socket_try_block_raises w deltas e He).
    reflexivity.
  - intros self w deltas fn bs Hm Hcl Ho Hw Hp. unfold ReturnCode._test.
    rewrite Hm. simpl. rewrite Hcl. simpl. rewrite Ho. simpl. rewrite Hw. simpl. rewrite Hp.
    reflexivity.
Qed.

Lemma oracle_failure_handling_witness :
  SocketExample._test sample_net [(1, "a")] = Returned (Verdict UNRESOLVED)
  /\ ReturnCode._test sample_self (sample_os (Raised OSError)) [(1, 65)]
     = Raised OSError.
Proof.
  split.
  - apply (proj1 (oracle_failure_handling OSError) sample_net [(1, "a")]).
    + reflexivity.
    + apply SocketExample.connect_error. reflexivity.
  - apply (proj2 (oracle_failure_handling OSError) sample_self
             (sample_os (Raised OSError)) [(1, 65)] "/tmp/crash-x" [65]);
      reflexivity.
Defined.

(** C4 (as stated) fails: when the target of dd-return-code.py cannot be
    spawned, [_test] does not return UNRESOLVED; the exception leaves
    it. *)
Lemma return_code_spawn_failure_escapes :
  ReturnCode.popen (sample_os (Raised OSError))
    (ReturnCode.build_args sample_self "/tmp/crash-x") = Raised OSError
  /\ ReturnCode._test sample_self (sample_os (Raised OSError)) [(1, 65)]
     = Raised OSError
  /\ ReturnCode._test sample_self (sample_os (Raised OSError)) [(1, 65)]
     <> Returned (Verdict UNRESOLVED).
Proof. repeat split. discriminate. Qed.

(** *** Waiting for the target *)

(** The watchdog of dd-ccd2cue.py never reaches its [kill]: a wait that
    times out raises, and a wait that returns has set the return code. *)
Lemma watchdog_never_kills (h : Ccd2cue.watched) :
  Ccd2cue.wait_for_gdb h <> Returned Ccd2cue.Killed.
Proof.
  unfold Ccd2cue.wait_for_gdb, Ccd2cue.wait_timeout, Ccd2cue.attribute.
  destruct (Ccd2cue.p_at_test h); simpl; [|discriminate].
  destruct (Ccd2cue.p_at_wait h); simpl; [|discriminate].
  destruct (Ccd2cue.ends_within_timeout h) as [rc|]; simpl; [|discriminate].
  destruct (Ccd2cue.p_at_check h); simpl; [|discriminate].
  destruct (Ccd2cue.p_at_returncode h); simpl; discriminate.
Qed.

(** C5 (as amended).  [MyDD._test] of dd-return-code.py waits for the
    target with [p.wait()] and no timeout: if the spawned target never
    exits, the call never returns; and a call that returns never gives
    UNRESOLVED. *)
Theorem return_code_waits_without_timeout (self : ReturnCode.self_)
    (w : ReturnCode.os) (deltas : list ReturnCode.delta) :
  (forall (input_filename : string) (bs : list Z) (p : process),
      ReturnCode.mkstemp w = Returned input_filename ->
      ReturnCode.fd_close w = Returned tt ->
      ReturnCode.file_open w = Returned tt ->
      write_deltas (ReturnCode.file_write w) deltas = Returned bs ->
      ReturnCode.popen w (ReturnCode.build_args self input_filename) = Returned p ->
      (ReturnCode.streaming self = true ->
       ReturnCode.file_read w = Returned tt
       /\ stdin_write p = Returned tt /\ stdin_close p = Returned tt) ->
      wait p = Blocked ->
      ReturnCode._test self w deltas = Blocked)
  /\ (forall v, ReturnCode._test self w deltas = Returned v ->
                v <> Verdict UNRESOLVED).
Proof.
  split.
  - intros fn bs p Hm Hcl Ho Hw Hp Hstream Hwait. unfold ReturnCode._test.
    rewrite Hm. simpl. rewrite Hcl. simpl. rewrite Ho. simpl. rewrite Hw. simpl. rewrite Hp. simpl.
    destruct (ReturnCode.streaming self).
    + destruct (Hstream eq_refl) as (-> & -> & ->). simpl. rewrite Hwait.
      reflexivity.
    + simpl. rewrite Hwait. reflexivity.
  - intros v H. unfold ReturnCode._test in H. oracle_paths H;
      injection H as <-; discriminate.
Qed.

Lemma return_code_waits_without_timeout_witness :
  ReturnCode._test sample_self
    (sample_os (Returned (sample_process Blocked))) [(1, 65)] = Blocked.
Proof.
  apply (proj1 (return_code_waits_without_timeout sample_self
                  (sample_os (Returned (sample_process Blocked))) [(1, 65)])
           "/tmp/crash-x" [65] (sample_process Blocked));
    try reflexivity.
  discriminate.
Defined.

(** C5 (as stated) fails: when the target of dd-return-code.py hangs, the
    call of [_test] is not ended with UNRESOLVED; it does not end. *)
Lemma return_code_hangs_with_target :
  wait (sample_process Blocked) = Blocked
  /\ ReturnCode._test sample_self
       (sample_os (Returned (sample_process Blocked))) [(1, 65)] = Blocked
  /\ ReturnCode._test sample_self
       (sample_os (Returned (sample_process Blocked))) [(1, 65)]
     <> Returned (Verdict UNRESOLVED).
Proof. repeat split. discriminate. Qed.

(** ** The ddmin search *)

(** Lengths are compared on the plain list type. *)
Ltac flat := unfold DD.config, DD.delta in *.

Ltac flia := flat; lia.

Section Partition.

Context {P : Type}.
Implicit Types c d : list (Z * P).
Implicit Types cs : list (list (Z * P)).

Local Open Scope nat_scope.

Lemma split_length c n : length (DD.split c n) = n.
Proof.
  revert c. induction n as [|n IH]; intros c; simpl; [reflexivity|].
  now rewrite IH.
Qed.

Lemma split_concat c n : 0 < n -> concat (DD.split c n) = c.
Proof.
  revert c. induction n as [|n IH]; intros c Hn; [lia|].
  cbn [DD.split concat]. destruct n as [|n].
  - rewrite Nat.div_1_r. cbn [DD.split concat].
    rewrite app_nil_r. apply firstn_all.
  - rewrite IH by lia. apply take_drop.
Qed.

Lemma share_bounds (L n : nat) :
  S n <= L -> 1 <= L / S n /\ L / S n <= L /\ n <= L - L / S n.
Proof.
  intros H.
  pose proof (Nat.Div0.mul_div_le L (S n)) as Hle.
  assert (1 <= L / S n) as H1 by (apply Nat.div_le_lower_bound; lia).
  repeat split; [assumption | nia | nia].
Qed.

Lemma split_nonempty c n :
  n <= length c -> Forall (fun d => 0 < length d) (DD.split c n).
Proof.
  revert c. induction n as [|n IH]; intros c Hn; cbn [DD.split];
    constructor.
  - destruct (share_bounds (length c) n Hn) as (H1 & H2 & _).
    flat. rewrite length_take_le; lia.
  - apply IH. flat. rewrite length_drop.
    destruct (share_bounds (length c) n Hn) as (_ & _ & H3). exact H3.
Qed.

Lemma split_sublist c n : Forall (fun d => d `sublist_of` c) (DD.split c n).
Proof.
  revert c. induction n as [|n IH]; intros c; cbn [DD.split]; constructor.
  - apply sublist_take.
  - eapply Forall_impl; [apply IH|]. intros d Hd. cbn beta in Hd.
    etransitivity; [exact Hd | apply sublist_drop].
Qed.

Lemma split_singletons c : DD.split c (length c) = map (fun x => [x]) c.
Proof.
  induction c as [|x c IH]; [reflexivity|].
  cbn [length DD.split]. rewrite Nat.div_same by lia.
  cbn [take drop map]. rewrite take_0, drop_0. now rewrite IH.
Qed.

Lemma concat_singletons c : concat (map (fun x => [x]) c) = c.
Proof. induction c as [|x c IH]; cbn; [reflexivity | now rewrite IH]. Qed.

Lemma concat_delete_singletons c i :
  concat (delete i (map (fun x => [x]) c)) = delete i c.
Proof.
  revert i. induction c as [|x c IH]; intros [|i]; cbn; try reflexivity.
  - apply concat_singletons.
  - now rewrite IH.
Qed.

Lemma concat_delete_sublist cs i : concat (delete i cs) `sublist_of` concat cs.
Proof.
  revert i. induction cs as [|d cs IH]; intros [|i]; cbn; try reflexivity.
  - apply sublist_inserts_l. reflexivity.
  - apply sublist_app; [reflexivity | apply IH].
Qed.

Lemma concat_delete_length cs i d :
  cs !! i = Some d ->
  length (concat (delete i cs)) + length d = length (concat cs).
Proof.
  revert i. induction cs as [|d' cs IH]; intros [|i] H;
    try discriminate.
  - injection H as ->. simpl. rewrite length_app. lia.
  - simpl. rewrite !length_app. specialize (IH i H). lia.
Qed.

Lemma concat_nonempty_length cs :
  Forall (fun d => 0 < length d) cs -> length cs <= length (concat cs).
Proof.
  induction 1 as [|d cs Hd _ IH]; cbn; [lia|]. rewrite length_app. lia.
Qed.

Lemma delete_nonempty cs i :
  Forall (fun d => 0 < length d) cs ->
  Forall (fun d => 0 < length d) (delete i cs).
Proof.
  intros H. rewrite Forall_forall in *. intros d Hd. apply H.
  eapply elem_of_sublist; [exact Hd | apply sublist_delete].
Qed.

(** A part of a partition into at least two non-empty parts, and the
    complement of such a part, are strictly smaller than the whole. *)
Lemma part_bounds c n i d :
  2 <= n -> n <= length c -> DD.split c n !! i = Some d ->
  0 < length d /\ length d < length c
  /\ concat (delete i (DD.split c n)) `sublist_of` c
  /\ length (concat (delete i (DD.split c n))) < length c
  /\ n - 1 <= length (concat (delete i (DD.split c n))).
Proof.
  intros Hn Hle Hi.
  pose proof (split_nonempty c n Hle) as Hne.
  pose proof (concat_delete_length _ _ _ Hi) as Hlen.
  rewrite split_concat in Hlen by lia.
  pose proof (concat_nonempty_length _ (delete_nonempty _ i Hne)) as Hrest.
  rewrite length_delete in Hrest by (eexists; exact Hi).
  rewrite split_length in Hrest.
  assert (0 < length d) as Hd.
  { rewrite Forall_forall in Hne. apply Hne.
    apply list_elem_of_lookup. eauto. }
  assert (concat (delete i (DD.split c n)) `sublist_of` c) as Hsl.
  { rewrite <- (split_concat c n) at 2 by lia. apply concat_delete_sublist. }
  flat. repeat split; try assumption; lia.
Qed.

Lemma complements_lookup cs i d :
  cs !! i = Some d -> concat (delete i cs) ∈ DD.complements cs.
Proof.
  intros H. unfold DD.complements.
  apply (elem_of_lookup_imap_2 (fun i _ => concat (delete i cs)) cs d i H).
Qed.

Lemma complements_elem cs cbar :
  cbar ∈ DD.complements cs ->
  exists i d, cs !! i = Some d /\ cbar = concat (delete i cs).
Proof.
  unfold DD.complements. intros H.
  apply elem_of_lookup_imap_1 in H as (i & d & -> & Hi). eauto.
Qed.

End Partition.

Section Search.

Context {P : Type}.
Variable oracle : list (Z * P) -> verdict.
Implicit Types c d M : list (Z * P).

Local Open Scope nat_scope.

Lemma is_FAIL_true v : DD.is_FAIL v = true <-> v = FAIL.
Proof. destruct v; simpl; split; congruence. Qed.

Lemma first_FAIL_Some candidates d :
  DD.first_FAIL oracle candidates = Some d ->
  d ∈ candidates /\ oracle d = FAIL.
Proof.
  induction candidates as [|x rest IH]; simpl; [discriminate|].
  destruct (DD.is_FAIL (oracle x)) eqn:E.
  - intros [= ->]. split; [left | now apply is_FAIL_true].
  - intros H. destruct (IH H). split; [now right | assumption].
Qed.

Lemma first_FAIL_None candidates d :
  DD.first_FAIL oracle candidates = None ->
  d ∈ candidates -> oracle d <> FAIL.
Proof.
  induction candidates as [|x rest IH]; simpl; intros H Hd.
  - inversion Hd.
  - destruct (DD.is_FAIL (oracle x)) eqn:E; [discriminate|].
    apply elem_of_cons in Hd as [-> | Hd]; [|now apply IH].
    intros HF. apply is_FAIL_true in HF. congruence.
Qed.

(** What the search returns is a failing subsequence of where it
    started from which no single delta can be removed. *)
Lemma search_sound fuel : forall c n M,
  2 <= n -> (n <= length c \/ n = 2) ->
  oracle c = FAIL -> oracle [] <> FAIL ->
  DD.search oracle fuel c n = Some M ->
  M `sublist_of` c /\ oracle M = FAIL
  /\ forall i, i < length M -> oracle (delete i M) <> FAIL.
Proof.
  induction fuel as [|fuel IH]; intros c n M Hn Hb Hc He; [discriminate|].
  cbn [DD.search]. flat.
  destruct (length c <? n) eqn:Hg.
  - apply Nat.ltb_lt in Hg. intros [= <-].
    split; [reflexivity|]. split; [assumption|].
    intros i Hi. destruct c as [|x [|y c]]; cbn in *; try lia.
    destruct i; [exact He | lia].
  - apply Nat.ltb_ge in Hg.
    destruct (DD.first_FAIL oracle (DD.split c n)) as [d|] eqn:Hsub.
    + intros Hs. apply first_FAIL_Some in Hsub as [Hin Hd].
      pose proof (split_sublist c n) as Hall. rewrite Forall_forall in Hall.
      destruct (IH d 2 M ltac:(lia) ltac:(right; reflexivity) Hd He Hs)
        as (H1 & H2 & H3).
      split; [|split; assumption].
      etransitivity; [exact H1 | now apply Hall].
    + destruct (DD.first_FAIL oracle (DD.complements (DD.split c n)))
        as [cbar|] eqn:Hcomp.
      * intros Hs. apply first_FAIL_Some in Hcomp as [Hin Hd].
        apply complements_elem in Hin as (i & d & Hi & ->).
        destruct (part_bounds c n i d Hn Hg Hi) as (_ & _ & Hsl & _ & Hlen).
        apply IH in Hs as (H1 & H2 & H3); [|lia|flia|assumption..].
        split; [|split; assumption].
        etransitivity; [exact H1 | exact Hsl].
      * destruct (n <? length c) eqn:Hlt.
        -- apply Nat.ltb_lt in Hlt. intros Hs.
           apply IH in Hs; [assumption|flia..|assumption|assumption].
        -- apply Nat.ltb_ge in Hlt. intros [= <-].
           split; [reflexivity|]. split; [assumption|].
           intros i Hi. assert (n = length c) as -> by lia.
           rewrite split_singletons in Hcomp.
           rewrite <- concat_delete_singletons.
           apply (first_FAIL_None _ _ Hcomp).
           destruct (lookup_lt_is_Some_2 (map (fun x => [x]) c) i) as [d Hd].
           { now rewrite length_map. }
           apply (complements_lookup _ i d Hd).
Qed.

Lemma square_below (a b : nat) : a < b -> a * a <= (b - 1) * (b - 1).
Proof. intros H. apply Nat.mul_le_mono; lia. Qed.

Lemma search_terminates fuel : forall c n,
  2 <= n -> DD.rounds_from c n <= fuel ->
  exists M, DD.search oracle fuel c n = Some M.
Proof.
  unfold DD.rounds_from.
  induction fuel as [|fuel IH]; intros c n Hn Hf; [lia|].
  cbn [DD.search]. flat.
  destruct (length c <? n) eqn:Hg; [eauto|].
  apply Nat.ltb_ge in Hg.
  destruct (DD.first_FAIL oracle (DD.split c n)) as [d|] eqn:Hsub.
  - apply first_FAIL_Some in Hsub as [Hin _].
    apply list_elem_of_lookup in Hin as [i Hi].
    destruct (part_bounds c n i d Hn Hg Hi) as (_ & Hlt & _).
    apply IH; [lia|]. flat.
    pose proof (square_below _ _ Hlt). nia.
  - destruct (DD.first_FAIL oracle (DD.complements (DD.split c n)))
      as [cbar|] eqn:Hcomp.
    + apply first_FAIL_Some in Hcomp as [Hin _].
      apply complements_elem in Hin as (i & d & Hi & ->).
      destruct (part_bounds c n i d Hn Hg Hi) as (_ & _ & _ & Hlt & _).
      apply IH; [lia|]. flat.
      pose proof (square_below _ _ Hlt). nia.
    + destruct (n <? length c) eqn:Hlt; [|eauto].
      apply Nat.ltb_lt in Hlt. apply IH; flia.
Qed.

End Search.

(** ** Configurations and their identity *)

Section Identity.

Context {P : Type}.
Implicit Types c U : list (Z * P).

Lemma StronglySorted_sublist {A : Type} (R : relation A) (l1 l2 : list A) :
  l1 `sublist_of` l2 -> StronglySorted R l2 -> StronglySorted R l1.
Proof.
  induction 1 as [|x l1 l2 Hsub IH|x l1 l2 Hsub IH]; intros Hs.
  - constructor.
  - apply StronglySorted_inv in Hs as [Hs Hall]. constructor; [auto|].
    rewrite Forall_forall in *. intros y Hy. apply Hall.
    eapply elem_of_sublist; eassumption.
  - apply StronglySorted_inv in Hs as [Hs _]. auto.
Qed.

Lemma ascending_sublist c U :
  DD.ascending U -> c `sublist_of` U -> DD.ascending c.
Proof.
  unfold DD.ascending. intros HU Hc.
  eapply StronglySorted_sublist; [|exact HU]. now apply fmap_sublist.
Qed.

Lemma StronglySorted_lt_NoDup (l : list Z) : StronglySorted Z.lt l -> NoDup l.
Proof.
  induction 1 as [|x l Hs IH Hall]; constructor; [|assumption].
  intros Hx. rewrite Forall_forall in Hall. specialize (Hall x Hx). lia.
Qed.

Lemma ascending_NoDup c : DD.ascending c -> NoDup (c.*1).
Proof. apply StronglySorted_lt_NoDup. Qed.

Lemma sorted_same_set (l1 l2 : list Z) :
  StronglySorted Z.lt l1 -> StronglySorted Z.lt l2 ->
  list_to_set l1 =@{gset Z} list_to_set l2 -> l1 = l2.
Proof.
  intros H1 H2 Hset.
  apply (StronglySorted_unique_strong Z.lt); try assumption.
  - intros x1 x2 _ _ Ha Hb. lia.
  - apply NoDup_Permutation; auto using StronglySorted_lt_NoDup.
    intros x. rewrite <- !(elem_of_list_to_set (C := gset Z)).
    now rewrite Hset.
Qed.

Lemma NoDup_fst_unique U (i : Z) (p1 p2 : P) :
  NoDup (U.*1) -> (i, p1) ∈ U -> (i, p2) ∈ U -> p1 = p2.
Proof.
  induction U as [|[j q] U IH]; intros Hnd H1 H2.
  - inversion H1.
  - cbn in Hnd. apply NoDup_cons in Hnd as [Hj Hnd].
    apply elem_of_cons in H1 as [[= <- <-] | H1];
      apply elem_of_cons in H2 as [[= ?] | H2]; subst; auto.
    + exfalso. apply Hj. apply list_elem_of_fmap. now exists (i, p2).
    + exfalso. apply Hj. apply list_elem_of_fmap. now exists (j, p1).
Qed.

Lemma same_indices c1 : forall c2 U,
  NoDup (U.*1) -> c1 ⊆ U -> c2 ⊆ U -> c1.*1 = c2.*1 -> c1 = c2.
Proof.
  induction c1 as [|[i p1] c1 IH]; intros [|[j p2] c2] U Hnd H1 H2 Heq;
    cbn in Heq; try discriminate; [reflexivity|].
  injection Heq as -> Heq.
  assert (p1 = p2) as ->.
  { apply (NoDup_fst_unique U j); [assumption| |].
    - apply H1. left.
    - apply H2. left. }
  f_equal. apply (IH c2 U Hnd); [| |assumption].
  - intros x Hx. apply H1. now right.
  - intros x Hx. apply H2. now right.
Qed.

(** Within an ascending universe, the set of indices determines the
    configuration. *)
Lemma identity_inj U c1 c2 :
  DD.ascending U -> c1 `sublist_of` U -> c2 `sublist_of` U ->
  DD.identity c1 = DD.identity c2 -> c1 = c2.
Proof.
  intros HU H1 H2 Hid.
  apply (same_indices c1 c2 U).
  - now apply ascending_NoDup.
  - now apply sublist_subseteq.
  - now apply sublist_subseteq.
  - apply sorted_same_set; [| |exact Hid].
    + apply (ascending_sublist c1 U HU H1).
    + apply (ascending_sublist c2 U HU H2).
Qed.

End Identity.

(** ** The engine against the search *)

Section EngineRuns.

Context {P : Type}.
Variable oracle : list (Z * P) -> verdict.
Implicit Types c d M U : list (Z * P).
Implicit Types st on off : @DD.run P.

Local Open Scope nat_scope.

(** *** Without the cache *)

Lemma test_off c st :
  DD.test oracle false c st
  = (oracle c, {| DD.cache := DD.cache st;
                  DD.invocations := DD.invocations st ++ [c] |}).
Proof. reflexivity. Qed.

Lemma scan_off candidates : forall st,
  (DD.scan oracle false candidates st).1 = DD.first_FAIL oracle candidates.
Proof.
  induction candidates as [|d rest IH]; intros st; [reflexivity|].
  cbn [DD.scan DD.first_FAIL]. rewrite test_off.
  destruct (DD.is_FAIL (oracle d)); [reflexivity | apply IH].
Qed.

Lemma dd_off fuel : forall c n st,
  (DD.dd oracle false fuel c n st).1 = DD.search oracle fuel c n.
Proof.
  induction fuel as [|fuel IH]; intros c n st; [reflexivity|].
  cbn [DD.dd DD.search]. flat.
  destruct (length c <? n); [reflexivity|].
  pose proof (scan_off (DD.split c n) st) as H1.
  destruct (DD.scan oracle false (DD.split c n) st) as [r1 st1].
  cbn [fst] in H1. rewrite <- H1. destruct r1 as [d|]; [apply IH|].
  pose proof (scan_off (DD.complements (DD.split c n)) st1) as H2.
  destruct (DD.scan oracle false (DD.complements (DD.split c n)) st1)
    as [r2 st2].
  cbn [fst] in H2. rewrite <- H2. destruct r2 as [cbar|]; [apply IH|].
  destruct (n <? length c); [apply IH | reflexivity].
Qed.

(** *** With the cache, in lockstep *)

Variable U : list (Z * P).
Hypothesis U_ascending : DD.ascending U.

Lemma lockstep_refl on off :
  DD.cache_sound oracle U on -> DD.lockstep oracle U on off on off.
Proof.
  intros H. split; [assumption|]. exists [], [].
  rewrite !app_nil_r.
  split; [reflexivity|]. split; [reflexivity|]. split; constructor.
Qed.

Lemma lockstep_trans on off on1 off1 on2 off2 :
  DD.lockstep oracle U on off on1 off1 ->
  DD.lockstep oracle U on1 off1 on2 off2 ->
  DD.lockstep oracle U on off on2 off2.
Proof.
  intros (_ & a & b & Ha & Hb & Hab & HU) (Hs & a' & b' & Ha' & Hb' & Hab' & HU').
  split; [assumption|]. exists (a ++ a'), (b ++ b').
  rewrite Ha', Ha, Hb', Hb, <- !app_assoc.
  split; [reflexivity|]. split; [reflexivity|]. split.
  - now apply sublist_app.
  - now apply Forall_app.
Qed.

Lemma cache_sound_insert c on :
  c `sublist_of` U ->
  DD.cache_sound oracle U on ->
  DD.cache_sound oracle U
    {| DD.cache := <[DD.identity c := oracle c]> (DD.cache on);
       DD.invocations := DD.invocations on ++ [c] |}.
Proof.
  intros Hc Hs c' v Hc' Hl. cbn [DD.cache] in Hl.
  destruct (decide (DD.identity c = DD.identity c')) as [Heq|Hne].
  - rewrite Heq, lookup_insert_eq in Hl. injection Hl as <-.
    f_equal. symmetry. now apply (identity_inj U).
  - rewrite lookup_insert_ne in Hl by assumption. now apply Hs.
Qed.

Lemma test_lockstep c on off :
  c `sublist_of` U ->
  DD.cache_sound oracle U on ->
  exists on' off',
    DD.test oracle true c on = (oracle c, on')
    /\ DD.test oracle false c off = (oracle c, off')
    /\ DD.lockstep oracle U on off on' off'.
Proof.
  intros Hc Hs. rewrite test_off. unfold DD.test, DD.lookup, DD.record.
  destruct (DD.cache on !! DD.identity c) as [v|] eqn:Hl.
  - rewrite (Hs c v Hc Hl). eexists _, _. split; [reflexivity|].
    split; [reflexivity|]. split; [assumption|].
    exists [], [c]. cbn. rewrite app_nil_r.
    split; [reflexivity|]. split; [reflexivity|].
    split; [apply sublist_nil_l|].
    constructor; [assumption | constructor].
  - eexists _, _. split; [reflexivity|]. split; [reflexivity|].
    split; [now apply cache_sound_insert|].
    exists [c], [c]. cbn.
    split; [reflexivity|]. split; [reflexivity|].
    split; [reflexivity|].
    constructor; [assumption | constructor].
Qed.

Lemma scan_lockstep candidates : forall on off,
  Forall (fun c => c `sublist_of` U) candidates ->
  DD.cache_sound oracle U on ->
  exists on' off',
    DD.scan oracle true candidates on = (DD.first_FAIL oracle candidates, on')
    /\ DD.scan oracle false candidates off
       = (DD.first_FAIL oracle candidates, off')
    /\ DD.lockstep oracle U on off on' off'.
Proof.
  induction candidates as [|d rest IH]; intros on off Hall Hs.
  - exists on, off. split; [reflexivity|]. split; [reflexivity|].
    now apply lockstep_refl.
  - apply Forall_cons in Hall as [Hd Hall].
    destruct (test_lockstep d on off Hd Hs) as (on1 & off1 & E1 & E2 & L1).
    cbn [DD.scan DD.first_FAIL]. rewrite E1, E2.
    destruct (DD.is_FAIL (oracle d)).
    + exists on1, off1. auto.
    + destruct (IH on1 off1 Hall (proj1 L1)) as (on2 & off2 & E3 & E4 & L2).
      exists on2, off2. rewrite E3, E4.
      split; [reflexivity|]. split; [reflexivity|].
      apply (lockstep_trans _ _ _ _ _ _ L1 L2).
Qed.

Lemma parts_in_universe c n :
  c `sublist_of` U -> Forall (fun d => d `sublist_of` U) (DD.split c n).
Proof.
  intros Hc. eapply Forall_impl; [apply split_sublist|].
  intros d Hd. cbn beta in Hd. now transitivity c.
Qed.

Lemma complements_in_universe c n :
  c `sublist_of` U ->
  Forall (fun d => d `sublist_of` U) (DD.complements (DD.split c n)).
Proof.
  intros Hc. rewrite Forall_forall. intros cbar Hin.
  apply complements_elem in Hin as (i & d & Hi & ->).
  transitivity c; [|assumption].
  destruct n as [|n]; [discriminate Hi|].
  rewrite <- (split_concat c (S n)) at 2 by lia.
  apply concat_delete_sublist.
Qed.

Lemma dd_lockstep fuel : forall c n on off,
  c `sublist_of` U ->
  DD.cache_sound oracle U on ->
  exists on' off',
    DD.dd oracle true fuel c n on = (DD.search oracle fuel c n, on')
    /\ DD.dd oracle false fuel c n off = (DD.search oracle fuel c n, off')
    /\ DD.lockstep oracle U on off on' off'.
Proof.
  induction fuel as [|fuel IH]; intros c n on off Hc Hs.
  - exists on, off. split; [reflexivity|]. split; [reflexivity|].
    now apply lockstep_refl.
  - cbn [DD.dd DD.search]. flat.
    destruct (length c <? n).
    { exists on, off. split; [reflexivity|]. split; [reflexivity|].
      now apply lockstep_refl. }
    destruct (scan_lockstep (DD.split c n) on off
                (parts_in_universe c n Hc) Hs)
      as (on1 & off1 & E1 & E2 & L1).
    rewrite E1, E2.
    pose proof (parts_in_universe c n Hc) as Hparts.
    destruct (DD.first_FAIL oracle (DD.split c n)) as [d|] eqn:Hsub.
    { apply first_FAIL_Some in Hsub as [Hin _].
      rewrite Forall_forall in Hparts.
      destruct (IH d 2 on1 off1 (Hparts d Hin) (proj1 L1))
        as (on2 & off2 & E3 & E4 & L2).
      exists on2, off2. split; [assumption|]. split; [assumption|].
      apply (lockstep_trans _ _ _ _ _ _ L1 L2). }
    destruct (scan_lockstep (DD.complements (DD.split c n)) on1 off1
                (complements_in_universe c n Hc) (proj1 L1))
      as (on2 & off2 & E3 & E4 & L2).
    rewrite E3, E4.
    pose proof (lockstep_trans _ _ _ _ _ _ L1 L2) as L12.
    pose proof (complements_in_universe c n Hc) as Hcomps.
    destruct (DD.first_FAIL oracle (DD.complements (DD.split c n)))
      as [cbar|] eqn:Hcomp.
    { apply first_FAIL_Some in Hcomp as [Hin _].
      rewrite Forall_forall in Hcomps.
      destruct (IH cbar (Nat.max (n - 1) 2) on2 off2 (Hcomps cbar Hin) (proj1 L2))
        as (on3 & off3 & E5 & E6 & L3).
      exists on3, off3. split; [assumption|]. split; [assumption|].
      apply (lockstep_trans _ _ _ _ _ _ L12 L3). }
    destruct (n <? length c).
    + destruct (IH c (Nat.min (2 * n) (length c)) on2 off2 Hc (proj1 L2))
        as (on3 & off3 & E5 & E6 & L3).
      exists on3, off3. split; [assumption|]. split; [assumption|].
      apply (lockstep_trans _ _ _ _ _ _ L12 L3).
    + exists on2, off2. auto.
Qed.

End EngineRuns.

(** ** The universes of the scripts *)

Section Ingestion.

Lemma load_deltas_loop {A : Type} (data : list A) :
  forall (deltas : list (Z * A)) (index : Z),
    DD.ascending deltas ->
    Forall (fun d => fst d < index) deltas ->
    DD.ascending (fst (foldl ReturnCode.load_step (deltas, index) data)).
Proof.
  induction data as [|ch data IH]; intros deltas index Hs Hall;
    [exact Hs|].
  cbn [foldl ReturnCode.load_step]. apply IH.
  - unfold DD.ascending in *. rewrite fmap_app. apply StronglySorted_app.
    split; [|split; [assumption | repeat constructor]].
    intros x1 x2 H1 H2. apply list_elem_of_fmap in H1 as [[i p] [-> Hin]].
    rewrite Forall_forall in Hall. specialize (Hall _ Hin).
    cbn in H2. apply list_elem_of_singleton in H2 as ->. exact Hall.
  - apply Forall_app. split.
    + eapply Forall_impl; [exact Hall|]. cbn. intros; lia.
    + repeat constructor. cbn. lia.
Qed.

Lemma load_deltas_ascending {A : Type} (data : list A) :
  DD.ascending (ReturnCode.load_deltas data).
Proof.
  unfold ReturnCode.load_deltas. apply load_deltas_loop; constructor.
Qed.

Lemma of_nat_seq_sorted (n : nat) : forall a : nat,
  StronglySorted Z.lt (map Z.of_nat (seq a n)).
Proof.
  induction n as [|n IH]; intros a; cbn; constructor; [apply IH|].
  rewrite Forall_forall. intros z Hz.
  apply list_elem_of_fmap in Hz as [k [-> Hk]].
  apply elem_of_seq in Hk. lia.
Qed.

Lemma deltas_of_ascending (test_input : string) :
  DD.ascending (AlgorithmExample.deltas_of test_input).
Proof.
  unfold DD.ascending, AlgorithmExample.deltas_of.
  change (map ?f ?l) with (f <$> l).
  rewrite <- list_fmap_compose. apply of_nat_seq_sorted.
Qed.

Lemma ingested_ascending {P : Type} (U : list (Z * P)) :
  ingested U -> DD.ascending U.
Proof.
  intros [A data | s];
    [apply load_deltas_ascending | apply deltas_of_ascending].
Qed.

End Ingestion.

(** ** The oracle of dd-algorithm-example.py *)

Section AlgorithmExampleOracle.

Import AlgorithmExample.

Lemma count_snoc (x y : string) (found : list string) :
  count x (found ++ [y]) = (count x found + if String.eqb y x then 1 else 0)%Z.
Proof.
  induction found as [|z found IH]; cbn [app count]; [lia|].
  rewrite IH. lia.
Qed.

(** The digits collected into [found] occur in it as often as among
    the payloads. *)
Lemma count_collected (x : string) (deltas : list delta) :
  x = "1" \/ x = "7" \/ x = "8" ->
  forall found,
    count x (foldl collect found deltas)
    = (count x found + Z.of_nat (count_occ string_dec (map snd deltas) x))%Z.
Proof.
  intros Hx. induction deltas as [|[index byte] deltas IH]; intros found.
  - cbn. lia.
  - cbn [foldl map snd]. rewrite IH. unfold collect.
    destruct (string_dec byte x) as [-> | Hne].
    + rewrite count_occ_cons_eq by reflexivity.
      assert ((x =? "1")%string || (x =? "7")%string || (x =? "8")%string
              = true) as ->.
      { destruct Hx as [-> | [-> | ->]]; reflexivity. }
      rewrite count_snoc, String.eqb_refl. lia.
    + rewrite count_occ_cons_neq by assumption.
      apply String.eqb_neq in Hne.
      destruct ((byte =? "1")%string || (byte =? "7")%string
                || (byte =? "8")%string).
      * rewrite count_snoc, Hne. lia.
      * lia.
Qed.

Lemma _test_FAIL (deltas : list delta) :
  _test deltas = Returned (Verdict FAIL)
  <-> count_occ string_dec (map snd deltas) "1" = 1%nat
      /\ count_occ string_dec (map snd deltas) "7" = 1%nat
      /\ count_occ string_dec (map snd deltas) "8" = 1%nat.
Proof.
  unfold _test.
  rewrite !count_collected by auto. cbn [count].
  destruct (0 + Z.of_nat (count_occ string_dec (map snd deltas) "1") =? 1)%Z eqn:E1;
  destruct (0 + Z.of_nat (count_occ string_dec (map snd deltas) "7") =? 1)%Z eqn:E7;
  destruct (0 + Z.of_nat (count_occ string_dec (map snd deltas) "8") =? 1)%Z eqn:E8;
    cbn [andb]; split; try discriminate; try (intros _; repeat split; lia);
    intros (H1 & H7 & H8); exfalso; lia.
Qed.

Lemma _test_PASS_or_FAIL (deltas : list delta) :
  _test deltas = Returned (Verdict PASS) \/ _test deltas = Returned (Verdict FAIL).
Proof.
  unfold _test.
  destruct ((count "1" _ =? 1)%Z && (count "7" _ =? 1)%Z && (count "8" _ =? 1)%Z);
    auto.
Qed.

End AlgorithmExampleOracle.

(** ** The entry point *)

Section Ddmin.

Context {P : Type}.
Variable oracle : list (Z * P) -> verdict.
Implicit Types c M U : list (Z * P).

Local Open Scope nat_scope.

Lemma cache_sound_start U : DD.cache_sound oracle U DD.start.
Proof. intros c v _ H. cbn in H. rewrite lookup_empty in H. discriminate. Qed.

Lemma ddmin_off U : (DD.ddmin oracle false U).1 = DD.ddmin_outcome oracle U.
Proof.
  unfold DD.ddmin, DD.ddmin_outcome. rewrite test_off. cbv beta iota zeta.
  destruct (DD.is_FAIL (oracle U)); [|reflexivity].
  rewrite test_off. cbv beta iota zeta. flat.
  destruct (DD.is_PASS (oracle [])); [|reflexivity].
  match goal with
  | |- context [DD.dd oracle false ?f ?c ?n ?st] =>
      pose proof (dd_off oracle f c n st) as H;
      destruct (DD.dd oracle false f c n st) as [r st']
  end.
  cbn [fst] in H. rewrite <- H. destruct r; reflexivity.
Qed.

Lemma ddmin_lockstep U :
  DD.ascending U ->
  exists on off,
    DD.ddmin oracle true U = (DD.ddmin_outcome oracle U, on)
    /\ DD.ddmin oracle false U = (DD.ddmin_outcome oracle U, off)
    /\ DD.lockstep oracle U DD.start DD.start on off.
Proof.
  intros HU. unfold DD.ddmin, DD.ddmin_outcome.
  destruct (test_lockstep oracle U HU U DD.start DD.start
              ltac:(reflexivity) (cache_sound_start U))
    as (on1 & off1 & E1 & E2 & L1).
  rewrite E1, E2. destruct (DD.is_FAIL (oracle U)); [|exists on1, off1; auto].
  destruct (test_lockstep oracle U HU [] on1 off1
              (sublist_nil_l U) (proj1 L1))
    as (on0 & off0 & E01 & E02 & L0).
  flat. rewrite E01, E02.
  pose proof (lockstep_trans oracle U _ _ _ _ _ _ L1 L0) as L10.
  destruct (DD.is_PASS (oracle [])); [|exists on0, off0; auto].
  destruct (dd_lockstep oracle U HU (DD.rounds U) U 2 on0 off0
              ltac:(reflexivity) (proj1 L0))
    as (on2 & off2 & E3 & E4 & L2).
  rewrite E3, E4. exists on2, off2.
  pose proof (lockstep_trans oracle U _ _ _ _ _ _ L10 L2) as L.
  destruct (DD.search oracle (DD.rounds U) U 2); auto.
Qed.

Lemma ddmin_outcome_Minimal U :
  oracle U = FAIL ->
  oracle [] = PASS ->
  exists M, DD.ddmin_outcome oracle U = DD.Minimal M
            /\ DD.search oracle (DD.rounds U) U 2 = Some M.
Proof.
  intros HF HP. unfold DD.ddmin_outcome. flat. rewrite HF, HP.
  cbn [DD.is_FAIL DD.is_PASS].
  destruct (search_terminates oracle (DD.rounds U) U 2) as [M HM].
  - lia.
  - unfold DD.rounds_from, DD.rounds. flia.
  - exists M. now rewrite HM.
Qed.

Lemma search_sublist fuel : forall c n M,
  DD.search oracle fuel c n = Some M -> M `sublist_of` c.
Proof.
  induction fuel as [|fuel IH]; intros c n M; [discriminate|].
  cbn [DD.search]. flat.
  destruct (length c <? n); [intros [= <-]; reflexivity|].
  destruct (DD.first_FAIL oracle (DD.split c n)) as [d|] eqn:Hsub.
  - intros Hs. apply first_FAIL_Some in Hsub as [Hin _].
    pose proof (split_sublist c n) as Hall. rewrite Forall_forall in Hall.
    transitivity d; [now apply IH in Hs | now apply Hall].
  - destruct (DD.first_FAIL oracle (DD.complements (DD.split c n)))
      as [cbar|] eqn:Hcomp.
    + intros Hs. apply first_FAIL_Some in Hcomp as [Hin _].
      pose proof (complements_in_universe c c n ltac:(reflexivity)) as Hall.
      rewrite Forall_forall in Hall.
      transitivity cbar; [now apply IH in Hs | now apply Hall].
    + destruct (n <? length c); [apply IH | intros [= <-]; reflexivity].
Qed.

Lemma ddmin_outcome_sublist U M :
  DD.ddmin_outcome oracle U = DD.Minimal M -> M `sublist_of` U.
Proof.
  unfold DD.ddmin_outcome. destruct (DD.is_FAIL (oracle U)); [|discriminate].
  flat. destruct (DD.is_PASS (oracle [])); [|discriminate].
  destruct (DD.search oracle (DD.rounds U) U 2) as [M'|] eqn:Hs;
    [|discriminate].
  intros [= <-]. now apply search_sublist in Hs.
Qed.

(** With or without the cache, the oracle is only invoked on
    subsequences of the universe. *)
Lemma ddmin_invocations (cache_outcomes : bool) U c :
  DD.ascending U ->
  c ∈ DD.invocations (DD.ddmin oracle cache_outcomes U).2 ->
  c `sublist_of` U.
Proof.
  intros HU Hc.
  destruct (ddmin_lockstep U HU)
    as (on & off & E1 & E2 & _ & l_on & l_off & Hon & Hoff & Hsub & Hall).
  rewrite Forall_forall in Hall. apply Hall.
  destruct cache_outcomes.
  - rewrite E1 in Hc. cbn [snd] in Hc. rewrite Hon in Hc. cbn in Hc.
    eapply elem_of_sublist; eassumption.
  - rewrite E2 in Hc. cbn [snd] in Hc. rewrite Hoff in Hc. exact Hc.
Qed.

(** The engine fails fast on an oracle that breaks its contract. *)
Lemma ddmin_fails_fast (cache_outcomes : bool) U :
  (cache_outcomes = true -> DD.ascending U) ->
  oracle U <> FAIL \/ oracle [] <> PASS ->
  (DD.ddmin oracle cache_outcomes U).1 = DD.PreconditionError.
Proof.
  intros Hasc H.
  assert (DD.ddmin_outcome oracle U = DD.PreconditionError) as Ho.
  { unfold DD.ddmin_outcome. flat.
    destruct (oracle U), (oracle []), H; cbn; congruence. }
  destruct cache_outcomes.
  - destruct (ddmin_lockstep U (Hasc eq_refl)) as (on & off & E & _).
    now rewrite E.
  - now rewrite ddmin_off.
Qed.

End Ddmin.

(** * The claims about the engine *)

(** C1.  For every universe [U] and every test oracle, that is, with
    the contract [test(U) = FAIL] on the universe and PASS on the empty
    configuration (and, when the outcome cache is enabled, [U] with
    ascending indices), [ddmin(U)] returns a subsequence [M] of [U]
    with [test(M) = FAIL] such that removing any single delta from [M]
    gives a configuration that is not FAIL. *)
Theorem ddmin_one_minimal {P : Type} (oracle : list (Z * P) -> verdict)
    (cache_outcomes : bool) (U : list (Z * P)) :
  (cache_outcomes = true -> DD.ascending U) ->
  oracle U = FAIL ->
  oracle [] = PASS ->
  exists M st,
    DD.ddmin oracle cache_outcomes U = (DD.Minimal M, st)
    /\ M `sublist_of` U
    /\ oracle M = FAIL
    /\ forall i, (i < length M)%nat -> oracle (delete i M) <> FAIL.
Proof.
  intros Hasc HF HP.
  destruct (ddmin_outcome_Minimal oracle U HF HP) as (M & HM & Hs).
  assert (exists st, DD.ddmin oracle cache_outcomes U = (DD.Minimal M, st))
    as [st Hst].
  { destruct cache_outcomes.
    - destruct (ddmin_lockstep oracle U (Hasc eq_refl)) as (on & off & E & _).
      exists on. now rewrite E, HM.
    - pose proof (ddmin_off oracle U) as H.
      destruct (DD.ddmin oracle false U) as [r st]. cbn [fst] in H.
      exists st. now rewrite H, HM. }
  exists M, st. split; [assumption|].
  apply (search_sound oracle (DD.rounds U) U 2 M); auto.
  rewrite HP. discriminate.
Qed.

Lemma ddmin_one_minimal_witness :
  exists M st,
    DD.ddmin algorithm_example_oracle true
      (AlgorithmExample.deltas_of AlgorithmExample.test_input) = (DD.Minimal M, st)
    /\ M `sublist_of` AlgorithmExample.deltas_of AlgorithmExample.test_input
    /\ algorithm_example_oracle M = FAIL
    /\ forall i, (i < length M)%nat ->
                 algorithm_example_oracle (delete i M) <> FAIL.
Proof.
  apply (ddmin_one_minimal algorithm_example_oracle true
           (AlgorithmExample.deltas_of AlgorithmExample.test_input)).
  - intros _. apply deltas_of_ascending.
  - reflexivity.
  - reflexivity.
Defined.

(** C2.  [TestDD._test] of dd-algorithm-example.py returns FAIL exactly
    when the payloads hold exactly one "1", one "7" and one "8"; it
    returns PASS otherwise and never UNRESOLVED; the empty configuration
    gives PASS, the universe built from "12345678" gives FAIL, and on
    this universe [ddmin] returns the deltas of "1", "7" and "8" in
    ascending order of index, with or without the cache. *)
Theorem algorithm_example_scenario :
  (forall deltas,
      AlgorithmExample._test deltas = Returned (Verdict FAIL)
      <-> count_occ string_dec (map snd deltas) "1" = 1%nat
          /\ count_occ string_dec (map snd deltas) "7" = 1%nat
          /\ count_occ string_dec (map snd deltas) "8" = 1%nat)
  /\ (forall deltas,
         AlgorithmExample._test deltas = Returned (Verdict PASS)
         \/ AlgorithmExample._test deltas = Returned (Verdict FAIL))
  /\ (forall deltas,
         AlgorithmExample._test deltas <> Returned (Verdict UNRESOLVED))
  /\ AlgorithmExample._test [] = Returned (Verdict PASS)
  /\ AlgorithmExample._test
       (AlgorithmExample.deltas_of AlgorithmExample.test_input)
     = Returned (Verdict FAIL)
  /\ (forall cache_outcomes : bool,
         (DD.ddmin algorithm_example_oracle cache_outcomes
            (AlgorithmExample.deltas_of AlgorithmExample.test_input)).1
         = DD.Minimal [(0, "1"); (6, "7"); (7, "8")]).
Proof.
  split; [exact _test_FAIL|]. split; [exact _test_PASS_or_FAIL|].
  split.
  { intros deltas H. destruct (_test_PASS_or_FAIL deltas) as [E|E];
      rewrite E in H; discriminate. }
  split; [reflexivity|]. split; [reflexivity|].
  intros [|]; vm_compute; reflexivity.
Qed.

Lemma algorithm_example_scenario_witness :
  AlgorithmExample._test [(0, "1"); (1, "7"); (2, "8")] = Returned (Verdict FAIL).
Proof.
  apply (proj1 algorithm_example_scenario [(0, "1"); (1, "7"); (2, "8")]).
  repeat split.
Defined.

(** C6.  For every universe with ascending indices and every oracle
    (a function of the configuration), [ddmin] with the outcome cache
    returns what [ddmin] without it returns, and invokes the oracle at
    most as often; without the cache every lookup misses and record
    changes nothing. *)
Theorem cache_transparency {P : Type} (oracle : list (Z * P) -> verdict)
    (U : list (Z * P)) :
  DD.ascending U ->
  (DD.ddmin oracle true U).1 = (DD.ddmin oracle false U).1
  /\ (length (DD.invocations (DD.ddmin oracle true U).2)
      <= length (DD.invocations (DD.ddmin oracle false U).2))%nat
  /\ (forall (st : @DD.run P) (c : list (Z * P)), DD.lookup false st c = None)
  /\ (forall (c : list (Z * P)) (v : verdict) (st : @DD.run P),
         DD.record false c v st = st).
Proof.
  intros HU.
  destruct (ddmin_lockstep oracle U HU)
    as (on & off & E1 & E2 & _ & l_on & l_off & Hon & Hoff & Hsub & _).
  rewrite E1, E2. cbn [fst snd]. split; [reflexivity|].
  split; [|split; reflexivity].
  rewrite Hon, Hoff. cbn. now apply sublist_length.
Qed.

Lemma cache_transparency_witness :
  (DD.ddmin algorithm_example_oracle true
     (AlgorithmExample.deltas_of AlgorithmExample.test_input)).1
  = (DD.ddmin algorithm_example_oracle false
       (AlgorithmExample.deltas_of AlgorithmExample.test_input)).1.
Proof.
  apply (cache_transparency algorithm_example_oracle
           (AlgorithmExample.deltas_of AlgorithmExample.test_input)).
  apply deltas_of_ascending.
Defined.

(** C7.  In a minimisation run on a universe built by one of the
    scripts, the universe, every configuration on which the oracle is
    invoked and the configuration that [ddmin] returns have their
    indices in strictly ascending order, without duplicates. *)
Theorem handled_configurations_ascending {P : Type}
    (oracle : list (Z * P) -> verdict) (cache_outcomes : bool)
    (U c : list (Z * P)) :
  ingested U ->
  c = U
  \/ c ∈ DD.invocations (DD.ddmin oracle cache_outcomes U).2
  \/ (DD.ddmin oracle cache_outcomes U).1 = DD.Minimal c ->
  DD.ascending c /\ NoDup (c.*1).
Proof.
  intros HU Hc. apply ingested_ascending in HU.
  assert (c `sublist_of` U) as Hsub.
  { destruct Hc as [-> | [Hc | Hc]].
    - reflexivity.
    - now apply (ddmin_invocations oracle cache_outcomes U c HU).
    - apply (ddmin_outcome_sublist oracle). rewrite <- Hc.
      destruct (ddmin_lockstep oracle U HU) as (on & off & E1 & E2 & _).
      destruct cache_outcomes; [now rewrite E1 | now rewrite E2]. }
  pose proof (ascending_sublist c U HU Hsub) as Ha.
  split; [assumption | now apply ascending_NoDup].
Qed.

Lemma handled_configurations_ascending_witness :
  DD.ascending [(0, "1"); (6, "7"); (7, "8")]
  /\ NoDup ([(0, "1"); (6, "7"); (7, "8")].*1).
Proof.
  apply (handled_configurations_ascending algorithm_example_oracle true
           (AlgorithmExample.deltas_of AlgorithmExample.test_input)).
  - apply ingested_converted.
  - right. right. vm_compute. reflexivity.
Defined.

(** * Further properties of the scripts *)

(** ** The universes and what is written back *)

Section RoundTrips.

Lemma item_shift (a : ascii) (s : string) (n : nat) :
  AlgorithmExample.item (String a s) (S n) = AlgorithmExample.item s n.
Proof. reflexivity. Qed.

Lemma concat_cons_char (a : ascii) (l : list string) :
  String.concat "" (String a EmptyString :: l) = String a (String.concat "" l).
Proof. destruct l; reflexivity. Qed.

Lemma concat_items (s : string) :
  String.concat ""
    (map (AlgorithmExample.item s) (seq 0 (String.length s))) = s.
Proof.
  induction s as [|a s IH]; [reflexivity|].
  cbn [String.length seq map].
  change (AlgorithmExample.item (String a s) 0) with (String a EmptyString).
  rewrite concat_cons_char. f_equal.
  rewrite <- seq_shift, map_map.
  rewrite (map_ext _ (AlgorithmExample.item s)) by (intros; apply item_shift).
  exact IH.
Qed.

(** X1.  dd-algorithm-example.py: joining the payloads of the universe
    built from a string gives the string back, and the indices of the
    universe are 0, 1, ..., len - 1. *)
Theorem deltas_of_round_trip (test_input : string) :
  AlgorithmExample.minimal (AlgorithmExample.deltas_of test_input) = test_input
  /\ map fst (AlgorithmExample.deltas_of test_input)
     = map Z.of_nat (seq 0 (String.length test_input)).
Proof.
  unfold AlgorithmExample.minimal, AlgorithmExample.deltas_of. split.
  - rewrite map_map. cbn [snd]. apply concat_items.
  - rewrite map_map. reflexivity.
Qed.

Lemma load_deltas_loop_spec {A : Type} (data : list A) :
  forall (deltas : list (Z * A)) (index : Z),
    fst (foldl ReturnCode.load_step (deltas, index) data)
    = deltas ++ imap (fun i ch => (index + Z.of_nat i, ch)) data.
Proof.
  induction data as [|ch data IH]; intros deltas index.
  - cbn. now rewrite app_nil_r.
  - cbn [foldl ReturnCode.load_step imap]. rewrite IH, <- app_assoc.
    cbn [app]. rewrite Z.add_0_r. do 2 f_equal.
    apply imap_ext. intros i x _. cbn. f_equal. lia.
Qed.

(** X2.  The loading loop of the main programs numbers the characters
    of the input 1, 2, ..., n in order and keeps every character as the
    payload of its delta. *)
Theorem load_deltas_enumerates {A : Type} (data : list A) :
  ReturnCode.load_deltas data
  = imap (fun i ch => (1 + Z.of_nat i, ch)) data.
Proof. unfold ReturnCode.load_deltas. now rewrite load_deltas_loop_spec. Qed.

Lemma write_deltas_ok (deltas : list (Z * Z)) :
  Forall (fun d => 0 <= snd d < 256) deltas ->
  write_deltas (Returned tt) deltas = Returned (map snd deltas).
Proof.
  induction 1 as [|[i b] deltas Hb _ IH]; [reflexivity|].
  cbn [write_deltas map snd]. cbn in Hb. unfold bytes_of.
  assert ((0 <=? b) && (b <? 256) = true) as -> by lia.
  cbn. rewrite IH. reflexivity.
Qed.

Lemma write_deltas_bad (deltas : list (Z * Z)) :
  ~ Forall (fun d => 0 <= snd d < 256) deltas ->
  write_deltas (Returned tt) deltas = Raised ValueError.
Proof.
  induction deltas as [|[i b] deltas IH]; intros Hn.
  - exfalso. apply Hn. constructor.
  - cbn [write_deltas]. unfold bytes_of.
    destruct ((0 <=? b) && (b <? 256)) eqn:E; [|reflexivity].
    cbn. rewrite IH; [reflexivity|].
    intros Hall. apply Hn. constructor; [cbn; lia | assumption].
Qed.

(** X3.  The writing loop of dd-return-code.py (in [_test] and in the
    main program), on a file that takes every write: it writes the
    payloads in order when each is a byte value, and raises ValueError
    as soon as one is not in [0, 256). *)
Theorem write_deltas_outcome (deltas : list (Z * Z)) :
  (Forall (fun d => 0 <= snd d < 256) deltas ->
   write_deltas (Returned tt) deltas = Returned (map snd deltas))
  /\ (~ Forall (fun d => 0 <= snd d < 256) deltas ->
      write_deltas (Returned tt) deltas = Raised ValueError).
Proof. split; [apply write_deltas_ok | apply write_deltas_bad]. Qed.

Lemma write_deltas_outcome_witness :
  write_deltas (Returned tt) [(1, 65); (2, 66)] = Returned [65; 66]
  /\ write_deltas (Returned tt) [(1, 65); (2, 256)] = Raised ValueError.
Proof.
  split.
  - apply (proj1 (write_deltas_outcome [(1, 65); (2, 66)])).
    repeat constructor; cbn; lia.
  - apply (proj2 (write_deltas_outcome [(1, 65); (2, 256)])).
    intros H. apply Forall_cons in H as [_ H].
    apply Forall_cons in H as [H _]. cbn in H. lia.
Defined.

Lemma imap_snd {A : Type} (f : nat -> Z) (data : list A) :
  map snd (imap (fun i ch => (f i, ch)) data) = data.
Proof.
  revert f. induction data as [|ch data IH]; intros f; [reflexivity|].
  cbn [imap map snd]. f_equal. apply (IH (f ∘ S)).
Qed.

(** X4.  dd-return-code.py: loading an input of byte values and writing
    the loaded deltas back gives the input, byte for byte. *)
Theorem load_write_round_trip (data : list Z) :
  Forall (fun b => 0 <= b < 256) data ->
  write_deltas (Returned tt) (ReturnCode.load_deltas data) = Returned data.
Proof.
  intros Hall. rewrite load_deltas_enumerates.
  rewrite write_deltas_ok.
  - now rewrite imap_snd.
  - rewrite Forall_forall. intros [i b] Hin.
    apply (list_elem_of_fmap_2 snd) in Hin. rewrite imap_snd in Hin.
    rewrite Forall_forall in Hall. cbn. now apply Hall.
Qed.

Lemma load_write_round_trip_witness :
  write_deltas (Returned tt) (ReturnCode.load_deltas [104; 105; 10])
  = Returned [104; 105; 10].
Proof.
  apply (load_write_round_trip [104; 105; 10]).
  repeat constructor; lia.
Defined.

End RoundTrips.

(** ** The command line of dd-return-code.py *)

Section CommandLine.

Lemma build_args_unfold (self : ReturnCode.self_) (input_filename : string) :
  ReturnCode.build_args self input_filename
  = ReturnCode.executable self
    :: map (fun x => if negb (String.eqb x "@@") then x else input_filename)
         (ReturnCode.target_args self).
Proof.
  unfold ReturnCode.build_args.
  destruct (ReturnCode.target_args self); reflexivity.
Qed.

(** X5.  The command line built by [MyDD._test] of dd-return-code.py
    starts with the executable and has one argument per target
    argument: the name of the input file where the target argument is
    ["@@"], the target argument itself elsewhere; so no ["@@"] is left
    among the arguments unless the file name is one. *)
Theorem build_args_substitutes (self : ReturnCode.self_)
    (input_filename : string) :
  input_filename <> "@@" ->
  length (ReturnCode.build_args self input_filename)
  = S (length (ReturnCode.target_args self))
  /\ ReturnCode.build_args self input_filename !! 0%nat
     = Some (ReturnCode.executable self)
  /\ (forall (i : nat) (x : string),
         ReturnCode.target_args self !! i = Some x ->
         ReturnCode.build_args self input_filename !! S i
         = Some (if decide (x = "@@") then input_filename else x))
  /\ (forall (i : nat),
         ReturnCode.build_args self input_filename !! S i <> Some "@@").
Proof.
  intros Hfn. rewrite build_args_unfold.
  set (f := fun x : string =>
              if negb (String.eqb x "@@") then x else input_filename).
  assert (forall i, (ReturnCode.executable self
                     :: map f (ReturnCode.target_args self)) !! S i
                    = f <$> ReturnCode.target_args self !! i) as Hl.
  { intros i. change ((?x :: ?l) !! S i) with (l !! i).
    apply (list_lookup_fmap f). }
  split; [cbn [length]; now rewrite length_map|]. split; [reflexivity|]. split.
  - intros i x Hx. rewrite Hl, Hx. cbn. f_equal. unfold f.
    destruct (String.eqb_spec x "@@") as [->|Hne]; cbn.
    + now rewrite decide_True.
    + now rewrite decide_False.
  - intros i. rewrite Hl.
    destruct (ReturnCode.target_args self !! i) as [x|]; cbn; [|discriminate].
    unfold f. destruct (String.eqb_spec x "@@") as [->|Hne]; cbn; congruence.
Qed.

Lemma build_args_substitutes_witness :
  ReturnCode.build_args sample_self "/tmp/crash-x" !! 1%nat = Some "/tmp/crash-x".
Proof.
  destruct (build_args_substitutes sample_self "/tmp/crash-x") as (_ & _ & H & _).
  - discriminate.
  - apply (H 0%nat "@@"). reflexivity.
Defined.

End CommandLine.

(** ** The liveness probe and the verdict of dd-socket-example.py *)

Section SocketVerdict.

Import SocketExample.

(** X6.  [MyDD.target_crashed] never raises once its socket exists: it
    answers [True] exactly when the connect, or the close after a
    successful connect, raises, and [False] exactly when both succeed. *)
Theorem target_crashed_outcome (w : net) :
  probe_socket w = Returned tt ->
  (forall e, target_crashed w <> Raised e)
  /\ (target_crashed w = Returned true
      <-> (exists e, probe_connect w = Raised e)
          \/ (probe_connect w = Returned tt /\ exists e, probe_close w = Raised e))
  /\ (target_crashed w = Returned false
      <-> probe_connect w = Returned tt /\ probe_close w = Returned tt).
Proof.
  intros Hs. unfold target_crashed. rewrite Hs. cbn.
  destruct (probe_connect w) as [[]|e|] eqn:Hc; cbn.
  - destruct (probe_close w) as [[]|e|] eqn:Hcl; cbn.
    + split; [discriminate|]. split.
      * split; [discriminate|]. intros [[e H]|[_ [e H]]]; discriminate.
      * split; auto.
    + split; [discriminate|]. split.
      * split; eauto.
      * split; [discriminate|]. intros [_ H]. discriminate.
    + split; [discriminate|]. split.
      * split; [discriminate|]. intros [[e H]|[_ [e H]]]; discriminate.
      * split; [discriminate|]. intros [_ H]. discriminate.
  - split; [discriminate|]. split.
    + split; eauto.
    + split; [discriminate|]. intros [H _]. discriminate.
  - split; [discriminate|]. split.
    + split; [discriminate|]. intros [[e H]|[H _]]; discriminate.
    + split; [discriminate|]. intros [H _]. discriminate.
Qed.

Lemma target_crashed_outcome_witness :
  target_crashed crashed_net = Returned true.
Proof.
  apply (proj1 (proj2 (target_crashed_outcome crashed_net eq_refl))).
  left. exists OSError. reflexivity.
Defined.

(** What the [try] block sends: nothing for an empty configuration. *)
Lemma try_block_Some (w : net) (data : list string) (v : value) :
  try_block w data = Returned (Some v)
  <-> connect w = Returned tt
      /\ (data = [] \/ sendall w (String.concat "" data) = Returned tt)
      /\ exists crashed, target_crashed w = Returned crashed
                         /\ v = Verdict (if crashed : bool then FAIL else PASS).
Proof.
  unfold try_block.
  destruct (connect w) as [[]|e|]; cbn.
  2,3: split; [discriminate | intros [H _]; discriminate].
  assert (forall (o : outcome unit),
             ((o;; crashed ← target_crashed w;
               if crashed : bool then Returned (Some (Verdict FAIL))
               else Returned (Some (Verdict PASS))) = Returned (Some v))
             <-> o = Returned tt
                 /\ exists crashed, target_crashed w = Returned crashed
                      /\ v = Verdict (if crashed : bool then FAIL else PASS))
    as Hgen.
  { intros [[]|e|]; cbn.
    2,3: split; [discriminate | intros [H _]; discriminate].
    destruct (target_crashed w) as [[|]|e|]; cbn.
    - split.
      + intros [= <-]. split; [reflexivity|]. exists true. auto.
      + intros [_ (c & [= <-] & ->)]. reflexivity.
    - split.
      + intros [= <-]. split; [reflexivity|]. exists false. auto.
      + intros [_ (c & [= <-] & ->)]. reflexivity.
    - split; [discriminate|]. intros [_ (c & H & _)]. discriminate.
    - split; [discriminate|]. intros [_ (c & H & _)]. discriminate. }
  rewrite Hgen. destruct data as [|d data].
  - split.
    + intros [_ H]. auto.
    + intros (_ & _ & H). auto.
  - split.
    + intros [H1 H2]. auto.
    + intros (_ & [H|H] & H2); [discriminate | auto].
Qed.

(** X7.  [MyDD._test] of dd-socket-example.py can only raise what the
    creation of its first socket raises, and it returns FAIL exactly
    when the socket is created, the connect and the sending of the data
    (if there is any) succeed, and the liveness probe reports a crash. *)
Theorem socket_test_outcome (w : net) (deltas : list delta) :
  (forall e, _test w deltas = Raised e -> socket_ w = Raised e)
  /\ (_test w deltas = Returned (Verdict FAIL)
      <-> socket_ w = Returned tt
          /\ connect w = Returned tt
          /\ (coerce deltas = []
              \/ sendall w (String.concat "" (coerce deltas)) = Returned tt)
          /\ target_crashed w = Returned true).
Proof.
  unfold _test.
  destruct (socket_ w) as [[]|e0|]; cbn.
  2: { split; [intros e [= ->]; reflexivity|].
       split; [discriminate | intros [H _]; discriminate]. }
  2: { split; [discriminate|].
       split; [discriminate | intros [H _]; discriminate]. }
  destruct (try_block w (coerce deltas)) as [[v|]|e|] eqn:Hb; cbn.
  - split; [discriminate|]. apply try_block_Some in Hb as (Hc & Hd & c & Ht & ->).
    split.
    + intros [= H]. destruct c; [auto | discriminate].
    + intros (_ & _ & _ & Ht'). rewrite Ht' in Ht. injection Ht as <-.
      reflexivity.
  - exfalso. unfold try_block in Hb.
    destruct (connect w) as [[]|e|]; cbn in Hb; try discriminate.
    destruct (match coerce deltas with
              | [] => Returned tt
              | _ :: _ => sendall w (String.concat "" (coerce deltas))
              end) as [[]|e|]; cbn in Hb; try discriminate.
    destruct (target_crashed w) as [[|]|e|]; cbn in Hb; discriminate.
  - split; [discriminate|]. split; [discriminate|].
    intros (_ & Hc & Hd & Ht).
    assert (try_block w (coerce deltas) = Returned (Some (Verdict FAIL)))
      as Hb'.
    { apply try_block_Some. repeat split; try assumption.
      exists true. auto. }
    rewrite Hb' in Hb. discriminate.
  - split; [discriminate|]. split; [discriminate|].
    intros (_ & Hc & Hd & Ht).
    assert (try_block w (coerce deltas) = Returned (Some (Verdict FAIL)))
      as Hb'.
    { apply try_block_Some. repeat split; try assumption.
      exists true. auto. }
    rewrite Hb' in Hb. discriminate.
Qed.

Lemma socket_test_outcome_witness :
  _test crashed_net [] = Returned (Verdict FAIL).
Proof.
  apply (proj2 (socket_test_outcome crashed_net [])).
  repeat split; try reflexivity. left. reflexivity.
Defined.

End SocketVerdict.

(** ** The verdicts of the gdb-based oracles *)

Section GdbVerdicts.

#[local] Arguments Gdb.run : simpl never.
#[local] Arguments Gdb.quit : simpl never.
#[local] Arguments Gdb._send_command : simpl never.

(** X8.  Whenever [GdbDD._test] of dd-ccd2cue.py returns, gdb was told
    to quit and the watchdog thread was joined, and the verdict is read
    off the response of gdb to the run command, whose last argument is
    the input file: PASS if the response has "exited normally" or
    "exited with code" (even if it also has "SIGABRT"), else FAIL if it
    has "SIGABRT", else UNRESOLVED. *)
Theorem ccd2cue_verdict (self : Ccd2cue.self_) (w : Ccd2cue.os)
    (deltas : list Ccd2cue.delta) (v : value) :
  Ccd2cue._test self w deltas = Returned v ->
  exists input_filename g response,
    Ccd2cue.mkstemp w = Returned input_filename
    /\ Ccd2cue.gdb w (Ccd2cue.executable self) = Returned g
    /\ Gdb.run g (Ccd2cue.target_args self ++ [input_filename]) true
       = Returned response
    /\ Gdb.quit g = Returned tt
    /\ Ccd2cue.thread_join w = Returned tt
    /\ v = Verdict
             (if PyStr.contains "exited normally" response
                 || PyStr.contains "exited with code" response
              then PASS
              else if PyStr.contains "SIGABRT" response then FAIL
                   else UNRESOLVED).
Proof.
  intros H. unfold Ccd2cue._test in H.
  destruct (Ccd2cue.mkstemp w) as [fn| |] eqn:Hm; cbn in H; try discriminate.
  destruct (Ccd2cue.file_open w); cbn in H; try discriminate.
  destruct (write_deltas _ deltas); cbn in H; try discriminate.
  destruct (Ccd2cue.gdb w _) as [g| |] eqn:Hg; cbn in H; try discriminate.
  destruct (Ccd2cue.thread_start w); cbn in H; try discriminate.
  destruct (Gdb.run g _ true) as [response| |] eqn:Hr; cbn in H;
    try discriminate.
  destruct (Ccd2cue.unlink w); cbn in H; try discriminate.
  exists fn, g, response.
  destruct (PyStr.contains "exited normally" response
            || PyStr.contains "exited with code" response);
    [|destruct (PyStr.contains "SIGABRT" response)];
    (destruct (Gdb.quit g) as [[]| |]; cbn in H; try discriminate;
     destruct (Ccd2cue.thread_join w) as [[]| |]; cbn in H; try discriminate;
     injection H as <-; auto 10).
Qed.

Lemma ccd2cue_verdict_witness :
  exists input_filename g response,
    Ccd2cue.mkstemp (sample_ccd2cue_os "Program received signal SIGABRT")
      = Returned input_filename
    /\ Ccd2cue.gdb (sample_ccd2cue_os "Program received signal SIGABRT")
         (Ccd2cue.executable sample_ccd2cue_self) = Returned g
    /\ Gdb.run g (Ccd2cue.target_args sample_ccd2cue_self ++ [input_filename])
         true = Returned response
    /\ Gdb.quit g = Returned tt
    /\ Ccd2cue.thread_join (sample_ccd2cue_os "Program received signal SIGABRT")
       = Returned tt
    /\ Verdict FAIL
       = Verdict
           (if PyStr.contains "exited normally" response
               || PyStr.contains "exited with code" response
            then PASS
            else if PyStr.contains "SIGABRT" response then FAIL
                 else UNRESOLVED).
Proof.
  apply (ccd2cue_verdict sample_ccd2cue_self
           (sample_ccd2cue_os "Program received signal SIGABRT") [(1, 65)]).
  reflexivity.
Defined.

(** X9.  Whenever [GdbDD._test] of dd-sqlite.py returns (whatever the
    name [Gdb] is bound to), the verdict is read off the response of gdb
    to the run command: PASS for a normal exit, an exit with a code, or
    SIGABRT; FAIL only for a response with both "SIGSEGV" and "a99410"
    and none of the former; UNRESOLVED otherwise. *)
Theorem sqlite_verdict (Gdb_ : string -> outcome Gdb.session)
    (self : Sqlite.self_) (w : Sqlite.os) (deltas : list Sqlite.delta)
    (v : value) :
  Sqlite._test_with Gdb_ self w deltas = Returned v ->
  exists input_filename db_filename g response,
    Sqlite.mkstemp_input w = Returned input_filename
    /\ Sqlite.mkstemp_db w = Returned db_filename
    /\ Gdb_ (Sqlite.executable self) = Returned g
    /\ Gdb.run g (Sqlite.target_args self ++ [db_filename; "<"; input_filename])
         true = Returned response
    /\ Gdb.quit g = Returned tt
    /\ v = Verdict
             (if PyStr.contains "exited normally" response
                 || PyStr.contains "exited with code" response
                 || PyStr.contains "SIGABRT" response
              then PASS
              else if PyStr.contains "SIGSEGV" response
                      && PyStr.contains "a99410" response
                   then FAIL
                   else UNRESOLVED).
Proof.
  intros H. unfold Sqlite._test_with in H.
  destruct (Sqlite.mkstemp_input w) as [fn| |] eqn:Hm; cbn in H;
    try discriminate.
  destruct (Sqlite.mkstemp_db w) as [db| |] eqn:Hdb; cbn in H;
    try discriminate.
  destruct (Sqlite.file_open w); cbn in H; try discriminate.
  destruct (write_deltas _ deltas); cbn in H; try discriminate.
  destruct (Gdb_ _) as [g| |] eqn:Hg; cbn in H; try discriminate.
  destruct (Gdb._send_command _ _); cbn in H; try discriminate.
  destruct (Sqlite.thread_start w); cbn in H; try discriminate.
  destruct (Gdb.run g _ true) as [response| |] eqn:Hr; cbn in H;
    try discriminate.
  destruct (Sqlite.unlink_input w); cbn in H; try discriminate.
  destruct (Sqlite.unlink_db w); cbn in H; try discriminate.
  exists fn, db, g, response.
  destruct (PyStr.contains "exited normally" response); cbn in H |- *.
  { destruct (Gdb.quit g) as [[]| |]; cbn in H; try discriminate.
    destruct (Sqlite.thread_join w); cbn in H; try discriminate.
    injection H as <-. auto 10. }
  destruct (PyStr.contains "exited with code" response); cbn in H |- *.
  { destruct (Gdb.quit g) as [[]| |]; cbn in H; try discriminate.
    destruct (Sqlite.thread_join w); cbn in H; try discriminate.
    injection H as <-. auto 10. }
  destruct (try_except _ _); cbn in H; try discriminate.
  destruct (PyStr.contains "SIGABRT" response); cbn in H |- *;
    [|destruct (PyStr.contains "SIGSEGV" response && PyStr.contains "a99410" response)];
    (destruct (Gdb.quit g) as [[]| |]; cbn in H; try discriminate;
     destruct (Sqlite.thread_join w); cbn in H; try discriminate;
     injection H as <-; auto 10).
Qed.

Lemma sqlite_verdict_witness :
  Sqlite._test_with (fun _ => Returned (answering_gdb "signal SIGSEGV at a99410"))
    sample_sqlite_self (sample_sqlite_os (Returned tt)) [(1, 65)]
  = Returned (Verdict FAIL)
  /\ exists input_filename db_filename g response,
    Sqlite.mkstemp_input (sample_sqlite_os (Returned tt)) = Returned input_filename
    /\ Sqlite.mkstemp_db (sample_sqlite_os (Returned tt)) = Returned db_filename
    /\ (fun _ => Returned (answering_gdb "signal SIGSEGV at a99410"))
         (Sqlite.executable sample_sqlite_self) = Returned g
    /\ Gdb.run g
         (Sqlite.target_args sample_sqlite_self ++ [db_filename; "<"; input_filename])
         true = Returned response
    /\ Gdb.quit g = Returned tt
    /\ Verdict FAIL
       = Verdict
           (if PyStr.contains "exited normally" response
               || PyStr.contains "exited with code" response
               || PyStr.contains "SIGABRT" response
            then PASS
            else if PyStr.contains "SIGSEGV" response
                    && PyStr.contains "a99410" response
                 then FAIL
                 else UNRESOLVED).
Proof.
  split; [reflexivity|].
  apply (sqlite_verdict
           (fun _ => Returned (answering_gdb "signal SIGSEGV at a99410"))
           sample_sqlite_self (sample_sqlite_os (Returned tt)) [(1, 65)]).
  reflexivity.
Defined.

(** X10.  In [GdbDD._test] of dd-sqlite.py a ValueError raised by one of
    the two register queries of the [try] block is swallowed: the call
    ends as it does when both queries succeed. *)
Theorem sqlite_value_error_swallowed (Gdb_ : string -> outcome Gdb.session)
    (self : Sqlite.self_) (w : Sqlite.os) (deltas : list Sqlite.delta) :
  Sqlite.determine_pc w = Raised ValueError
  \/ (Sqlite.determine_pc w = Returned tt
      /\ Sqlite.faulting_addr w = Raised ValueError) ->
  Sqlite._test_with Gdb_ self w deltas
  = Sqlite._test_with Gdb_ self
      (with_register_queries w (Returned tt) (Returned 0)) deltas.
Proof.
  intros Hq. unfold Sqlite._test_with. cbn.
  assert (try_except (Sqlite.determine_pc w;; Sqlite.faulting_addr w;; Returned tt)
            (fun e => match e with
                      | ValueError => Returned tt
                      | _ => Raised e
                      end) = Returned tt) as ->.
  { destruct Hq as [-> | [-> ->]]; reflexivity. }
  reflexivity.
Qed.

Lemma sqlite_value_error_swallowed_witness :
  Sqlite._test_with (fun _ => Returned (answering_gdb "signal SIGSEGV at a99410"))
    sample_sqlite_self (sample_sqlite_os (Raised ValueError)) [(1, 65)]
  = Returned (Verdict FAIL).
Proof.
  rewrite (sqlite_value_error_swallowed
             (fun _ => Returned (answering_gdb "signal SIGSEGV at a99410"))
             sample_sqlite_self (sample_sqlite_os (Raised ValueError)) [(1, 65)]).
  - reflexivity.
  - left. reflexivity.
Defined.

(** X11.  [MyDD._test] of dd-sqlite2.py: when the call returns, the
    target was waited for and its return code decides: PASS for 0 and
    for 1, FAIL for every other code, never UNRESOLVED; and when the
    target takes its input and exits with [r], the call returns that
    verdict. *)
Theorem sqlite2_verdict (popen : outcome process) (deltas : list Sqlite2.delta) :
  (forall (p : process) (r : Z),
      popen = Returned p ->
      Sqlite2.feed p deltas = Returned tt ->
      stdin_close p = Returned tt ->
      wait p = Returned r ->
      Sqlite2._test popen deltas
      = Returned (Verdict (if (r =? 0) || (r =? 1) then PASS else FAIL)))
  /\ (forall v : value,
         Sqlite2._test popen deltas = Returned v ->
         exists p r,
           popen = Returned p /\ wait p = Returned r
           /\ (v = Verdict PASS <-> r = 0 \/ r = 1)
           /\ (v = Verdict FAIL <-> r <> 0 /\ r <> 1)).
Proof.
  unfold Sqlite2._test. split.
  - intros p r -> Hf Hc Hw. cbn. rewrite Hf. cbn. rewrite Hc. cbn.
    rewrite Hw. cbn. destruct (r =? 0), (r =? 1); reflexivity.
  - intros v H. destruct popen as [p| |]; cbn in H; try discriminate.
    destruct (Sqlite2.feed p deltas) as [[]| |]; cbn in H; try discriminate.
    destruct (stdin_close p) as [[]| |]; cbn in H; try discriminate.
    destruct (wait p) as [r| |] eqn:Hw; cbn in H; try discriminate.
    exists p, r. split; [reflexivity|]. split; [exact Hw|].
    destruct (r =? 0) eqn:E0; [|destruct (r =? 1) eqn:E1];
      injection H as <-; split; split; try discriminate; try lia;
      try (intros _; reflexivity).
Qed.

Lemma sqlite2_verdict_witness :
  Sqlite2._test (Returned (sample_process (Returned 1))) [(1, 65)]
  = Returned (Verdict PASS).
Proof.
  apply (proj1 (sqlite2_verdict (Returned (sample_process (Returned 1)))
                  [(1, 65)]) (sample_process (Returned 1)) 1);
    reflexivity.
Defined.

End GdbVerdicts.

(** ** Strings *)

Section StringFacts.

Lemma startswith_app (p s : string) : PyStr.startswith p (p +:+ s) = true.
Proof.
  induction p as [|a p IH]; [reflexivity|].
  change (String a p +:+ s) with (String a (p +:+ s)).
  cbn [PyStr.startswith]. now rewrite Ascii.eqb_refl.
Qed.

Lemma contains_infix (sub pre post : string) :
  PyStr.contains sub (pre +:+ sub +:+ post) = true.
Proof.
  induction pre as [|a pre IH].
  - change ("" +:+ sub +:+ post) with (sub +:+ post).
    assert (forall t, PyStr.startswith sub t = true -> PyStr.contains sub t = true)
      as H by (intros [|c t] Ht; cbn [PyStr.contains]; now rewrite Ht).
    apply H, startswith_app.
  - change (String a pre +:+ sub +:+ post) with (String a (pre +:+ sub +:+ post)).
    cbn [PyStr.contains]. rewrite IH. apply orb_true_r.
Qed.

Lemma lower_app (s t : string) :
  PyStr.lower (s +:+ t) = PyStr.lower s +:+ PyStr.lower t.
Proof.
  induction s as [|a s IH]; [reflexivity|].
  change (String a s +:+ t) with (String a (s +:+ t)).
  cbn [PyStr.lower]. now rewrite IH.
Qed.

Lemma fields_nonempty (p : ascii -> bool) (s : string) : PyStr.fields p s <> [].
Proof.
  induction s as [|a s IH]; cbn; [discriminate|].
  destruct (p a); [discriminate|].
  destruct (PyStr.fields p s); [contradiction | discriminate].
Qed.

Lemma join_spaces_cons (a : string) (l : list string) :
  l <> [] -> Gdb.join_spaces (a :: l) = a +:+ " " +:+ Gdb.join_spaces l.
Proof. destruct l; [contradiction | reflexivity]. Qed.

Lemma join_spaces_push (c : ascii) (f : string) (fs : list string) :
  Gdb.join_spaces (String c f :: fs) = String c (Gdb.join_spaces (f :: fs)).
Proof. destruct fs; reflexivity. Qed.

(** [" ".join(s.split(" "))] is [s]. *)
Lemma join_split (s : string) : Gdb.join_spaces (PyStr.split " " s) = s.
Proof.
  unfold PyStr.split. induction s as [|a s IH]; [reflexivity|].
  cbn [PyStr.fields]. destruct (Ascii.eqb a " ") eqn:E.
  - apply Ascii.eqb_eq in E. subst a.
    rewrite join_spaces_cons by apply fields_nonempty. now rewrite IH.
  - destruct (PyStr.fields (fun a0 => Ascii.eqb a0 " ") s) as [|f fs] eqn:Ef.
    + exfalso. revert Ef. apply fields_nonempty.
    + rewrite join_spaces_push, IH. reflexivity.
Qed.

End StringFacts.

(** ** Running the target under gdb *)

(** X12.  gdb.py: running the target with the arguments obtained by
    cutting an argument string at its spaces, as the main programs do
    with [--target-args], sends gdb the command "r " followed by that
    very string (for the empty string, "r " with its trailing space). *)
Theorem run_of_split_args (g : Gdb.session) (target_args : string) :
  Gdb.run g (PyStr.split " " target_args) true
  = Gdb._send_command (Gdb.exchange g) ("r " +:+ target_args).
Proof.
  unfold Gdb.run.
  destruct (PyStr.split " " target_args) as [|a l] eqn:E.
  - exfalso. revert E. apply fields_nonempty.
  - rewrite <- E, join_split. reflexivity.
Qed.

(** ** The breakpoint oracle of dd-gdb-example.py *)

Lemma copy_loop {A B : Type} (deltas : list (A * B)) :
  foldl (fun data '(index, byte) => data ++ [(index, byte)]) [] deltas = deltas.
Proof.
  assert (forall acc, foldl (fun data '(index, byte) => data ++ [(index, byte)])
                        acc deltas = acc ++ deltas) as H.
  { induction deltas as [|[i b] deltas IH]; intros acc; cbn.
    - now rewrite app_nil_r.
    - rewrite IH, <- app_assoc. reflexivity. }
  apply (H []).
Qed.

(** X13.  [GdbDD._test] of dd-gdb-example.py (whatever the name [Gdb] is
    bound to): once gdb runs, the breakpoint is set and the input is
    sent, a final response that has the word "breakpoint", in any
    mixture of upper and lower case, gives FAIL, also when the response
    says that the program exited. *)
Theorem gdb_example_breakpoint_any_case
    (Gdb_ : string -> outcome Gdb.session) (self : GdbExample.self_)
    (deltas : list GdbExample.delta) (g : Gdb.session) (bp : Z * string)
    (r1 r2 pre word post : string) :
  Gdb_ (GdbExample.executable self) = Returned g ->
  Gdb.set_breakpoint (Gdb.exchange g) (GdbExample.breakpoint self) = Returned bp ->
  Gdb.run g [] false = Returned r1 ->
  Gdb.send_input_unread g (GdbExample.stringify deltas) = Returned r2 ->
  Gdb.send_EOF g = Returned (pre +:+ word +:+ post) ->
  PyStr.lower word = "breakpoint" ->
  GdbExample._test_with Gdb_ self deltas = Returned (Verdict FAIL).
Proof.
  intros Hg Hbp Hrun Hin Heof Hword. unfold GdbExample._test_with.
  rewrite copy_loop, Hg. cbn [mbind outcome_bind]. rewrite Hbp.
  cbn [mbind outcome_bind]. destruct bp as [n addr].
  rewrite Hrun. cbn [mbind outcome_bind]. rewrite Hin.
  cbn [mbind outcome_bind]. rewrite Heof. cbn [mbind outcome_bind].
  rewrite !lower_app, Hword, contains_infix. reflexivity.
Qed.

Lemma gdb_example_breakpoint_any_case_witness :
  GdbExample._test_with
    (fun _ => Returned (answering_gdb "Breakpoint 1 at 0x40 exited"))
    sample_gdb_example_self [(1, "a")]
  = Returned (Verdict FAIL).
Proof.
  apply (gdb_example_breakpoint_any_case
           (fun _ => Returned (answering_gdb "Breakpoint 1 at 0x40 exited"))
           sample_gdb_example_self [(1, "a")]
           (answering_gdb "Breakpoint 1 at 0x40 exited")
           (1, "0x40") "" "" "" "Breakpoint" " 1 at 0x40 exited");
    reflexivity.
Defined.

(** ** Reading up to the prompt *)

Section ReadToPrompt.

Import Gdb.

Lemma append_assoc (a b c : string) : (a +:+ b) +:+ c = a +:+ b +:+ c.
Proof.
  induction a as [|x a IH]; [reflexivity|].
  change (String x a +:+ b) with (String x (a +:+ b)).
  change (String x (a +:+ b) +:+ c) with (String x ((a +:+ b) +:+ c)).
  now rewrite IH.
Qed.

Lemma append_nil_r (a : string) : a +:+ "" = a.
Proof.
  induction a as [|x a IH]; [reflexivity|].
  change (String x a +:+ "") with (String x (a +:+ "")). now rewrite IH.
Qed.

Lemma endswith_app (suffix d l : string) :
  PyStr.endswith suffix l = true -> PyStr.endswith suffix (d +:+ l) = true.
Proof.
  intros H. induction d as [|x d IH]; [exact H|].
  change (String x d +:+ l) with (String x (d +:+ l)).
  cbn [PyStr.endswith]. rewrite IH. apply orb_true_r.
Qed.

(** What the loop has taken from the pipe when it ends is the prompt,
    after the lines it returns. *)
Lemma read_loop_consumes (prompt : string) (stdout : list read1) :
  forall data line data' rest,
    read_loop prompt data line stdout = Returned (data', rest) ->
    data +:+ line +:+ text_of stdout = data' +:+ prompt +:+ text_of rest.
Proof.
  induction stdout as [|[a|] stdout IH]; intros data line data' rest;
    cbn [read_loop]; destruct (String.eqb_spec line prompt) as [->|Hne];
    cbn [negb]; try (intros [= <- <-]; reflexivity); try discriminate.
  - destruct (PyStr.endswith PyStr.newline (line +:+ String a "")); intros H;
      apply IH in H; rewrite <- H; cbn [text_of].
    + change ("" +:+ text_of stdout) with (text_of stdout).
      rewrite !append_assoc. reflexivity.
    + rewrite !append_assoc. reflexivity.
  - intros H. apply IH in H. exact H.
Qed.

Lemma read_loop_lines (prompt : string) (stdout : list read1) :
  forall data line data' rest,
    data = "" \/ PyStr.endswith PyStr.newline data = true ->
    read_loop prompt data line stdout = Returned (data', rest) ->
    data' = "" \/ PyStr.endswith PyStr.newline data' = true.
Proof.
  induction stdout as [|[a|] stdout IH]; intros data line data' rest Hd;
    cbn [read_loop]; destruct (String.eqb_spec line prompt) as [->|Hne];
    cbn [negb]; try (intros [= <- <-]; exact Hd); try discriminate.
  - destruct (PyStr.endswith PyStr.newline (line +:+ String a "")) eqn:E;
      intros H; apply IH in H; try assumption.
    right. now apply endswith_app.
  - intros H. now apply IH in H.
Qed.

(** X14.  [Gdb.read_to_prompt]: when it returns, what it has read from
    the pipe is exactly the text it returns followed by the prompt (the
    rest is left unread), and the text it returns is empty or ends with
    a newline. *)
Theorem read_to_prompt_consumes (prompt : string) (stdout : list read1)
    (data : string) (rest : list read1) :
  read_to_prompt prompt stdout = Returned (data, rest) ->
  text_of stdout = data +:+ prompt +:+ text_of rest
  /\ (data = "" \/ PyStr.endswith PyStr.newline data = true).
Proof.
  intros H. split.
  - apply read_loop_consumes in H. exact H.
  - apply read_loop_lines in H; auto.
Qed.

Lemma read_to_prompt_consumes_witness :
  text_of sample_stdout
  = unlines sample_banner +:+ "(gdb) " +:+ text_of (chars "r")
  /\ (unlines sample_banner = ""
      \/ PyStr.endswith PyStr.newline (unlines sample_banner) = true).
Proof.
  apply (read_to_prompt_consumes "(gdb) " sample_stdout).
  reflexivity.
Defined.

Lemma endswith_newline_snoc (line : string) (a : ascii) :
  PyStr.endswith PyStr.newline (line +:+ String a "")
  = Ascii.eqb a "010".
Proof.
  induction line as [|x line IH].
  - change ("" +:+ String a "") with (String a "").
    cbn [PyStr.endswith]. unfold PyStr.newline.
    destruct (Ascii.eqb_spec a "010") as [->|Hne].
    + reflexivity.
    + destruct (String.eqb_spec (String "010" "") (String a "")) as [[= E]|_];
        [congruence | reflexivity].
  - change (String x line +:+ String a "") with (String x (line +:+ String a "")).
    cbn [PyStr.endswith]. rewrite IH.
    destruct (String.eqb_spec PyStr.newline (String x (line +:+ String a "")))
      as [E|_]; [|reflexivity].
    exfalso. unfold PyStr.newline in E. injection E as _ E.
    destruct line; discriminate.
Qed.

Lemma contains_newline_cons (x : ascii) (s : string) :
  PyStr.contains PyStr.newline (String x s)
  = Ascii.eqb "010" x || PyStr.contains PyStr.newline s.
Proof.
  cbn [PyStr.contains]. f_equal. unfold PyStr.newline. cbn [PyStr.startswith].
  destruct (Ascii.eqb "010" x); reflexivity.
Qed.

Lemma contains_newline_snoc (line : string) (a : ascii) :
  PyStr.contains PyStr.newline (line +:+ String a "")
  = PyStr.contains PyStr.newline line || Ascii.eqb a "010".
Proof.
  induction line as [|x line IH].
  - change ("" +:+ String a "") with (String a "").
    rewrite contains_newline_cons. rewrite Ascii.eqb_sym.
    destruct (Ascii.eqb a "010"); reflexivity.
  - change (String x line +:+ String a "") with (String x (line +:+ String a "")).
    rewrite !contains_newline_cons, IH. now rewrite orb_assoc.
Qed.

(** A line never holds a newline at the head of the loop. *)
Lemma read_loop_newline_prompt (prompt : string) (stdout : list read1) :
  PyStr.contains PyStr.newline prompt = true ->
  forall data line,
    PyStr.contains PyStr.newline line = false ->
    read_loop prompt data line stdout = Blocked.
Proof.
  intros Hp. induction stdout as [|[a|] stdout IH]; intros data line Hl;
    cbn [read_loop]; destruct (String.eqb_spec line prompt) as [->|Hne];
    cbn [negb]; try congruence; try reflexivity.
  - rewrite endswith_newline_snoc. destruct (Ascii.eqb a "010") eqn:E.
    + apply IH. reflexivity.
    + apply IH. rewrite contains_newline_snoc, Hl, E. reflexivity.
  - now apply IH.
Qed.

(** X15.  [Gdb.read_to_prompt] never finds a prompt that has a newline
    in it: whatever gdb prints, the call does not come back. *)
Theorem read_to_prompt_newline_in_prompt (prompt : string)
    (stdout : list read1) :
  PyStr.contains PyStr.newline prompt = true ->
  read_to_prompt prompt stdout = Blocked.
Proof.
  intros Hp. apply read_loop_newline_prompt; [assumption | reflexivity].
Qed.

Lemma read_to_prompt_newline_in_prompt_witness :
  read_to_prompt ("(gdb)" +:+ PyStr.newline)
    (chars ("(gdb)" +:+ PyStr.newline +:+ "(gdb)" +:+ PyStr.newline))
  = Blocked.
Proof.
  apply (read_to_prompt_newline_in_prompt ("(gdb)" +:+ PyStr.newline)).
  reflexivity.
Defined.

Lemma chars_app (s t : string) : chars (s +:+ t) = chars s ++ chars t.
Proof.
  induction s as [|a s IH]; [reflexivity|].
  change (String a s +:+ t) with (String a (s +:+ t)).
  cbn [chars app]. now rewrite IH.
Qed.

Lemma append_cons_neq (line : string) (a : ascii) (q : string) :
  line <> line +:+ String a q.
Proof.
  induction line as [|x line IH]; [discriminate|].
  change (String x line +:+ String a q) with (String x (line +:+ String a q)).
  intros [= E]. now apply IH.
Qed.

Lemma startswith_self_app (p l : string) :
  PyStr.startswith p (p +:+ l) = false -> False.
Proof. rewrite startswith_app. discriminate. Qed.

(** One line that does not begin with the prompt is read whole. *)
Lemma read_loop_line (prompt : string) (l : string) :
  forall data line more rest,
    PyStr.startswith prompt (line +:+ l) = false ->
    PyStr.contains PyStr.newline l = false ->
    read_loop prompt data line (chars (l +:+ PyStr.newline +:+ more) ++ rest)
    = read_loop prompt (data +:+ line +:+ l +:+ PyStr.newline) ""
        (chars more ++ rest).
Proof.
  induction l as [|a l IH]; intros data line more rest Hs Hn.
  - change ("" +:+ PyStr.newline +:+ more) with (String "010" more).
    cbn [chars app read_loop].
    destruct (String.eqb_spec line prompt) as [->|Hne].
    { exfalso. now apply (startswith_self_app prompt ""). }
    cbn [negb]. rewrite endswith_newline_snoc, Ascii.eqb_refl.
    reflexivity.
  - change (String a l +:+ PyStr.newline +:+ more)
      with (String a (l +:+ PyStr.newline +:+ more)).
    cbn [chars app read_loop].
    destruct (String.eqb_spec line prompt) as [->|Hne].
    { exfalso. now apply (startswith_self_app prompt (String a l)). }
    cbn [negb]. rewrite contains_newline_cons in Hn.
    apply orb_false_elim in Hn as [Ha Hn].
    rewrite endswith_newline_snoc, (Ascii.eqb_sym a "010"), Ha.
    rewrite IH.
    + rewrite !append_assoc. reflexivity.
    + rewrite append_assoc. exact Hs.
    + exact Hn.
Qed.

(** The prompt itself, once a line has begun with part of it. *)
Lemma read_loop_prompt (prompt : string) (q : string) :
  forall data line rest,
    prompt = line +:+ q ->
    PyStr.contains PyStr.newline q = false ->
    read_loop prompt data line (chars q ++ rest) = Returned (data, rest).
Proof.
  induction q as [|a q IH]; intros data line rest Hp Hn.
  - rewrite append_nil_r in Hp. subst line.
    destruct rest as [|[c|] rest]; cbn [chars app read_loop];
      now rewrite String.eqb_refl.
  - cbn [chars app read_loop].
    destruct (String.eqb_spec line prompt) as [E|Hne].
    { exfalso. rewrite Hp in E. now apply append_cons_neq in E. }
    cbn [negb]. rewrite contains_newline_cons in Hn.
    apply orb_false_elim in Hn as [Ha Hn].
    rewrite endswith_newline_snoc, (Ascii.eqb_sym a "010"), Ha.
    apply IH; [|exact Hn]. now rewrite append_assoc.
Qed.

Lemma read_loop_lines_then_prompt (prompt : string) (lines : list string) :
  prompt <> "" ->
  PyStr.contains PyStr.newline prompt = false ->
  Forall (fun l => PyStr.contains PyStr.newline l = false
                   /\ PyStr.startswith prompt l = false) lines ->
  forall data rest,
    read_loop prompt data "" (chars (unlines lines +:+ prompt) ++ rest)
    = Returned (data +:+ unlines lines, rest).
Proof.
  intros Hne Hp. induction 1 as [|l lines [Hl Hs] _ IH]; intros data rest.
  - change (unlines [] +:+ prompt) with prompt.
    cbn [unlines]. rewrite append_nil_r.
    apply read_loop_prompt; [reflexivity | assumption].
  - cbn [unlines]. rewrite !append_assoc.
    rewrite read_loop_line by assumption.
    rewrite IH. change ("" +:+ l +:+ PyStr.newline) with (l +:+ PyStr.newline).
    rewrite !append_assoc. reflexivity.
Qed.

(** X16.  [Gdb.read_to_prompt]: if gdb prints complete lines, none of
    which begins with the prompt, and then the prompt (not empty, with
    no newline in it), the call returns exactly those lines and leaves
    unread whatever follows the prompt. *)
Theorem read_to_prompt_round_trip (prompt : string) (lines : list string)
    (rest : list read1) :
  prompt <> "" ->
  PyStr.contains PyStr.newline prompt = false ->
  Forall (fun l => PyStr.contains PyStr.newline l = false
                   /\ PyStr.startswith prompt l = false) lines ->
  read_to_prompt prompt (chars (unlines lines +:+ prompt) ++ rest)
  = Returned (unlines lines, rest).
Proof.
  intros Hne Hp Hall. unfold read_to_prompt.
  now rewrite read_loop_lines_then_prompt.
Qed.

Lemma read_to_prompt_round_trip_witness :
  read_to_prompt "(gdb) " sample_stdout
  = Returned (unlines sample_banner, chars "r").
Proof.
  apply (read_to_prompt_round_trip "(gdb) " sample_banner (chars "r")).
  - discriminate.
  - reflexivity.
  - repeat constructor.
Defined.

End ReadToPrompt.

(** ** The target of the tracer *)

Section TracerTarget.

Import GdbTracerTarget.

Lemma entry_point_loop_skip (before rest : list string) :
  Forall (fun l => PyStr.startswith "Entry point: " (PyStr.strip l) = false)
    before ->
  entry_point_loop (before ++ rest) = entry_point_loop rest.
Proof.
  induction 1 as [|l before Hl _ IH]; [reflexivity|].
  cbn [app entry_point_loop]. now rewrite Hl.
Qed.

(** X17.  [GdbTracer._determine_entry_point] reads the entry point from
    the first line of gdb's answer that, stripped, starts with
    "Entry point: ": what follows the marker is read as a hexadecimal
    number (ValueError if it is none), whatever the lines after it
    hold; and when no line starts with the marker, the method returns
    [None] instead of raising. *)
Theorem entry_point_first_line (io : Gdb.gdb_io) (response : string) :
  Gdb._send_command io "info target" = Returned response ->
  (Forall (fun l => PyStr.startswith "Entry point: " (PyStr.strip l) = false)
     (PyStr.splitlines response) ->
   _determine_entry_point io = Returned None)
  /\ (forall before line after,
         PyStr.splitlines response = before ++ line :: after ->
         Forall (fun l => PyStr.startswith "Entry point: " (PyStr.strip l) = false)
           before ->
         PyStr.startswith "Entry point: " (PyStr.strip line) = true ->
         _determine_entry_point io
         = match PyStr.int16 (PyStr.slice_from 13 (PyStr.strip line)) with
           | Some z => Returned (Some z)
           | None => Raised ValueError
           end).
Proof.
  intros Hr. unfold _determine_entry_point. rewrite Hr.
  cbn [mbind outcome_bind]. split.
  - intros Hall. rewrite <- (app_nil_r (PyStr.splitlines response)).
    now rewrite entry_point_loop_skip.
  - intros before line after -> Hall Hl.
    rewrite entry_point_loop_skip by assumption.
    cbn [entry_point_loop]. now rewrite Hl.
Qed.

Lemma entry_point_first_line_witness :
  _determine_entry_point (fun _ => Returned sample_info_target)
  = Returned (Some 4198464).
Proof.
  pose proof (entry_point_first_line (fun _ => Returned sample_info_target)
                (PyStr.strip (PyStr.strip sample_info_target)) eq_refl)
    as [_ H].
  apply (H ["Symbols from /tmp/t."; "Local exec file:";
            "        `/tmp/t', file type elf64-x86-64."]
           "        Entry point: 0x401040"
           ["        0x0000000000401000 - 0x0000000000401020 is .init";
            "        0x0000000000401020 - 0x0000000000401185 is .text";
            "        0x00007ffff7fc5238 - 0x00007ffff7fc525c is .note in /lib64/ld.so"]).
  - reflexivity.
  - repeat constructor.
  - reflexivity.
Defined.

Lemma kansas_false_iff (ranges : list GdbTracer.range) (pc : Z) :
  GdbTracer._we_are_not_in_kansas_anymore ranges pc = false
  <-> exists s e, (s, e) ∈ ranges /\ s <= pc <= e.
Proof.
  induction ranges as [|[s e] ranges IH]; cbn.
  - split; [discriminate|]. intros (s & e & H & _). inversion H.
  - destruct ((s <=? pc) && (pc <=? e)) eqn:E.
    + split; [|reflexivity]. intros _. exists s, e. split; [left|lia].
    + rewrite IH. split.
      * intros (s' & e' & H & Hb). exists s', e'. split; [now right|assumption].
      * intros (s' & e' & H & Hb).
        apply elem_of_cons in H as [[= -> ->]|H]; [lia|]. eauto.
Qed.

Lemma consolidate_nonempty_classification (ranges : list GdbTracer.range)
    (pc : Z) :
  ranges <> [] ->
  Forall (fun r => fst r < snd r) ranges ->
  GdbTracer._we_are_not_in_kansas_anymore
    (GdbTracer._consolidate_target_ranges ranges) pc
  = GdbTracer._we_are_not_in_kansas_anymore ranges pc.
Proof.
  intros Hne Hall. destruct ranges as [|[s e] ranges]; [contradiction|].
  apply Forall_cons in Hall as [Hse Hall]. cbn in Hse.
  unfold GdbTracer._consolidate_target_ranges. cbn [foldl].
  rewrite consolidate_first_step.
  destruct (consolidate_loop ranges [] s e Hse Hall)
    as (c' & ps' & pe' & Hf & _ & Hk).
  rewrite Hf, Hk. cbn.
  destruct ((s <=? pc) && (pc <=? e)); reflexivity.
Qed.

(** The loop appends the range of each line of the executable, in
    order, and nothing else. *)
Lemma range_loop_parses (lines : list string) :
  forall acc rs,
    range_loop acc lines = Returned rs ->
    exists parsed,
      rs = acc ++ parsed
      /\ Forall2 (fun l r => range_of_line l = Returned r)
           (List.filter of_executable (map PyStr.strip lines)) parsed.
Proof.
  induction lines as [|line lines IH]; intros acc rs.
  - cbn. intros [= <-]. exists []. rewrite app_nil_r. split; constructor.
  - cbn [range_loop map List.filter]. unfold of_executable at 1.
    destruct (PyStr.startswith "0x" (PyStr.strip line)); cbn [negb andb];
      [|apply IH].
    destruct (PyStr.contains " in " (PyStr.strip line)); cbn [negb];
      [apply IH|].
    destruct (range_of_line (PyStr.strip line)) as [r| |] eqn:Hr;
      cbn [mbind outcome_bind]; try discriminate.
    intros H. apply IH in H as (parsed & -> & Hall).
    exists (r :: parsed). rewrite <- app_assoc. split; [reflexivity|].
    now constructor.
Qed.

(** X18.  [GdbTracer._determine_executable_range]: when it returns, the
    ranges it leaves classify an address as inside the target exactly
    when the address lies within the range of some address line of
    gdb's answer that is not a library line (a line with " in "),
    provided there is such a line and each has its start below its end;
    with no such line at all the ranges are the single range (0, 0). *)
Theorem executable_range_classifies (io : Gdb.gdb_io) (response : string)
    (target_ranges : list GdbTracer.range) :
  Gdb._send_command io "info target" = Returned response ->
  _determine_executable_range io = Returned target_ranges ->
  exists parsed,
    Forall2 (fun l r => range_of_line l = Returned r)
      (List.filter of_executable (map PyStr.strip (PyStr.splitlines response)))
      parsed
    /\ (parsed = [] -> target_ranges = [(0, 0)])
    /\ (parsed <> [] ->
        Forall (fun r => fst r < snd r) parsed ->
        forall pc,
          GdbTracer._we_are_not_in_kansas_anymore target_ranges pc = false
          <-> exists line s e,
              line ∈ map PyStr.strip (PyStr.splitlines response)
              /\ of_executable line = true
              /\ range_of_line line = Returned (s, e)
              /\ s <= pc <= e).
Proof.
  intros Hr H. unfold _determine_executable_range in H. rewrite Hr in H.
  cbn [mbind outcome_bind] in H.
  destruct (range_loop [] (PyStr.splitlines response)) as [rs| |] eqn:Hl;
    cbn [mbind outcome_bind] in H; try discriminate.
  injection H as <-.
  apply range_loop_parses in Hl as (parsed & -> & Hall). cbn [app].
  exists parsed. split; [assumption|]. split; [intros ->; reflexivity|].
  intros Hne Hproper pc.
  rewrite consolidate_nonempty_classification by assumption.
  rewrite kansas_false_iff. split.
  - intros (s & e & Hin & Hb).
    apply list_elem_of_lookup in Hin as [i Hi].
    destruct (Forall2_lookup_r _ _ _ _ _ Hall Hi) as (line & Hline & Hparse).
    exists line, s, e.
    assert (line ∈ List.filter of_executable
                     (map PyStr.strip (PyStr.splitlines response))) as Hf
      by (apply list_elem_of_lookup; eauto).
    apply list_elem_of_In, filter_In in Hf as [Hf1 Hf2].
    repeat split; try assumption; try lia. now apply list_elem_of_In.
  - intros (line & s & e & Hin & Hexe & Hparse & Hb).
    assert (line ∈ List.filter of_executable
                     (map PyStr.strip (PyStr.splitlines response))) as Hf.
    { apply list_elem_of_In, filter_In. split; [now apply list_elem_of_In|assumption]. }
    apply list_elem_of_lookup in Hf as [i Hi].
    destruct (Forall2_lookup_l _ _ _ _ _ Hall Hi) as (r & Hr' & Hparse').
    rewrite Hparse in Hparse'. injection Hparse' as <-.
    exists s, e. split; [|assumption]. apply list_elem_of_lookup. eauto.
Qed.

Lemma executable_range_classifies_witness :
  exists parsed,
    Forall2 (fun l r => range_of_line l = Returned r)
      (List.filter of_executable
         (map PyStr.strip
            (PyStr.splitlines (PyStr.strip (PyStr.strip sample_info_target)))))
      parsed
    /\ (parsed = [] -> [(4198400, 4198789)] = [(0, 0)])
    /\ (parsed <> [] ->
        Forall (fun r => fst r < snd r) parsed ->
        forall pc,
          GdbTracer._we_are_not_in_kansas_anymore [(4198400, 4198789)] pc = false
          <-> exists line s e,
              line ∈ map PyStr.strip
                       (PyStr.splitlines (PyStr.strip (PyStr.strip sample_info_target)))
              /\ of_executable line = true
              /\ range_of_line line = Returned (s, e)
              /\ s <= pc <= e).
Proof.
  apply (executable_range_classifies (fun _ => Returned sample_info_target));
    reflexivity.
Defined.

End TracerTarget.

(** ** The registers *)

Section Registers.

Import GdbRegisters.

(** A line of the listing that [info_registers] can read: at least two
    words, the second a hexadecimal number. *)
Lemma register_loop_step (retval : gmap string Z) (line : string)
    (rest : list string) (m : gmap string Z) :
  register_loop retval (line :: rest) = Returned m ->
  exists p0 p1 tail v,
    PyStr.words line = p0 :: p1 :: tail
    /\ PyStr.int16 p1 = Some v
    /\ register_loop (<[p0 := v]> retval) rest = Returned m.
Proof.
  cbn [register_loop]. unfold PyStr.index.
  destruct (PyStr.words line) as [|p0 [|p1 tail]]; cbn; try discriminate.
  destruct (PyStr.int16 p1) as [v|] eqn:Hv; cbn [mbind outcome_bind];
    [|discriminate].
  intros H. exists p0, p1, tail, v. auto.
Qed.

Lemma register_loop_lookup (lines : list string) :
  forall (retval m : gmap string Z) (r : string) (v : Z),
    register_loop retval lines = Returned m ->
    m !! r = Some v
    <-> (exists before line after p1 tail,
            lines = before ++ line :: after
            /\ PyStr.words line = r :: p1 :: tail
            /\ PyStr.int16 p1 = Some v
            /\ Forall (fun l => head (PyStr.words l) <> Some r) after)
        \/ (retval !! r = Some v
            /\ Forall (fun l => head (PyStr.words l) <> Some r) lines).
Proof.
  induction lines as [|line rest IH]; intros retval m r v Hm.
  - cbn in Hm. injection Hm as <-. split.
    + intros H. right. split; [assumption | constructor].
    + intros [(before & l & after & p1 & tail & H & _) | [H _]];
        [destruct before; discriminate | assumption].
  - apply register_loop_step in Hm as (p0 & p1 & tail & v0 & Hw & Hv & Hm).
    rewrite (IH _ _ r v Hm). split.
    + intros [(before & l & after & q1 & t & -> & Hl & Hq & Hafter) | [Hins Hrest]].
      * left. exists (line :: before), l, after, q1, t. auto.
      * destruct (decide (p0 = r)) as [->|Hne].
        -- rewrite lookup_insert_eq in Hins. injection Hins as ->.
           left. exists [], line, rest, p1, tail. auto.
        -- rewrite lookup_insert_ne in Hins by assumption.
           right. split; [assumption|]. constructor; [|assumption].
           rewrite Hw. cbn. congruence.
    + intros [(before & l & after & q1 & t & Heq & Hl & Hq & Hafter) | [Hret Hall]].
      * destruct before as [|b before]; cbn in Heq; injection Heq as <- ->.
        -- right. rewrite Hw in Hl. injection Hl as <- <- <-.
           rewrite Hv in Hq. injection Hq as <-.
           rewrite lookup_insert_eq. auto.
        -- left. exists before, l, after, q1, t. auto.
      * apply Forall_cons in Hall as [Hline Hall]. right.
        rewrite Hw in Hline. cbn in Hline.
        rewrite lookup_insert_ne by congruence. auto.
Qed.

(** X19.  [Gdb.info_registers]: when it returns, a register has a value
    in the result exactly when some line of gdb's answer has the
    register as its first word, and the value is the hexadecimal number
    in the second word of the last such line. *)
Theorem info_registers_lookup (io : Gdb.gdb_io) (registers : list string)
    (m : gmap string Z) :
  info_registers io registers = Returned m ->
  exists response,
    _info io ("registers" :: registers) = Returned response
    /\ forall (r : string) (v : Z),
        m !! r = Some v
        <-> exists before line after p1 tail,
            PyStr.splitlines response = before ++ line :: after
            /\ PyStr.words line = r :: p1 :: tail
            /\ PyStr.int16 p1 = Some v
            /\ Forall (fun l => head (PyStr.words l) <> Some r) after.
Proof.
  unfold info_registers.
  assert (match registers with
          | [] => ["registers"]
          | _ :: _ => ["registers"] ++ registers
          end = "registers" :: registers) as -> by (destruct registers; reflexivity).
  destruct (_info io ("registers" :: registers)) as [response| |];
    cbn [mbind outcome_bind]; try discriminate.
  intros H. exists response. split; [reflexivity|]. intros r v.
  rewrite (register_loop_lookup _ _ _ r v H). split.
  - intros [H1 | [H1 _]]; [assumption|].
    rewrite lookup_empty in H1. discriminate.
  - auto.
Qed.

Lemma info_registers_lookup_witness :
  exists response,
    _info (fun _ => Returned sample_registers) ["registers"] = Returned response
    /\ exists m,
        info_registers (fun _ => Returned sample_registers) [] = Returned m
        /\ forall (r : string) (v : Z),
          m !! r = Some v
          <-> exists before line after p1 tail,
              PyStr.splitlines response = before ++ line :: after
              /\ PyStr.words line = r :: p1 :: tail
              /\ PyStr.int16 p1 = Some v
              /\ Forall (fun l => head (PyStr.words l) <> Some r) after.
Proof.
  destruct (info_registers (fun _ => Returned sample_registers) [])
    as [m| |] eqn:E; try (vm_compute in E; discriminate).
  destruct (info_registers_lookup _ _ _ E) as (response & Hr & H).
  exists response. split; [exact Hr|]. exists m. split; [reflexivity|exact H].
Defined.

Lemma register_loop_skip (before rest : list string) :
  forall retval,
    Forall (fun l => exists p0 p1 tail v,
                PyStr.words l = p0 :: p1 :: tail /\ PyStr.int16 p1 = Some v)
      before ->
    exists retval',
      register_loop retval (before ++ rest) = register_loop retval' rest.
Proof.
  intros retval H. revert retval.
  induction H as [|l before (p0 & p1 & tail & v & Hw & Hv) _ IH]; intros retval.
  - exists retval. reflexivity.
  - destruct (IH (<[p0 := v]> retval)) as [retval' Hr]. exists retval'.
    cbn [app register_loop]. rewrite Hw. unfold PyStr.index. cbn.
    rewrite Hv. cbn. exact Hr.
Qed.

(** X20.  [Gdb.info_registers] stops at the first line of gdb's answer
    that it cannot read: with IndexError if the line has fewer than two
    words, with ValueError if its second word is not a hexadecimal
    number. *)
Theorem info_registers_unreadable_line (io : Gdb.gdb_io)
    (registers : list string) (response : string)
    (before : list string) (line : string) (after : list string) :
  _info io ("registers" :: registers) = Returned response ->
  PyStr.splitlines response = before ++ line :: after ->
  Forall (fun l => exists p0 p1 tail v,
              PyStr.words l = p0 :: p1 :: tail /\ PyStr.int16 p1 = Some v)
    before ->
  ((length (PyStr.words line) < 2)%nat ->
   info_registers io registers = Raised IndexError)
  /\ (forall p0 p1 tail,
         PyStr.words line = p0 :: p1 :: tail ->
         PyStr.int16 p1 = None ->
         info_registers io registers = Raised ValueError).
Proof.
  intros Hr Hl Hgood. unfold info_registers.
  assert (match registers with
          | [] => ["registers"]
          | _ :: _ => ["registers"] ++ registers
          end = "registers" :: registers) as -> by (destruct registers; reflexivity).
  rewrite Hr. cbn [mbind outcome_bind]. rewrite Hl.
  destruct (register_loop_skip before (line :: after) ∅ Hgood) as [retval' ->].
  cbn [register_loop]. unfold PyStr.index. split.
  - intros Hlen. destruct (PyStr.words line) as [|p0 [|p1 tail]];
      cbn in Hlen |- *; [reflexivity | reflexivity | lia].
  - intros p0 p1 tail -> Hv. cbn. rewrite Hv. reflexivity.
Qed.

Lemma info_registers_unreadable_line_witness :
  info_registers (fun _ => Returned "The program has no registers now.") ["rip"]
  = Raised ValueError.
Proof.
  apply (proj2 (info_registers_unreadable_line
                  (fun _ => Returned "The program has no registers now.")
                  ["rip"] "The program has no registers now."
                  [] "The program has no registers now." []
                  eq_refl eq_refl (Forall_nil_2 _))
           "The" "program" ["has"; "no"; "registers"; "now."]);
    reflexivity.
Defined.

Lemma register_loop_listed (lines : list string) :
  forall (retval m : gmap string Z) (r : string),
    register_loop retval lines = Returned m ->
    is_Some (m !! r)
    <-> is_Some (retval !! r)
        \/ exists line, line ∈ lines /\ head (PyStr.words line) = Some r.
Proof.
  induction lines as [|line rest IH]; intros retval m r Hm.
  - cbn in Hm. injection Hm as <-. split; [auto|].
    intros [H | (l & H & _)]; [assumption | inversion H].
  - apply register_loop_step in Hm as (p0 & p1 & tail & v0 & Hw & Hv & Hm).
    rewrite (IH _ _ r Hm). split.
    + intros [Hins | (l & Hin & Hl)].
      * destruct (decide (p0 = r)) as [->|Hne].
        -- right. exists line. split; [left|]. now rewrite Hw.
        -- rewrite lookup_insert_ne in Hins by assumption. auto.
      * right. exists l. split; [now right | assumption].
    + intros [Hret | (l & Hin & Hl)].
      * left. destruct (decide (p0 = r)) as [->|Hne].
        -- rewrite lookup_insert_eq. eauto.
        -- now rewrite lookup_insert_ne.
      * apply elem_of_cons in Hin as [->|Hin].
        -- left. rewrite Hw in Hl. injection Hl as ->.
           rewrite lookup_insert_eq. eauto.
        -- right. eauto.
Qed.

(** X21.  [Gdb._determine_pc], once [info_registers] has returned the
    registers: it chooses "rip" if a line of gdb's answer has it as its
    first word, else "eip" if one has that, else "pc" if one has that,
    and raises GdbException exactly when no line starts with any of the
    three. *)
Theorem determine_pc_choice (io : Gdb.gdb_io) (response : string)
    (m : gmap string Z) :
  _info io ["registers"] = Returned response ->
  info_registers io [] = Returned m ->
  let listed r :=
    exists line, line ∈ PyStr.splitlines response
                 /\ head (PyStr.words line) = Some r in
  (listed "rip" -> _determine_pc io = Returned ("rip", m))
  /\ (~ listed "rip" -> listed "eip" -> _determine_pc io = Returned ("eip", m))
  /\ (~ listed "rip" -> ~ listed "eip" -> listed "pc" ->
      _determine_pc io = Returned ("pc", m))
  /\ ((exists msg, _determine_pc io = Raised (GdbException msg))
      <-> ~ listed "rip" /\ ~ listed "eip" /\ ~ listed "pc").
Proof.
  intros Hr Hm listed. unfold _determine_pc. rewrite Hm.
  cbn [mbind outcome_bind].
  assert (forall r, is_Some (m !! r) <-> listed r) as Hl.
  { intros r. unfold info_registers in Hm. cbv beta iota zeta in Hm.
    rewrite Hr in Hm. cbn [mbind outcome_bind] in Hm.
    rewrite (register_loop_listed _ _ _ r Hm). split; [|auto].
    intros [H|H]; [|assumption]. rewrite lookup_empty in H.
    now apply is_Some_None in H. }
  split; [|split; [|split; [|split]]].
  - intros H. apply Hl in H. now rewrite bool_decide_eq_true_2.
  - intros H1 H2. rewrite <- Hl in H1, H2.
    rewrite bool_decide_eq_false_2 by assumption.
    now rewrite bool_decide_eq_true_2.
  - intros H1 H2 H3. rewrite <- Hl in H1, H2, H3.
    rewrite !bool_decide_eq_false_2 by assumption.
    now rewrite bool_decide_eq_true_2.
  - intros [msg H]. rewrite <- !Hl.
    destruct (decide (is_Some (m !! "rip"))) as [Y|N1];
      [rewrite bool_decide_eq_true_2 in H by assumption; discriminate|].
    rewrite bool_decide_eq_false_2 in H by assumption.
    destruct (decide (is_Some (m !! "eip"))) as [Y|N2];
      [rewrite bool_decide_eq_true_2 in H by assumption; discriminate|].
    rewrite bool_decide_eq_false_2 in H by assumption.
    destruct (decide (is_Some (m !! "pc"))) as [Y|N3];
      [rewrite bool_decide_eq_true_2 in H by assumption; discriminate|].
    auto.
  - intros (H1 & H2 & H3). rewrite <- Hl in H1, H2, H3.
    rewrite !bool_decide_eq_false_2 by assumption. eauto.
Qed.

Lemma determine_pc_choice_witness :
  exists m,
    _determine_pc (fun _ => Returned sample_registers) = Returned ("rip", m).
Proof.
  destruct (info_registers (fun _ => Returned sample_registers) [])
    as [m| |] eqn:E; try (vm_compute in E; discriminate).
  exists m.
  apply (proj1 (determine_pc_choice (fun _ => Returned sample_registers)
                  (PyStr.strip (PyStr.strip sample_registers)) m eq_refl E)).
  exists "rip            0x401136            0x401136 <main+4>".
  split; [|reflexivity].
  vm_compute. right. left.
Defined.

End Registers.

(** ** The start of the traced program *)

Section StartProgram.

Import GdbTracerTarget.

Lemma find_at_found (sub : string) :
  forall (s : string) (pos : Z),
    0 <= pos -> (PyStr.find_at sub s pos <? 0) = negb (PyStr.contains sub s).
Proof.
  induction s as [|a r IH]; intros pos Hpos; cbn [PyStr.find_at PyStr.contains].
  - destruct (PyStr.startswith sub ""); cbn; lia.
  - destruct (PyStr.startswith sub (String a r)); cbn [orb negb].
    + lia.
    + apply IH. lia.
Qed.

Lemma string_length_app (a b : string) :
  String.length (a +:+ b) = (String.length a + String.length b)%nat.
Proof. induction a as [|x a IH]; simpl; [reflexivity | now f_equal]. Qed.

Lemma slice_from_app (a b : string) (n : nat) :
  PyStr.slice_from (String.length a + n) (a +:+ b) = PyStr.slice_from n b.
Proof. induction a as [|x a IH]; simpl; [reflexivity | exact IH]. Qed.

Lemma slice_to_app (a b : string) :
  PyStr.slice_to (String.length a) (a +:+ b) = a.
Proof. induction a as [|x a IH]; simpl; [now destruct b | now f_equal]. Qed.

(** The search stops at the first position where [sub] starts. *)
Lemma find_at_first (sub rest : string) :
  forall (pre : string) (pos : Z),
    (forall k, (k < String.length pre)%nat ->
       PyStr.startswith sub (PyStr.slice_from k (pre +:+ rest)) = false) ->
    PyStr.startswith sub rest = true ->
    PyStr.find_at sub (pre +:+ rest) pos = pos + Z.of_nat (String.length pre).
Proof.
  induction pre as [|a pre IH]; intros pos Hpre Hrest.
  - change ("" +:+ rest) with rest. cbn [String.length].
    destruct rest; cbn [PyStr.find_at]; rewrite Hrest; lia.
  - change (String a pre +:+ rest) with (String a (pre +:+ rest)).
    cbn [PyStr.find_at].
    pose proof (Hpre 0%nat ltac:(cbn; lia)) as H0.
    change (PyStr.startswith sub (String a (pre +:+ rest)) = false) in H0.
    rewrite H0.
    rewrite IH; [cbn [String.length]; lia | | assumption].
    intros k Hk. apply (Hpre (S k)). cbn. lia.
Qed.

Lemma find_at_newline (post : string) :
  forall (name : string) (pos : Z),
    PyStr.contains PyStr.newline name = false ->
    PyStr.find_at PyStr.newline (name +:+ PyStr.newline +:+ post) pos
    = pos + Z.of_nat (String.length name).
Proof.
  induction name as [|a name IH]; intros pos Hname.
  - unfold PyStr.newline. simpl. lia.
  - change (String a name +:+ PyStr.newline +:+ post)
      with (String a (name +:+ PyStr.newline +:+ post)).
    cbn [PyStr.contains] in Hname. apply orb_false_iff in Hname as [Ha Hname].
    cbn [PyStr.find_at]. cbn [PyStr.startswith PyStr.newline] in Ha |- *.
    destruct (Ascii.eqb "010" a); [discriminate|].
    rewrite IH by assumption. cbn [String.length]. lia.
Qed.

(** X22.  [GdbTracer._start_program] raises NameError when the global
    [g] is unbound; otherwise, once gdb has answered the run command, it
    raises GdbException with the whole answer in its message exactly
    when the answer does not contain "Starting program: ", and returns
    the answer unchanged in every other case. *)
Theorem start_program_outcome (args : list string) :
  _start_program None args = Raised (NameError "g")
  /\ forall (g : Gdb.session) (response : string),
      Gdb.run g args true = Returned response ->
      (PyStr.contains "Starting program: " response = false ->
       _start_program (Some g) args
       = Raised (GdbException ("Unable to start program: " +:+ response)))
      /\ (PyStr.contains "Starting program: " response = true ->
          exists program_name,
            _start_program (Some g) args = Returned (response, program_name)).
Proof.
  split; [reflexivity|]. intros g response Hrun. unfold _start_program.
  assert (match args with
          | [] => Gdb.run g [] true
          | _ :: _ => Gdb.run g args true
          end = Returned response) as -> by (destruct args; exact Hrun).
  cbn [mbind outcome_bind]. unfold PyStr.find.
  rewrite find_at_found by lia.
  split; intros ->; cbn [negb]; eauto.
Qed.

Lemma start_program_outcome_witness :
  _start_program (Some (answering_gdb "No executable file specified.")) []
  = Raised (GdbException
              "Unable to start program: No executable file specified.").
Proof.
  apply (proj2 (start_program_outcome [])
           (answering_gdb "No executable file specified.")
           "No executable file specified." eq_refl).
  reflexivity.
Defined.

(** X23.  [GdbTracer._start_program] cuts the program name one character
    too late: when the first "Starting program: " of gdb's answer is
    followed by a character, a text without a newline and a newline,
    the name it keeps is that text without the character before it. *)
Theorem start_program_name_skips_a_character (g : Gdb.session)
    (args : list string) (pre : string) (c : ascii) (name post : string) :
  let response :=
    pre +:+ "Starting program: " +:+ String c (name +:+ PyStr.newline +:+ post) in
  Gdb.run g args true = Returned response ->
  (forall k, (k < String.length pre)%nat ->
     PyStr.startswith "Starting program: " (PyStr.slice_from k response) = false) ->
  PyStr.contains PyStr.newline name = false ->
  _start_program (Some g) args = Returned (response, name).
Proof.
  intros response Hrun Hpre Hname. unfold _start_program.
  assert (match args with
          | [] => Gdb.run g [] true
          | _ :: _ => Gdb.run g args true
          end = Returned response) as -> by (destruct args; exact Hrun).
  cbn [mbind outcome_bind]. unfold PyStr.find.
  set (rest := "Starting program: "
               +:+ String c (name +:+ PyStr.newline +:+ post)) in *.
  assert (PyStr.find_at "Starting program: " response 0
          = Z.of_nat (String.length pre)) as ->.
  { unfold response. rewrite find_at_first; [lia | exact Hpre | reflexivity]. }
  assert (String.length response
          = (String.length pre + 19 + String.length name + 1
             + String.length post)%nat) as Hlen.
  { unfold response, rest. rewrite string_length_app. simpl.
    rewrite !string_length_app. simpl. lia. }
  destruct (Z.ltb_spec (Z.of_nat (String.length pre)) 0) as [?|_]; [lia|].
  unfold PyStr.find_from, PyStr.slice. rewrite Hlen.
  destruct (Z.ltb_spec
              (Z.of_nat (String.length pre + 19 + String.length name + 1
                         + String.length post))
              (Z.of_nat (String.length pre) + 19)) as [?|_]; [lia|].
  replace (Z.to_nat (Z.of_nat (String.length pre) + 19))
    with (String.length pre + 19)%nat by lia.
  replace (Z.to_nat
             (Z.min (Z.of_nat (String.length pre) + 19)
                (Z.of_nat (String.length pre + 19 + String.length name + 1
                           + String.length post))))
    with (String.length pre + 19)%nat by lia.
  assert (PyStr.slice_from (String.length pre + 19) response
          = name +:+ PyStr.newline +:+ post) as ->.
  { unfold response. rewrite slice_from_app. reflexivity. }
  rewrite find_at_newline by assumption.
  destruct (Z.ltb_spec
              (Z.of_nat (String.length pre) + 19
               + Z.of_nat (String.length name)) 0) as [?|_]; [lia|].
  replace (Z.to_nat _) with (String.length name) by lia.
  now rewrite slice_to_app.
Qed.

Lemma start_program_name_skips_a_character_witness :
  _start_program (Some (answering_gdb sample_start)) ["-x"]
  = Returned (PyStr.strip sample_start, "usr/bin/true ").
Proof.
  apply (start_program_name_skips_a_character
           (answering_gdb sample_start) ["-x"]
           "" "/" "usr/bin/true "
           (PyStr.newline +:+ "Breakpoint 1, 0x0000000000401040 in _start ()")).
  - reflexivity.
  - intros k Hk. cbn in Hk. lia.
  - reflexivity.
Defined.

End StartProgram.

(** ** The watchdog, and the text of a response *)

(** X24.  [GdbDD.wait_for_gdb] of dd-ccd2cue.py never calls [kill] and
    never lets TimeoutExpired out: a wait that times out is swallowed,
    and a wait that returns has set the return code.  The one exception
    that escapes is the AttributeError of a [gdb.p] that is [None]
    (set so by [Gdb.quit] in the main thread) after the first test has
    seen the process: at the wait, or, after a wait that returned and a
    check that saw the process again, at the read of the return code.
    In every other case the method returns. *)
Theorem wait_for_gdb_outcome (h : Ccd2cue.watched) :
  let quit_in_between :=
    Ccd2cue.p_at_test h = true
    /\ (Ccd2cue.p_at_wait h = false
        \/ (is_Some (Ccd2cue.ends_within_timeout h)
            /\ Ccd2cue.p_at_check h = true
            /\ Ccd2cue.p_at_returncode h = false)) in
  Ccd2cue.wait_for_gdb h <> Returned Ccd2cue.Killed
  /\ Ccd2cue.wait_for_gdb h <> Blocked
  /\ (forall e, Ccd2cue.wait_for_gdb h = Raised e -> e = AttributeError)
  /\ (Ccd2cue.wait_for_gdb h = Raised AttributeError <-> quit_in_between)
  /\ (Ccd2cue.wait_for_gdb h = Returned Ccd2cue.LeftAlone
      <-> ~ quit_in_between).
Proof.
  destruct h as [t w e c r k].
  unfold Ccd2cue.wait_for_gdb, Ccd2cue.wait_timeout, Ccd2cue.attribute.
  cbn [Ccd2cue.p_at_test Ccd2cue.p_at_wait Ccd2cue.ends_within_timeout
       Ccd2cue.p_at_check Ccd2cue.p_at_returncode Ccd2cue.p_at_kill].
  assert (is_Some (@None Z) -> False) as HN by (intros [x Hx]; discriminate).
  destruct t, w, e as [rc|], c, r; cbn;
    (split; [discriminate|]); (split; [discriminate|]);
    (split; [intros e0 [= <-]; reflexivity || discriminate|]);
    (split; split; try discriminate; try reflexivity; eauto 6;
     intuition (try discriminate; eauto);
     exfalso;
     match goal with
     | H : is_Some (Some _) -> _ |- _ => apply H; [eexists; reflexivity | auto]
     end).
Qed.

Lemma wait_for_gdb_outcome_witness :
  Ccd2cue.wait_for_gdb quit_before_wait = Raised AttributeError.
Proof.
  apply (proj1 (proj2 (proj2 (proj2 (wait_for_gdb_outcome quit_before_wait))))).
  split; [reflexivity | left; reflexivity].
Defined.

Section Stripped.

Lemma rstrip_idempotent (s : string) :
  PyStr.rstrip (PyStr.rstrip s) = PyStr.rstrip s.
Proof.
  induction s as [|a r IH]; [reflexivity|].
  cbn [PyStr.rstrip]. destruct (PyStr.rstrip r) as [|b r'] eqn:E.
  - destruct (PyStr.is_space a) eqn:Ha; [reflexivity|].
    cbn [PyStr.rstrip]. now rewrite Ha.
  - cbn [PyStr.rstrip] in IH |- *. now rewrite IH.
Qed.

Lemma lstrip_head (s : string) :
  match PyStr.lstrip s with
  | EmptyString => True
  | String a _ => PyStr.is_space a = false
  end.
Proof.
  induction s as [|a r IH]; [exact I|].
  cbn [PyStr.lstrip]. destruct (PyStr.is_space a) eqn:Ha; [exact IH | exact Ha].
Qed.

Lemma rstrip_head (a : ascii) (r : string) :
  PyStr.is_space a = false ->
  exists r', PyStr.rstrip (String a r) = String a r'.
Proof.
  intros Ha. cbn [PyStr.rstrip].
  destruct (PyStr.rstrip r); [rewrite Ha|]; eauto.
Qed.

Lemma strip_idempotent (s : string) :
  PyStr.strip (PyStr.strip s) = PyStr.strip s.
Proof.
  unfold PyStr.strip. pose proof (lstrip_head s) as H.
  destruct (PyStr.lstrip s) as [|a r]; [reflexivity|].
  destruct (rstrip_head a r H) as [r' E].
  assert (PyStr.lstrip (PyStr.rstrip (String a r)) = PyStr.rstrip (String a r))
    as ->.
  { rewrite E. cbn [PyStr.lstrip]. now rewrite H. }
  apply rstrip_idempotent.
Qed.

Lemma rstrip_last (s : string) :
  forall t a, PyStr.rstrip s = t +:+ String a EmptyString ->
              PyStr.is_space a = false.
Proof.
  induction s as [|b r IH]; intros t a; cbn [PyStr.rstrip].
  - destruct t; discriminate.
  - destruct (PyStr.rstrip r) as [|c r'] eqn:E.
    + destruct (PyStr.is_space b) eqn:Hb; [destruct t; discriminate|].
      destruct t as [|x [|y t]]; cbn; intros [=]; congruence.
    + destruct t as [|x t]; cbn; [discriminate|].
      intros [= -> H]. now apply (IH t a).
Qed.

(** X25.  gdb.py: the [strip] of [Gdb._send_command] changes nothing,
    since [Gdb.send_input] has stripped the text already; and the text
    that either of them returns neither begins nor ends with white
    space. *)
Theorem send_command_strips_once (io : Gdb.gdb_io) (cmd : string) :
  Gdb._send_command io cmd = Gdb.send_input io (cmd +:+ PyStr.newline)
  /\ forall response,
      Gdb.send_input io (cmd +:+ PyStr.newline) = Returned response ->
      (forall a rest, response = String a rest -> PyStr.is_space a = false)
      /\ (forall front a, response = front +:+ String a EmptyString ->
                          PyStr.is_space a = false).
Proof.
  unfold Gdb._send_command, Gdb.send_input, PyStr.newline.
  destruct (io (cmd +:+ String "010" EmptyString)) as [output|e|];
    cbn [mbind outcome_bind mret outcome_ret].
  - split; [now rewrite strip_idempotent|].
    intros response [= <-]. split.
    + intros a rest E. unfold PyStr.strip in E.
      pose proof (lstrip_head output) as H.
      destruct (PyStr.lstrip output) as [|b r]; [discriminate|].
      destruct (rstrip_head b r H) as [r' E'].
      rewrite E' in E. now injection E as <- _.
    + intros front a E. now apply rstrip_last in E.
  - split; [reflexivity | discriminate].
  - split; [reflexivity | discriminate].
Qed.

Lemma send_command_strips_once_witness :
  Gdb._send_command (fun _ => Returned tabbed_response) "b main"
  = Gdb.send_input (fun _ => Returned tabbed_response) ("b main" +:+ PyStr.newline)
  /\ forall front a,
      PyStr.strip tabbed_response = front +:+ String a EmptyString ->
      PyStr.is_space a = false.
Proof.
  destruct (send_command_strips_once (fun _ => Returned tabbed_response) "b main")
    as [H1 H2].
  split; [exact H1|]. exact (proj2 (H2 (PyStr.strip tabbed_response) eq_refl)).
Defined.

End Stripped.
